(** * The variable graph of the tracing JIT: reference counts, CSE and trace appends

    A shallow embedding of [src/ssa.cpp] (variable table, dual reference
    counts, common-subexpression table, trace appends, [set_size],
    pointer literals) and of [jit_device_set] from [src/src/init.cpp],
    followed by the properties of the specification that concern them.

    Conventions of the embedding:
    - [uint32_t] values are [N] with the wrap-around written out ([wrap32]);
    - pointers are [N], [0] being [nullptr]; C strings are [option string],
      [None] being a null [char *];
    - the hash tables of the global [state] are [gmap]s, a stream's [todo]
      set is a [gset];
    - the code runs in a monad over the [World] (global state plus the log
      of observable events); [jit_raise] is a recoverable exception that
      leaves the state as it is at the throw, [jit_fail] terminates the
      process, and undefined behaviour of C++ is an outcome of its own. *)

From Stdlib Require Import NArith ZArith Lia String.
From stdpp Require Import base numbers option strings gmap sets fin_maps sorting.

Local Open Scope string_scope.
Local Open Scope list_scope.
Local Open Scope N_scope.

(** ** Machine integers *)

Definition wrap32 (x : N) : N := x mod 4294967296.

Definition UINT32_MAX : N := 4294967295.

(** ** Variable types *)

(** Modelled from the spec: the [EnokiType] enumeration used by
    [src/ssa.cpp] is declared in a header that is not among the sources.
    Its enumerators are those of section 3 of the specification, numbered
    in the order of [enum class VarType] of [include/enoki/jit.h]. *)
Module EnokiType.
Definition Invalid : N := 0.
Definition Int8 : N := 1.
Definition UInt8 : N := 2.
Definition Int16 : N := 3.
Definition UInt16 : N := 4.
Definition Int32 : N := 5.
Definition UInt32 : N := 6.
Definition Int64 : N := 7.
Definition UInt64 : N := 8.
Definition Float16 : N := 9.
Definition Float32 : N := 10.
Definition Float64 : N := 11.
Definition Bool : N := 12.
Definition Pointer : N := 13.
End EnokiType.

(** ** The variable record and the global state *)

(** Modelled from the spec: [struct Variable] is declared in a header that
    is not among the sources. The fields are those of section 3 that
    [src/ssa.cpp] reads or writes, under the names the code uses. *)
Record Var : Type := mkVar {
  v_type : N;
  v_stmt : option string;
  v_label : option string;
  v_size : N;
  v_dep : N * N * N;
  v_extra_dep : N;
  v_data : N;
  v_ref_count_ext : N;
  v_ref_count_int : N;
  v_tsize : N;
  v_side_effect : bool;
  v_dirty : bool;
  v_free_variable : bool;
  v_direct_pointer : bool
}.

(** A value-initialised [Variable v;] ([Variable] is a reserved word of Rocq,
    hence the shorter name of the record). *)
Definition Var_new : Var :=
  {| v_type := 0; v_stmt := None; v_label := None; v_size := 0;
     v_dep := (0, 0, 0); v_extra_dep := 0; v_data := 0;
     v_ref_count_ext := 0; v_ref_count_int := 0; v_tsize := 0;
     v_side_effect := false; v_dirty := false;
     v_free_variable := false; v_direct_pointer := false |}.

Definition set_type (x : N) (v : Var) : Var :=
  mkVar x (v_stmt v) (v_label v) (v_size v) (v_dep v) (v_extra_dep v)
    (v_data v) (v_ref_count_ext v) (v_ref_count_int v) (v_tsize v)
    (v_side_effect v) (v_dirty v) (v_free_variable v) (v_direct_pointer v).

Definition set_stmt (x : option string) (v : Var) : Var :=
  mkVar (v_type v) x (v_label v) (v_size v) (v_dep v) (v_extra_dep v)
    (v_data v) (v_ref_count_ext v) (v_ref_count_int v) (v_tsize v)
    (v_side_effect v) (v_dirty v) (v_free_variable v) (v_direct_pointer v).

Definition set_size (x : N) (v : Var) : Var :=
  mkVar (v_type v) (v_stmt v) (v_label v) x (v_dep v) (v_extra_dep v)
    (v_data v) (v_ref_count_ext v) (v_ref_count_int v) (v_tsize v)
    (v_side_effect v) (v_dirty v) (v_free_variable v) (v_direct_pointer v).

Definition set_dep (x : N * N * N) (v : Var) : Var :=
  mkVar (v_type v) (v_stmt v) (v_label v) (v_size v) x (v_extra_dep v)
    (v_data v) (v_ref_count_ext v) (v_ref_count_int v) (v_tsize v)
    (v_side_effect v) (v_dirty v) (v_free_variable v) (v_direct_pointer v).

Definition set_extra_dep (x : N) (v : Var) : Var :=
  mkVar (v_type v) (v_stmt v) (v_label v) (v_size v) (v_dep v) x
    (v_data v) (v_ref_count_ext v) (v_ref_count_int v) (v_tsize v)
    (v_side_effect v) (v_dirty v) (v_free_variable v) (v_direct_pointer v).

Definition set_data (x : N) (v : Var) : Var :=
  mkVar (v_type v) (v_stmt v) (v_label v) (v_size v) (v_dep v)
    (v_extra_dep v) x (v_ref_count_ext v) (v_ref_count_int v) (v_tsize v)
    (v_side_effect v) (v_dirty v) (v_free_variable v) (v_direct_pointer v).

Definition set_ref_count_ext (x : N) (v : Var) : Var :=
  mkVar (v_type v) (v_stmt v) (v_label v) (v_size v) (v_dep v)
    (v_extra_dep v) (v_data v) x (v_ref_count_int v) (v_tsize v)
    (v_side_effect v) (v_dirty v) (v_free_variable v) (v_direct_pointer v).

Definition set_ref_count_int (x : N) (v : Var) : Var :=
  mkVar (v_type v) (v_stmt v) (v_label v) (v_size v) (v_dep v)
    (v_extra_dep v) (v_data v) (v_ref_count_ext v) x (v_tsize v)
    (v_side_effect v) (v_dirty v) (v_free_variable v) (v_direct_pointer v).

Definition set_tsize (x : N) (v : Var) : Var :=
  mkVar (v_type v) (v_stmt v) (v_label v) (v_size v) (v_dep v)
    (v_extra_dep v) (v_data v) (v_ref_count_ext v) (v_ref_count_int v) x
    (v_side_effect v) (v_dirty v) (v_free_variable v) (v_direct_pointer v).

Definition set_dirty (x : bool) (v : Var) : Var :=
  mkVar (v_type v) (v_stmt v) (v_label v) (v_size v) (v_dep v)
    (v_extra_dep v) (v_data v) (v_ref_count_ext v) (v_ref_count_int v)
    (v_tsize v) (v_side_effect v) x (v_free_variable v) (v_direct_pointer v).

Definition set_free_variable (x : bool) (v : Var) : Var :=
  mkVar (v_type v) (v_stmt v) (v_label v) (v_size v) (v_dep v)
    (v_extra_dep v) (v_data v) (v_ref_count_ext v) (v_ref_count_int v)
    (v_tsize v) (v_side_effect v) (v_dirty v) x (v_direct_pointer v).

Definition set_direct_pointer (x : bool) (v : Var) : Var :=
  mkVar (v_type v) (v_stmt v) (v_label v) (v_size v) (v_dep v)
    (v_extra_dep v) (v_data v) (v_ref_count_ext v) (v_ref_count_int v)
    (v_tsize v) (v_side_effect v) (v_dirty v) (v_free_variable v) x.

(** Modelled from the spec: [struct VariableKey] is declared in a header
    that is not among the sources. Sections 3 and 4.1 give the tuple that
    identifies a node for CSE: (backend, type, stmt text, dep ids, size).
    In [src/ssa.cpp] the backend is fixed when the file is compiled (the
    macro [ENOKI_CUDA]), so the first component is that flag. The key is a
    value: it is built from the variable's fields at the moment
    [VariableKey key(v)] runs and does not follow later writes to them. *)
Abbreviation VariableKey := (bool * N * option string * (N * N * N) * N)%type.

Definition mkVariableKey (cuda : bool) (v : Var) : VariableKey :=
  (cuda, v_type v, v_stmt v, v_dep v, v_size v).

(** A stream, identified in [state.streams] by the pair (device, stream);
    the driver handles are not modelled. *)
Record Stream : Type := mkStream {
  s_cuda : bool;
  s_device : Z;
  s_stream : N;
  s_todo : gset N
}.

Abbreviation StreamKey := (N * N)%type.

Record State : Type := mkState {
  variables : gmap N Var;
  variable_from_key : gmap VariableKey N;
  variable_from_ptr : gmap N N;
  variable_index : N;
  scatter_gather_operand : N;
  streams : gmap StreamKey Stream;
  active_stream : option StreamKey;
  has_cuda : bool;
  devices : N
}.

Definition State_new : State :=
  mkState ∅ ∅ ∅ 0 0 ∅ None false 0.

(** The state [jit_init] leaves behind on a host without CUDA devices:
    empty tables and [state.variable_index = 1]. *)
Definition State_init : State :=
  mkState ∅ ∅ ∅ 1 0 ∅ None false 0.

(** ** Errors, events and outcomes *)

Inductive Error : Type :=
| ErrInvalidType
| ErrUnknownVariable (index : N)
| ErrDirectPointerNotFound
| ErrNoExternalReferences (index : N)
| ErrNoInternalReferences (index : N)
| ErrCouldNotAppend
| ErrStreamNotSet
| ErrUninitializedVariable
| ErrIncompatibleSize (sizes : list N) (stmt : string)
| ErrResizeAllocated (index cur req : N)
| ErrRegisterSizeZero
| ErrInvalidDevice.

(** The calls of [jit_log] in the modelled functions, with their arguments. *)
Inductive LogEntry : Type :=
| LogVarFree (index data : N)
| LogIncRefExt (index count : N)
| LogIncRefInt (index count : N)
| LogDecRefExt (index count : N)
| LogDecRefInt (index count : N)
| LogTraceAppend (idx : N) (args : list N) (stmt : option string) (reused : bool)
| LogSetSize (index size : N)
| LogRegister (idx ptr size : N) (free : bool)
| LogRegisterPtr (idx ptr : N)
| LogDeviceSet (device : Z) (stream : N) (created : bool)
| LogMarkDirty (index : N).

Inductive Event : Type :=
| EvLog (l : LogEntry)
| EvEval
| EvJitFree (ptr : N).

(** The world a call runs in: the global [state] (with the thread's
    [active_stream]) and the events observed so far, most recent first. *)
Record World : Type := mkWorld {
  st : State;
  events : list Event
}.

Inductive Res (S A : Type) : Type :=
| Ok (a : A) (s : S)
| Raise (e : Error) (s : S)
| Fail (e : Error)
| Undefined
| Diverge.

Arguments Ok {S A} a s.
Arguments Raise {S A} e s.
Arguments Fail {S A} e.
Arguments Undefined {S A}.
Arguments Diverge {S A}.

Definition M (A : Type) : Type := World → Res World A.

Definition ret {A} (a : A) : M A := fun w => Ok a w.

Definition bind {A B} (m : M A) (k : A → M B) : M B :=
  fun w =>
    match m w with
    | Ok a w' => k a w'
    | Raise e w' => Raise e w'
    | Fail e => Fail e
    | Undefined => Undefined
    | Diverge => Diverge
    end.

Notation "x <- c1 ;; c2" := (bind c1 (fun x => c2))
  (at level 100, c1 at next level, right associativity).
Notation "c1 ;;; c2" := (bind c1 (fun _ => c2))
  (at level 100, right associativity).

Definition jit_raise {A} (e : Error) : M A := fun w => Raise e w.
Definition jit_fail {A} (e : Error) : M A := fun _ => Fail e.
Definition undefined {A} : M A := fun _ => Undefined.
Definition diverge {A} : M A := fun _ => Diverge.

Definition get : M State := fun w => Ok (st w) w.
Definition put (s : State) : M unit := fun w => Ok tt (mkWorld s (events w)).
Definition emit (e : Event) : M unit :=
  fun w => Ok tt (mkWorld (st w) (e :: events w)).
Definition jit_log (l : LogEntry) : M unit := emit (EvLog l).

Definition upd_variables (f : gmap N Var → gmap N Var) (s : State) : State :=
  mkState (f (variables s)) (variable_from_key s) (variable_from_ptr s)
    (variable_index s) (scatter_gather_operand s) (streams s)
    (active_stream s) (has_cuda s) (devices s).

Definition upd_variable_from_key (f : gmap VariableKey N → gmap VariableKey N)
    (s : State) : State :=
  mkState (variables s) (f (variable_from_key s)) (variable_from_ptr s)
    (variable_index s) (scatter_gather_operand s) (streams s)
    (active_stream s) (has_cuda s) (devices s).

Definition upd_variable_from_ptr (f : gmap N N → gmap N N) (s : State) : State :=
  mkState (variables s) (variable_from_key s) (f (variable_from_ptr s))
    (variable_index s) (scatter_gather_operand s) (streams s)
    (active_stream s) (has_cuda s) (devices s).

Definition upd_variable_index (f : N → N) (s : State) : State :=
  mkState (variables s) (variable_from_key s) (variable_from_ptr s)
    (f (variable_index s)) (scatter_gather_operand s) (streams s)
    (active_stream s) (has_cuda s) (devices s).

Definition upd_streams (f : gmap StreamKey Stream → gmap StreamKey Stream)
    (s : State) : State :=
  mkState (variables s) (variable_from_key s) (variable_from_ptr s)
    (variable_index s) (scatter_gather_operand s) (f (streams s))
    (active_stream s) (has_cuda s) (devices s).

Definition upd_active_stream (a : option StreamKey) (s : State) : State :=
  mkState (variables s) (variable_from_key s) (variable_from_ptr s)
    (variable_index s) (scatter_gather_operand s) (streams s)
    a (has_cuda s) (devices s).

Definition modify (f : State → State) : M unit :=
  fun w => Ok tt (mkWorld (f (st w)) (events w)).

Definition upd_todo (f : gset N → gset N) (s : Stream) : Stream :=
  mkStream (s_cuda s) (s_device s) (s_stream s) (f (s_todo s)).

(** ** [jit_type_size] and [jit_type_name] *)

Definition jit_type_size (type : N) : M N :=
  if decide (type = EnokiType.UInt8) then ret 1
  else if decide (type = EnokiType.Int8) then ret 1
  else if decide (type = EnokiType.Bool) then ret 1
  else if decide (type = EnokiType.UInt16) then ret 2
  else if decide (type = EnokiType.Int16) then ret 2
  else if decide (type = EnokiType.UInt32) then ret 4
  else if decide (type = EnokiType.Int32) then ret 4
  else if decide (type = EnokiType.Float32) then ret 4
  else if decide (type = EnokiType.UInt64) then ret 8
  else if decide (type = EnokiType.Int64) then ret 8
  else if decide (type = EnokiType.Pointer) then ret 8
  else if decide (type = EnokiType.Float64) then ret 8
  else jit_fail ErrInvalidType.

Definition jit_type_name (type : N) : M string :=
  if decide (type = EnokiType.Int8) then ret "i8 "
  else if decide (type = EnokiType.UInt8) then ret "u8 "
  else if decide (type = EnokiType.Int16) then ret "i16"
  else if decide (type = EnokiType.UInt16) then ret "u16"
  else if decide (type = EnokiType.Int32) then ret "i32"
  else if decide (type = EnokiType.UInt32) then ret "u32"
  else if decide (type = EnokiType.Int64) then ret "i64"
  else if decide (type = EnokiType.UInt64) then ret "u64"
  else if decide (type = EnokiType.Float16) then ret "f16"
  else if decide (type = EnokiType.Float32) then ret "f32"
  else if decide (type = EnokiType.Float64) then ret "f64"
  else if decide (type = EnokiType.Bool) then ret "msk"
  else if decide (type = EnokiType.Pointer) then ret "ptr"
  else jit_fail ErrInvalidType.

(** ** C strings *)

(** [strstr]: the suffix of [s] that starts at the first occurrence of
    [needle], if there is one. *)
Fixpoint strstr (s needle : string) : option string :=
  if String.prefix needle s then Some s
  else match s with
       | EmptyString => None
       | String _ s' => strstr s' needle
       end.

(** ** The functions of [src/ssa.cpp] *)

Section Jit.

(** What the code depends on and the sources do not fix:
    - [ENOKI_CUDA]: whether the file is compiled with that macro defined;
    - [strdup_null_ok]: [strdup] of a null pointer is not defined by C;
      [true] stands for a C library that returns a null pointer, [false]
      for one where the call is undefined behaviour;
    - [jit_eval_impl]: the evaluator ([eval.h], not among the sources), as
      a function of the global state. *)
Context (ENOKI_CUDA : bool) (strdup_null_ok : bool)
        (jit_eval_impl : State → Res State unit).

(** [jit_eval()]: runs the evaluator and records that it ran. *)
Definition jit_eval : M unit :=
  fun w =>
    match jit_eval_impl (st w) with
    | Ok _ s => Ok tt (mkWorld s (EvEval :: events w))
    | Raise e s => Raise e (mkWorld s (EvEval :: events w))
    | Fail e => Fail e
    | Undefined => Undefined
    | Diverge => Diverge
    end.

Definition strdup (p : option string) : M (option string) :=
  match p with
  | Some s => ret (Some s)
  | None => if strdup_null_ok then ret None else undefined
  end.

(** Access a variable by ID, terminate with an error if it doesn't exist *)
Definition jit_var (index : N) : M Var :=
  s <- get ;;
  match variables s !! index with
  | Some v => ret v
  | None => jit_fail (ErrUnknownVariable index)
  end.

(** [jit_inc_ref_ext(index, v)], where [v] points to the entry of [index]
    in [state.variables]. *)
Definition jit_inc_ref_ext_var (index : N) : M unit :=
  s <- get ;;
  match variables s !! index with
  | None => undefined
  | Some v =>
      let v' := set_ref_count_ext (wrap32 (v_ref_count_ext v + 1)) v in
      put (upd_variables <[index := v']> s) ;;;
      jit_log (LogIncRefExt index (v_ref_count_ext v'))
  end.

(** Increase the external reference count of a given variable *)
Definition jit_inc_ref_ext (index : N) : M unit :=
  if decide (index ≠ 0) then (_ <- jit_var index ;; jit_inc_ref_ext_var index)
  else ret tt.

(** [jit_inc_ref_int(index, v)], where [v] points to the entry of [index]. *)
Definition jit_inc_ref_int_var (index : N) : M unit :=
  s <- get ;;
  match variables s !! index with
  | None => undefined
  | Some v =>
      let v' := set_ref_count_int (wrap32 (v_ref_count_int v + 1)) v in
      put (upd_variables <[index := v']> s) ;;;
      jit_log (LogIncRefInt index (v_ref_count_int v'))
  end.

(** Increase the internal reference count of a given variable *)
Definition jit_inc_ref_int (index : N) : M unit :=
  if decide (index ≠ 0) then (_ <- jit_var index ;; jit_inc_ref_int_var index)
  else ret tt.

(** [active_stream->todo.erase(index)]; dereferencing a null or stale
    [active_stream] is undefined. *)
Definition todo_erase (index : N) : M unit :=
  s <- get ;;
  match active_stream s with
  | None => undefined
  | Some k =>
      match streams s !! k with
      | None => undefined
      | Some sm => put (upd_streams <[k := upd_todo (λ t, t ∖ {[index]}) sm]> s)
      end
  end.

(** [stream->todo.insert(idx)] for the stream [k] read from [active_stream]
    at the start of the call. *)
Definition todo_insert (k : StreamKey) (idx : N) : M unit :=
  s <- get ;;
  match streams s !! k with
  | None => undefined
  | Some sm => put (upd_streams <[k := upd_todo (λ t, {[idx]} ∪ t) sm]> s)
  end.

(** Cleanup handler, called when the internal/external reference count
    reaches zero. [v] points to the entry of [index]; the two recursive
    calls are parameters so that the three mutually recursive functions
    can be defined by recursion on a bound of the recursion depth. *)
Definition jit_var_free_with (dec_int dec_ext : N → M unit) (index : N) : M unit :=
  s <- get ;;
  match variables s !! index with
  | None => undefined
  | Some v =>
      jit_log (LogVarFree index (v_data v)) ;;;
      modify (upd_variable_from_key (delete (mkVariableKey ENOKI_CUDA v))) ;;;
      (if v_free_variable v && negb (v_data v =? 0)
       then emit (EvJitFree (v_data v)) else ret tt) ;;;
      (if v_direct_pointer v then
         s1 <- get ;;
         match variable_from_ptr s1 !! v_data v with
         | None => jit_fail ErrDirectPointerNotFound
         | Some _ => modify (upd_variable_from_ptr (delete (v_data v)))
         end
       else ret tt) ;;;
      modify (upd_variables (delete index)) ;;;
      dec_int (v_dep v).1.1 ;;;
      dec_int (v_dep v).1.2 ;;;
      dec_int (v_dep v).2 ;;;
      dec_ext (v_extra_dep v)
  end.

Fixpoint jit_dec_ref_ext_fuel (fuel : nat) (index : N) : M unit :=
  match fuel with
  | O => diverge
  | S fuel' =>
      s <- get ;;
      if decide (index = 0 ∨ variables s = ∅) then ret tt
      else
        v <- jit_var index ;;
        if decide (v_ref_count_ext v = 0)
        then jit_fail (ErrNoExternalReferences index)
        else
          jit_log (LogDecRefExt index (v_ref_count_ext v - 1)) ;;;
          let v' := set_ref_count_ext (v_ref_count_ext v - 1) v in
          modify (upd_variables <[index := v']>) ;;;
          (if decide (v_ref_count_ext v' = 0) then todo_erase index else ret tt) ;;;
          (if decide (v_ref_count_ext v' = 0 ∧ v_ref_count_int v' = 0)
           then jit_var_free_with (jit_dec_ref_int_fuel fuel')
                                  (jit_dec_ref_ext_fuel fuel') index
           else ret tt)
  end
with jit_dec_ref_int_fuel (fuel : nat) (index : N) : M unit :=
  match fuel with
  | O => diverge
  | S fuel' =>
      s <- get ;;
      if decide (index = 0 ∨ variables s = ∅) then ret tt
      else
        v <- jit_var index ;;
        if decide (v_ref_count_int v = 0)
        then jit_fail (ErrNoInternalReferences index)
        else
          jit_log (LogDecRefInt index (v_ref_count_int v - 1)) ;;;
          let v' := set_ref_count_int (v_ref_count_int v - 1) v in
          modify (upd_variables <[index := v']>) ;;;
          (if decide (v_ref_count_ext v' = 0 ∧ v_ref_count_int v' = 0)
           then jit_var_free_with (jit_dec_ref_int_fuel fuel')
                                  (jit_dec_ref_ext_fuel fuel') index
           else ret tt)
  end.

(** Every nested call happens after an entry was erased from
    [state.variables], so the depth of the recursion is at most the number
    of entries (see [jit_dec_ref_ext_total] below). *)
Definition dec_ref_fuel (s : State) : nat := S (size (variables s)).

(** Decrease the external reference count of a given variable *)
Definition jit_dec_ref_ext (index : N) : M unit :=
  fun w => jit_dec_ref_ext_fuel (dec_ref_fuel (st w)) index w.

(** Decrease the internal reference count of a given variable *)
Definition jit_dec_ref_int (index : N) : M unit :=
  fun w => jit_dec_ref_int_fuel (dec_ref_fuel (st w)) index w.

Definition jit_var_free (index : N) : M unit :=
  jit_var_free_with jit_dec_ref_int jit_dec_ref_ext index.

(** The flag of the [jit_log] calls of the trace appends:
    [vo->ref_count_int + vo->ref_count_ext == 0 ? "" : " (reused)"]. *)
Definition reused (vo : Var) : bool :=
  negb (wrap32 (v_ref_count_int vo + v_ref_count_ext vo) =? 0).

(** Append the given variable to the instruction trace and return its ID *)
Definition jit_trace_append_var (v : Var) : M (N * Var) :=
  stmt <- strdup (v_stmt v) ;;
  let v := set_stmt stmt v in
  (if ENOKI_CUDA && negb (v_type v =? EnokiType.Float32) then
     match v_stmt v with
     | None => undefined                      (* strstr on a null pointer *)
     | Some str =>
         match strstr str ".ftz" with
         | Some _ => undefined                (* strcat on overlapping strings *)
         | None => ret tt
         end
     end
   else ret tt) ;;;
  let key := mkVariableKey ENOKI_CUDA v in
  s <- get ;;
  match variable_from_key s !! key with
  | None =>
      let idx := variable_index s in
      let s1 := upd_variable_index (λ i, wrap32 (i + 1))
                  (upd_variable_from_key <[key := 0]> s) in
      match variables s1 !! idx with
      | Some _ => jit_fail ErrCouldNotAppend
      | None =>
          put (upd_variable_from_key <[key := idx]>
                 (upd_variables <[idx := v]> s1)) ;;;
          ret (idx, v)
      end
  | Some idx =>
      v_out <- jit_var idx ;;
      ret (idx, v_out)
  end.

(** Set the size of a given variable: the write [v->size = size] through
    a pointer to the entry of [index]. *)
Definition write_size (index : N) (size : N) : M unit :=
  s <- get ;;
  match variables s !! index with
  | None => undefined
  | Some v => put (upd_variables <[index := set_size (wrap32 size) v]> s)
  end.

(** Append a variable to the instruction trace (no operands) *)
Definition jit_trace_append_0 (type : N) (stmt : option string) : M N :=
  s <- get ;;
  match active_stream s with
  | None => jit_raise ErrStreamNotSet
  | Some stream =>
      let v := set_tsize 1 (set_stmt stmt (set_size 1 (set_type type Var_new))) in
      r <- jit_trace_append_var v ;;
      jit_log (LogTraceAppend r.1 [] (v_stmt r.2) (reused r.2)) ;;;
      jit_inc_ref_ext_var r.1 ;;;
      todo_insert stream r.1 ;;;
      ret r.1
  end.

(** Append a variable to the instruction trace (1 operand) *)
Definition jit_trace_append_1 (type : N) (stmt : option string) (arg1 : N) : M N :=
  s <- get ;;
  match active_stream s with
  | None => jit_raise ErrStreamNotSet
  | Some stream =>
      if decide (arg1 = 0) then jit_raise ErrUninitializedVariable
      else
        v1 <- jit_var arg1 ;;
        let v := set_tsize (wrap32 (1 + v_tsize v1))
                   (set_dep (arg1, 0, 0)
                      (set_stmt stmt (set_size (v_size v1) (set_type type Var_new)))) in
        v <- (if v_dirty v1 then
                jit_eval ;;;
                _ <- jit_var arg1 ;;
                ret (set_tsize 2 v)
              else ret v) ;;
        jit_inc_ref_int_var arg1 ;;;
        r <- jit_trace_append_var v ;;
        jit_log (LogTraceAppend r.1 [arg1] (v_stmt r.2) (reused r.2)) ;;;
        jit_inc_ref_ext_var r.1 ;;;
        todo_insert stream r.1 ;;;
        ret r.1
  end.

(** Append a variable to the instruction trace (2 operands) *)
Definition jit_trace_append_2 (type : N) (stmt : option string) (arg1 arg2 : N) : M N :=
  s <- get ;;
  match active_stream s with
  | None => jit_raise ErrStreamNotSet
  | Some stream =>
      if decide (arg1 = 0 ∨ arg2 = 0) then jit_raise ErrUninitializedVariable
      else
        v1 <- jit_var arg1 ;;
        v2 <- jit_var arg2 ;;
        let v := set_tsize (wrap32 (1 + v_tsize v1 + v_tsize v2))
                   (set_dep (arg1, arg2, 0)
                      (set_stmt stmt
                         (set_size (N.max (v_size v1) (v_size v2))
                            (set_type type Var_new)))) in
        v <- (if decide ((v_size v1 ≠ 1 ∧ v_size v1 ≠ v_size v) ∨
                          (v_size v2 ≠ 1 ∧ v_size v2 ≠ v_size v))
              then jit_raise (ErrIncompatibleSize [v_size v1; v_size v2]
                                (default "" stmt))
              else if v_dirty v1 || v_dirty v2 then
                jit_eval ;;;
                _ <- jit_var arg1 ;;
                _ <- jit_var arg2 ;;
                ret (set_tsize 3 v)
              else ret v) ;;
        jit_inc_ref_int_var arg1 ;;;
        jit_inc_ref_int_var arg2 ;;;
        r <- jit_trace_append_var v ;;
        jit_log (LogTraceAppend r.1 [arg1; arg2] (v_stmt r.2) (reused r.2)) ;;;
        jit_inc_ref_ext_var r.1 ;;;
        todo_insert stream r.1 ;;;
        ret r.1
  end.

(** The test of the 3-operand append for a scatter or atomic-add
    statement; [strstr] on a null [stmt] is undefined. *)
Definition is_scatter (stmt : option string) : M bool :=
  match stmt with
  | None => undefined
  | Some str =>
      ret (bool_decide (is_Some (strstr str "st.global")) ||
           bool_decide (is_Some (strstr str "atom.global.add")))
  end.

(** Append a variable to the instruction trace (3 operands) *)
Definition jit_trace_append_3 (type : N) (stmt : option string)
    (arg1 arg2 arg3 : N) : M N :=
  s <- get ;;
  match active_stream s with
  | None => jit_raise ErrStreamNotSet
  | Some stream =>
      if decide (arg1 = 0 ∨ arg2 = 0 ∨ arg3 = 0)
      then jit_raise ErrUninitializedVariable
      else
        v1 <- jit_var arg1 ;;
        v2 <- jit_var arg2 ;;
        v3 <- jit_var arg3 ;;
        let v := set_tsize (wrap32 (1 + v_tsize v1 + v_tsize v2 + v_tsize v3))
                   (set_dep (arg1, arg2, arg3)
                      (set_stmt stmt
                         (set_size (N.max (N.max (v_size v1) (v_size v2)) (v_size v3))
                            (set_type type Var_new)))) in
        v <- (if decide ((v_size v1 ≠ 1 ∧ v_size v1 ≠ v_size v) ∨
                          (v_size v2 ≠ 1 ∧ v_size v2 ≠ v_size v) ∨
                          (v_size v3 ≠ 1 ∧ v_size v3 ≠ v_size v))
              then jit_raise (ErrIncompatibleSize [v_size v1; v_size v2; v_size v3]
                                (default "" stmt))
              else if v_dirty v1 || v_dirty v2 || v_dirty v3 then
                jit_eval ;;;
                _ <- jit_var arg1 ;;
                _ <- jit_var arg2 ;;
                _ <- jit_var arg3 ;;
                ret (set_tsize 4 v)
              else ret v) ;;
        jit_inc_ref_int_var arg1 ;;;
        jit_inc_ref_int_var arg2 ;;;
        jit_inc_ref_int_var arg3 ;;;
        v <- (if ENOKI_CUDA then
                sc <- is_scatter stmt ;;
                if (sc : bool) then
                  s1 <- get ;;
                  let v := set_extra_dep (scatter_gather_operand s1) v in
                  jit_inc_ref_ext (v_extra_dep v) ;;;
                  ret v
                else ret v
              else ret v) ;;
        r <- jit_trace_append_var v ;;
        jit_log (LogTraceAppend r.1 [arg1; arg2; arg3] (v_stmt r.2) (reused r.2)) ;;;
        jit_inc_ref_ext_var r.1 ;;;
        todo_insert stream r.1 ;;;
        ret r.1
  end.

(** Set the size of a given variable (if possible, otherwise throw).
    [size] is a [size_t]; it is truncated to 32 bits when stored. *)
Definition jit_var_set_size (index : N) (size : N) (copy : bool) : M N :=
  var <- jit_var index ;;
  if decide (v_size var = size) then ret index
  else if negb (v_data var =? 0) || (0 <? v_ref_count_int var) then
    if (v_size var =? 1) && copy then
      index_new <- jit_trace_append_1 (v_type var) (Some "mov.$t1 $r1, $r2") index ;;
      _ <- jit_var index_new ;;
      write_size index_new size ;;;
      jit_dec_ref_ext index ;;;
      ret index_new
    else jit_raise (ErrResizeAllocated index (v_size var) size)
  else
    write_size index size ;;;
    jit_log (LogSetSize index size) ;;;
    ret index.

(** Register an existing variable with the JIT compiler *)
Definition jit_var_register (type : N) (ptr : N) (size : N) (free : bool) : M N :=
  if decide (size = 0) then jit_raise ErrRegisterSizeZero
  else
    let v := set_tsize 1
               (set_free_variable free
                  (set_size (wrap32 size) (set_data ptr (set_type type Var_new)))) in
    r <- jit_trace_append_var v ;;
    jit_log (LogRegister r.1 ptr size free) ;;;
    jit_inc_ref_ext_var r.1 ;;;
    ret r.1.

(** Register pointer literal as a special variable within the JIT compiler *)
Definition jit_var_register_ptr (ptr : N) : M N :=
  s <- get ;;
  match variable_from_ptr s !! ptr with
  | Some idx =>
      jit_inc_ref_ext idx ;;;
      ret idx
  | None =>
      let v := set_direct_pointer true
                 (set_free_variable false
                    (set_tsize 0
                       (set_size 1
                          (set_data ptr (set_type EnokiType.Pointer Var_new))))) in
      r <- jit_trace_append_var v ;;
      jit_log (LogRegisterPtr r.1 ptr) ;;;
      jit_inc_ref_ext_var r.1 ;;;
      modify (upd_variable_from_ptr <[ptr := r.1]>) ;;;
      ret r.1
  end.

(** [jit_var_mark_dirty] *)
Definition jit_var_mark_dirty (index : N) : M unit :=
  jit_log (LogMarkDirty index) ;;;
  v <- jit_var index ;;
  modify (upd_variables <[index := set_dirty true v]>).

(** ** [jit_device_set] of [src/src/init.cpp] *)

(** The key of [state.streams]: [std::pair<uint32_t, uint32_t>(device, stream)]. *)
Definition stream_key (device : Z) (stream : N) : StreamKey :=
  (Z.to_N (device mod 4294967296), stream).

(** [state.devices[device].context], read when CUDA is available and the
    device is not the host: an index outside of the vector is undefined
    behaviour. The call of the driver with the context is not modelled. *)
Definition device_context (device : Z) : M unit :=
  s <- get ;;
  if has_cuda s && negb (device =? -1)%Z &&
     negb ((0 <=? device)%Z && (device <? Z.of_N (devices s))%Z)
  then undefined else ret tt.

(** Set the currently active device & stream. The calls into the CUDA
    driver are not modelled. *)
Definition jit_device_set (device : Z) (stream : N) : M unit :=
  s <- get ;;
  let key := stream_key device stream in
  let cuda := negb (device =? -1)%Z in
  match streams s !! key with
  | Some _ =>
      if decide (active_stream s = Some key) then ret tt
      else
        jit_log (LogDeviceSet device stream false) ;;;
        device_context device ;;;
        modify (upd_active_stream (Some key))
  | None =>
      if cuda && (negb (has_cuda s) || (Z.of_N (devices s) <=? device)%Z)
      then jit_raise ErrInvalidDevice
      else
        jit_log (LogDeviceSet device stream true) ;;;
        device_context device ;;;
        modify (upd_streams <[key := mkStream cuda device stream ∅]>) ;;;
        modify (upd_active_stream (Some key))
  end.

End Jit.

(** ** An evaluator to run the calls with *)

(** Modelled from the spec: [jit_eval] is not among the sources. Section
    4.3 (post-launch, dirty propagation) says what an evaluation leaves
    behind: every pending root of the active stream gets a buffer as
    [data] with [free_variable = true], its [stmt] is cleared and it is no
    longer eligible for CSE, it leaves the pending set and drops the
    internal references on its operands; [dirty] is cleared on all nodes.
    The address of the buffer of root [index] is [buffer_address index]. *)
Definition buffer_address (index : N) : N := 4096 * (index + 1).

Definition eval_root (cuda : bool) (index : N) : M unit :=
  s <- get ;;
  match variables s !! index with
  | None => ret tt
  | Some v =>
      if negb (v_data v =? 0) then ret tt
      else
        modify (upd_variable_from_key (delete (mkVariableKey cuda v))) ;;;
        modify (upd_variables
                  <[index := set_dep (0, 0, 0)
                               (set_stmt None
                                  (set_free_variable true
                                     (set_data (buffer_address index) v)))]>) ;;;
        jit_dec_ref_int cuda (v_dep v).1.1 ;;;
        jit_dec_ref_int cuda (v_dep v).1.2 ;;;
        jit_dec_ref_int cuda (v_dep v).2
  end.

Definition jit_eval_model (cuda : bool) (s : State) : Res State unit :=
  match active_stream s with
  | None => Undefined
  | Some k =>
      match streams s !! k with
      | None => Undefined
      | Some sm =>
          let run :=
            foldr (λ i rest, eval_root cuda i ;;; rest) (ret tt)
              (elements (s_todo sm)) ;;;
            modify (upd_streams (alter (upd_todo (λ _, ∅)) k)) ;;;
            modify (upd_variables (fmap (set_dirty false))) in
          match run (mkWorld s []) with
          | Ok _ w => Ok tt (st w)
          | Raise e w => Raise e (st w)
          | Fail e => Fail e
          | Undefined => Undefined
          | Diverge => Diverge
          end
      end
  end.

(** The world a call leaves behind. *)
Definition world_after {A} (m : M A) (w : World) : World :=
  match m w with
  | Ok _ w' => w'
  | Raise _ w' => w'
  | _ => w
  end.

Definition w_init : World := mkWorld State_init [].

(** Whether an outcome is a jit error raised to the caller. *)
Definition is_raise {S A} (r : Res S A) : bool :=
  match r with
  | Raise _ _ => true
  | _ => false
  end.

(** The value a call returns, if it returns. *)
Definition res_value {S A} (r : Res S A) : option A :=
  match r with
  | Ok a _ => Some a
  | _ => None
  end.

(** A CSE hit: the statement of variable 1 is appended a second time. *)
Definition mov_half : option string := Some "mov.$t0 $r0, 0.5".

Definition w_one : World :=
  world_after (jit_device_set (-1) 0 ;;;
               jit_trace_append_0 false true EnokiType.Float32 mov_half) w_init.

Definition w_one_again : World :=
  world_after (jit_trace_append_0 false true EnokiType.Float32 mov_half) w_one.

(** ** Vocabulary of the properties *)

(** The four trace appends as one type of calls. *)
Inductive append_call : Type :=
| Append0 (type : N) (stmt : option string)
| Append1 (type : N) (stmt : option string) (arg1 : N)
| Append2 (type : N) (stmt : option string) (arg1 arg2 : N)
| Append3 (type : N) (stmt : option string) (arg1 arg2 arg3 : N).

Definition operands (c : append_call) : list N :=
  match c with
  | Append0 _ _ => []
  | Append1 _ _ a1 => [a1]
  | Append2 _ _ a1 a2 => [a1; a2]
  | Append3 _ _ a1 a2 a3 => [a1; a2; a3]
  end.

(** The external reference count of [idx], [0] for an id that is not live. *)
Definition ext_of (s : State) (idx : N) : N :=
  from_option v_ref_count_ext 0 (variables s !! idx).

Definition size_of (s : State) (idx : N) : N :=
  from_option v_size 0 (variables s !! idx).

Definition is_dirty (s : State) (idx : N) : bool :=
  from_option v_dirty false (variables s !! idx).

Definition any_dirty (c : append_call) (s : State) : bool :=
  existsb (is_dirty s) (operands c).

(** [idx] is in the pending set of the stream [k]. *)
Definition in_todo (s : State) (k : StreamKey) (idx : N) : Prop :=
  ∃ sm, streams s !! k = Some sm ∧ idx ∈ s_todo sm.

(** The state after [jit_trace_append(Variable &)] has entered [v] under a
    fresh id. *)
Definition fresh_state (cuda : bool) (v : Var) (s : State) : State :=
  let key := mkVariableKey cuda v in
  let idx := variable_index s in
  upd_variable_from_key <[key := idx]>
    (upd_variables <[idx := v]>
       (upd_variable_index (λ i, wrap32 (i + 1))
          (upd_variable_from_key <[key := 0]> s))).

Definition call_type (c : append_call) : N :=
  match c with
  | Append0 t _ | Append1 t _ _ | Append2 t _ _ _ | Append3 t _ _ _ _ => t
  end.

Definition call_stmt (c : append_call) : option string :=
  match c with
  | Append0 _ s | Append1 _ s _ | Append2 _ s _ _ | Append3 _ s _ _ _ => s
  end.

Definition call_deps (c : append_call) : N * N * N :=
  match c with
  | Append0 _ _ => (0, 0, 0)
  | Append1 _ _ a1 => (a1, 0, 0)
  | Append2 _ _ a1 a2 => (a1, a2, 0)
  | Append3 _ _ a1 a2 a3 => (a1, a2, a3)
  end.

(** The size a trace append gives its node: [1] without operands, the size
    of the operand, or the maximum of the operand sizes. *)
Definition node_size (c : append_call) (s : State) : N :=
  match c with
  | Append0 _ _ => 1
  | Append1 _ _ a1 => size_of s a1
  | Append2 _ _ a1 a2 => N.max (size_of s a1) (size_of s a2)
  | Append3 _ _ a1 a2 a3 =>
      N.max (N.max (size_of s a1) (size_of s a2)) (size_of s a3)
  end.

(** Every operand is scalar or has the size of the node. *)
Definition sizes_ok (c : append_call) (s : State) : Prop :=
  Forall (λ a, size_of s a = 1 ∨ size_of s a = node_size c s) (operands c).

(** The tentative node of a call, up to [tsize] and [extra_dep]. *)
Definition node_ok (c : append_call) (s : State) (v : Var) : Prop :=
  v_type v = call_type c ∧ v_stmt v = call_stmt c ∧ v_dep v = call_deps c ∧
  v_size v = node_size c s ∧ v_data v = 0 ∧
  v_ref_count_ext v = 0 ∧ v_ref_count_int v = 0 ∧ v_direct_pointer v = false.

(** The world after [jit_inc_ref_int(a, v)] / [jit_inc_ref_ext(a, v)] on a
    live entry. *)
Definition bump_int (a : N) (w : World) : World :=
  match variables (st w) !! a with
  | Some v =>
      let v' := set_ref_count_int (wrap32 (v_ref_count_int v + 1)) v in
      mkWorld (upd_variables <[a := v']> (st w))
        (EvLog (LogIncRefInt a (v_ref_count_int v')) :: events w)
  | None => w
  end.

Definition bump_ext (a : N) (w : World) : World :=
  match variables (st w) !! a with
  | Some v =>
      let v' := set_ref_count_ext (wrap32 (v_ref_count_ext v + 1)) v in
      mkWorld (upd_variables <[a := v']> (st w))
        (EvLog (LogIncRefExt a (v_ref_count_ext v')) :: events w)
  | None => w
  end.

(** What the last steps of every trace append (offer the node [v] to the
    CSE table, take an external reference, enter the id into the pending
    set of stream [k]) make of the world [w]. *)
Definition tail_post (cuda : bool) (k : StreamKey) (args : list N) (v : Var)
    (w : World) (idx : N) (w' : World) : Prop :=
  ∃ vo sm,
    ((variable_from_key (st w) !! mkVariableKey cuda v = None ∧
      variables (st w) !! idx = None ∧ idx = variable_index (st w) ∧ vo = v ∧
      variable_from_key (st w') =
        <[mkVariableKey cuda v := idx]> (variable_from_key (st w)))
     ∨
     (variable_from_key (st w) !! mkVariableKey cuda v = Some idx ∧
      variables (st w) !! idx = Some vo ∧
      variable_from_key (st w') = variable_from_key (st w))) ∧
    variables (st w') =
      <[idx := set_ref_count_ext (wrap32 (v_ref_count_ext vo + 1)) vo]>
        (variables (st w)) ∧
    streams (st w) !! k = Some sm ∧
    streams (st w') = <[k := upd_todo (λ t, {[idx]} ∪ t) sm]> (streams (st w)) ∧
    active_stream (st w') = active_stream (st w) ∧
    variable_from_ptr (st w') = variable_from_ptr (st w) ∧
    events w' =
      EvLog (LogIncRefExt idx (wrap32 (v_ref_count_ext vo + 1))) ::
      EvLog (LogTraceAppend idx args (v_stmt vo) (reused vo)) :: events w.

Section Calls.

Context (ENOKI_CUDA : bool) (strdup_null_ok : bool)
        (jit_eval_impl : State → Res State unit).

Definition run_append (c : append_call) : M N :=
  match c with
  | Append0 type stmt =>
      jit_trace_append_0 ENOKI_CUDA strdup_null_ok type stmt
  | Append1 type stmt a1 =>
      jit_trace_append_1 ENOKI_CUDA strdup_null_ok jit_eval_impl type stmt a1
  | Append2 type stmt a1 a2 =>
      jit_trace_append_2 ENOKI_CUDA strdup_null_ok jit_eval_impl type stmt a1 a2
  | Append3 type stmt a1 a2 a3 =>
      jit_trace_append_3 ENOKI_CUDA strdup_null_ok jit_eval_impl type stmt a1 a2 a3
  end.

(** The world a trace append works on: the one [jit_eval()] leaves when an
    operand is dirty, the world of the call otherwise. *)
Definition base_world (c : append_call) (w : World) : World :=
  if any_dirty c (st w) then
    match jit_eval jit_eval_impl w with
    | Ok _ wb => wb
    | _ => w
    end
  else w.

(** The variable a 3-operand scatter pins through [extra_dep], read from
    [state.scatter_gather_operand]. *)
Definition scatter_pin (c : append_call) (s : State) : option N :=
  match c with
  | Append3 _ (Some str) _ _ _ =>
      if ENOKI_CUDA &&
         (bool_decide (is_Some (strstr str "st.global")) ||
          bool_decide (is_Some (strstr str "atom.global.add")))
      then Some (scatter_gather_operand s) else None
  | _ => None
  end.

(** The world on which the node is offered to the CSE table: the base
    world after the internal references of the operands, and the external
    reference of a pinned scatter target, have been taken. *)
Definition prelude (c : append_call) (wb : World) : World :=
  let w1 := foldl (λ w a, bump_int a w) wb (operands c) in
  match scatter_pin c (st w1) with
  | Some p => if decide (p ≠ 0) then bump_ext p w1 else w1
  | None => w1
  end.

(** What a successful trace append [c] from the world [w] has done. *)
Definition append_post (c : append_call) (w : World) (idx : N) (w' : World) : Prop :=
  ∃ k v,
    active_stream (st w) = Some k ∧
    Forall (λ a, a ≠ 0 ∧ is_Some (variables (st w) !! a)) (operands c) ∧
    sizes_ok c (st w) ∧
    (any_dirty c (st w) = true → ∃ s, jit_eval_impl (st w) = Ok tt s) ∧
    node_ok c (st w) v ∧
    tail_post ENOKI_CUDA k (operands c) v (prelude c (base_world c w)) idx w'.

End Calls.

(** A variable that lost its last external reference while another node
    still depends on it: variable 1 below has counts 0 (external) and 1
    (internal). *)
Definition w_dependent : World :=
  world_after
    (jit_device_set (-1) 0 ;;;
     x <- jit_trace_append_0 false true EnokiType.Float32 mov_half ;;
     _ <- jit_trace_append_1 false true (jit_eval_model false)
            EnokiType.Float32 (Some "neg.$t0 $r0, $r1") x ;;
     jit_dec_ref_ext false x) w_init.

(** The reading of the specification (section 7, error kind 6): a
    reference-count underflow is a recoverable jit error. *)
Definition spec_underflow_recoverable : Prop :=
  ∀ cuda w index v,
    variables (st w) !! index = Some v →
    (v_ref_count_ext v = 0 → ∃ e w', jit_dec_ref_ext cuda index w = Raise e w') ∧
    (v_ref_count_int v = 0 → ∃ e w', jit_dec_ref_int cuda index w = Raise e w').

(** An event that is an entry of the log, not a call of the evaluator. *)
Definition is_log (e : Event) : Prop :=
  match e with
  | EvLog _ => True
  | _ => False
  end.

(** A scatter target: variable 1 is marked dirty. *)
Definition w_dirty : World :=
  world_after
    (jit_device_set (-1) 0 ;;;
     x <- jit_trace_append_0 false true EnokiType.Float32 mov_half ;;
     jit_var_mark_dirty x) w_init.

Definition neg_stmt : option string := Some "neg.$t0 $r0, $r1".

Definition w_dirty_read : World :=
  world_after (jit_trace_append_1 false true (jit_eval_model false)
                 EnokiType.Float32 neg_stmt 1) w_dirty.

(** The reading of the specification (section 4.2): a resize that is not
    the copy of a materialized scalar is rejected. *)
Definition spec_set_size_rejects : Prop :=
  ∀ cuda sn impl index size copy v w,
    variables (st w) !! index = Some v →
    v_size v ≠ size →
    ¬ (v_data v ≠ 0 ∧ v_size v = 1 ∧ copy = true) →
    ∃ e w', jit_var_set_size cuda sn impl index size copy w = Raise e w'.

(** The invariant of the pending set of the active stream: every id in
    it is a live variable with a nonzero external reference count. *)
Definition todo_ok (s : State) : Prop :=
  ∀ k sm i,
    active_stream s = Some k → streams s !! k = Some sm → i ∈ s_todo sm →
    ∃ v, variables s !! i = Some v ∧ 0 < v_ref_count_ext v.

(** What dropping references can do to the tables: the active stream
    stays, no variable and no pointer literal appears, pending sets only
    lose ids, and the streams that are not active are left alone. *)
Definition shrinks (w w' : World) : Prop :=
  active_stream (st w') = active_stream (st w) ∧
  (∀ i, variables (st w) !! i = None → variables (st w') !! i = None) ∧
  (∀ p, variable_from_ptr (st w) !! p = None →
        variable_from_ptr (st w') !! p = None) ∧
  (∀ k sm', streams (st w') !! k = Some sm' →
     ∃ sm, streams (st w) !! k = Some sm ∧ s_todo sm' ⊆ s_todo sm) ∧
  (∀ k, active_stream (st w) ≠ Some k →
        streams (st w') !! k = streams (st w) !! k).

Definition dec_post (w w' : World) : Prop :=
  shrinks w w' ∧ (todo_ok (st w) → todo_ok (st w')).

(** Every external reference count is below [b]. *)
Definition ext_lt (s : State) (b : N) : Prop :=
  ∀ i v, variables s !! i = Some v → v_ref_count_ext v < b.

(** Two more external references can be taken on any variable without a
    32-bit count wrapping around. *)
Definition no_wrap (s : State) : Prop := ext_lt s (UINT32_MAX - 1).

(** Every id in the pending set of any stream has a nonzero external
    reference count. *)
Definition pending_positive (s : State) : Prop :=
  map_Forall (λ _ sm, set_Forall (λ i, 0 < ext_of s i) (s_todo sm)) (streams s).

#[global] Instance pending_positive_dec s : Decision (pending_positive s).
Proof. unfold pending_positive. apply _. Defined.

(** The reading of the specification (section 3): dropping an external
    reference keeps that invariant for the pending sets of all streams. *)
Definition spec_pending_invariant : Prop :=
  ∀ cuda index w w',
    jit_dec_ref_ext cuda index w = Ok tt w' →
    pending_positive (st w) → pending_positive (st w').

(** Variable 1 is appended and used on stream 0 of the host; the thread
    then switches to stream 1. *)
Definition w_switched : World :=
  world_after
    (jit_device_set (-1) 0 ;;;
     x <- jit_trace_append_0 false true EnokiType.Float32 mov_half ;;
     _ <- jit_trace_append_1 false true (jit_eval_model false)
            EnokiType.Float32 neg_stmt x ;;
     jit_device_set (-1) 1) w_init.

Definition w_switched_dropped : World :=
  world_after (jit_dec_ref_ext false 1) w_switched.

(** The same without the switch. *)
Definition w_used : World :=
  world_after
    (jit_device_set (-1) 0 ;;;
     x <- jit_trace_append_0 false true EnokiType.Float32 mov_half ;;
     jit_trace_append_1 false true (jit_eval_model false)
       EnokiType.Float32 neg_stmt x) w_init.

Definition w_used_dropped : World :=
  world_after (jit_dec_ref_ext false 1) w_used.


(** The CSE table agrees with the variables on their size: an entry of
    the table leads to a variable that has the size of the key. *)
Definition cse_sizes_ok (s : State) : Prop :=
  ∀ key i v, variable_from_key s !! key = Some i → variables s !! i = Some v →
             v_size v = key.2.

(** A sum of two scalars whose size is then set to 10: variables 1 and 2
    are the operands, variable 3 the sum. *)
Definition add_stmt : option string := Some "add.$t0 $r0, $r1, $r2".

Definition resize_sum : M (N * N) :=
  jit_device_set (-1) 0 ;;;
  x <- jit_trace_append_0 false true EnokiType.Float32 (Some "mov.$t0 $r0, 1.0") ;;
  y <- jit_trace_append_0 false true EnokiType.Float32 (Some "mov.$t0 $r0, 2.0") ;;
  a <- jit_trace_append_2 false true (jit_eval_model false)
         EnokiType.Float32 add_stmt x y ;;
  a' <- jit_var_set_size false true (jit_eval_model false) a 10 false ;;
  ret (a, a').

Definition w_resized : World := world_after resize_sum w_init.

Definition w_resized_again : World :=
  world_after (jit_trace_append_2 false true (jit_eval_model false)
                 EnokiType.Float32 add_stmt 1 2) w_resized.

(** Two nodes that end up with one tuple. Variable 1 is a scalar with a
    dependent (variable 2); [set_size] with [copy] makes variable 3, a
    [mov] of variable 1, of size 5, and variable 4 negates it. A second
    [set_size] with [copy] finds the [mov] in the CSE table and sets its
    size to 10; variable 5 negates it. Last, variable 4, which nothing
    depends on, is resized to 10 in place. *)
Definition make_twins : M (N * N) :=
  jit_device_set (-1) 0 ;;;
  y <- jit_trace_append_0 false true EnokiType.Float32 mov_half ;;
  _ <- jit_trace_append_1 false true (jit_eval_model false)
         EnokiType.Float32 (Some "abs.$t0 $r0, $r1") y ;;
  jit_inc_ref_ext y ;;;
  x <- jit_var_set_size false true (jit_eval_model false) y 5 true ;;
  a <- jit_trace_append_1 false true (jit_eval_model false)
         EnokiType.Float32 neg_stmt x ;;
  x' <- jit_var_set_size false true (jit_eval_model false) y 10 true ;;
  b <- jit_trace_append_1 false true (jit_eval_model false)
         EnokiType.Float32 neg_stmt x' ;;
  _ <- jit_var_set_size false true (jit_eval_model false) a 10 false ;;
  ret (a, b).

Definition w_twins : World := world_after make_twins w_init.

(** A key that outlives its variable: variable 1 is resized in place and
    then released. *)
Definition resize_release : M unit :=
  jit_device_set (-1) 0 ;;;
  x <- jit_trace_append_0 false true EnokiType.Float32 mov_half ;;
  _ <- jit_var_set_size false true (jit_eval_model false) x 10 false ;;
  jit_dec_ref_ext false x.

Definition w_stale : World := world_after resize_release w_init.

(** ** Queries *)

(** Query the pointer variable associated with a given variable *)
Definition jit_var_ptr (index : N) : M N :=
  v <- jit_var index ;; ret (v_data v).

(** Query the size of a given variable *)
Definition jit_var_size (index : N) : M N :=
  v <- jit_var index ;; ret (v_size v).

(** Query the descriptive label associated with a given variable *)
Definition jit_var_label (index : N) : M (option string) :=
  v <- jit_var index ;; ret (v_label v).

(** The first operand, in the order of the arguments, that is not a live
    variable. *)
Definition first_unknown (s : State) (l : list N) : option N :=
  head (filter (λ a, variables s !! a = None) l).

(** Whether a call came to a result. *)
Definition is_ok {S A} (r : Res S A) : bool :=
  match r with
  | Ok _ _ => true
  | _ => false
  end.

(** The string functions of [jit_trace_append(Variable &)] are defined on
    the statement of [v]: [strdup] accepts it, and in a CUDA build a node
    that is not of type [Float32] has a statement without [.ftz]. *)
Definition stmt_defined (cuda sn : bool) (v : Var) : Prop :=
  match v_stmt v with
  | None => sn = true ∧ cuda && negb (v_type v =? EnokiType.Float32) = false
  | Some str =>
      cuda && negb (v_type v =? EnokiType.Float32) = true →
      strstr str ".ftz" = None
  end.

(** ** [jit_whos] *)

(** [size_t] arithmetic. *)
Definition wrap64 (x : N) : N := x mod 18446744073709551616.

(** A line of the table of [jit_whos]: the values that the format strings
    of the loop are applied to. *)
Record WhosRow : Type := mkWhosRow {
  row_index : N;
  row_type : string;
  row_ref_count_ext : N;
  row_ref_count_int : N;
  row_size : N;
  row_mem_size : N;
  row_ready : bool;
  row_label : string
}.

(** What [jit_whos] reports on the variables: the lines of the table, in
    the order they are written, and the three totals. The text itself is
    the rendering of these values by [buffer.fmt] and [jit_mem_string],
    followed by the statistics of the allocator; neither is among the
    sources, and the model returns the values. *)
Record Whos : Type := mkWhos {
  whos_rows : list WhosRow;
  mem_size_ready : N;
  mem_size_scheduled : N;
  mem_size_arith : N
}.

(** The body of the loop over the sorted ids. *)
Definition jit_whos_row (acc : Whos) (index : N) : M Whos :=
  v <- jit_var index ;;
  tsize <- jit_type_size (v_type v) ;;
  let mem_size := wrap64 (v_size v * tsize) in
  name <- jit_type_name (v_type v) ;;
  let rows :=
    whos_rows acc ++
    [mkWhosRow index name (v_ref_count_ext v) (v_ref_count_int v) (v_size v)
       mem_size (negb (v_data v =? 0)) (default "" (v_label v))] in
  if negb (v_data v =? 0) then
    ret (mkWhos rows (wrap64 (mem_size_ready acc + mem_size))
           (mem_size_scheduled acc) (mem_size_arith acc))
  else if v_ref_count_ext v =? 0 then
    ret (mkWhos rows (mem_size_ready acc) (mem_size_scheduled acc)
           (wrap64 (mem_size_arith acc + mem_size)))
  else
    ret (mkWhos rows (mem_size_ready acc)
           (wrap64 (mem_size_scheduled acc + mem_size)) (mem_size_arith acc)).

Fixpoint jit_whos_loop (indices : list N) (acc : Whos) : M Whos :=
  match indices with
  | [] => ret acc
  | index :: rest => acc' <- jit_whos_row acc index ;; jit_whos_loop rest acc'
  end.

Definition jit_whos : M Whos :=
  s <- get ;;
  let indices := merge_sort N.le (elements (dom (variables s))) in
  jit_whos_loop indices (mkWhos [] 0 0 0).

(** The sum of the three totals of a report, and the memory of a list of
    lines. *)
Definition whos_total (r : Whos) : N :=
  mem_size_ready r + mem_size_scheduled r + mem_size_arith r.

Definition rows_mem (l : list WhosRow) : N :=
  foldr (λ row acc, row_mem_size row + acc) 0 l.

(** ** Buffers that are released *)

(** The events of [jit_var_free] on a variable without operands: the line
    of the log and, for a buffer that the variable owns, its release. *)
Definition free_events (index : N) (v : Var) : list Event :=
  (if v_free_variable v && negb (v_data v =? 0)
   then [EvJitFree (v_data v)] else []) ++ [EvLog (LogVarFree index (v_data v))].

(** What the drops of references do to buffers between the worlds [w]
    and [w']: a variable that is still live has the buffer and the
    ownership flag it had, and every new call of [jit_free] releases the
    buffer of a variable of [w] that owned it and is no longer live. *)
Definition releases_owned (w w' : World) : Prop :=
  (∀ i v', variables (st w') !! i = Some v' →
     ∃ v, variables (st w) !! i = Some v ∧
          v_data v' = v_data v ∧ v_free_variable v' = v_free_variable v) ∧
  ∃ new, events w' = new ++ events w ∧
    ∀ p, EvJitFree p ∈ new →
      ∃ i v, variables (st w) !! i = Some v ∧ v_free_variable v = true ∧
             v_data v = p ∧ p ≠ 0 ∧ variables (st w') !! i = None.

(** ** Worlds of the examples *)

(** The host stream is selected and nothing is appended. *)
Definition w_streams : World := world_after (jit_device_set (-1) 0) w_init.

(** A buffer of 16 elements at address 4096 is registered, with
    ownership, on a thread without an active stream. *)
Definition w_reg : World :=
  world_after (jit_var_register false true EnokiType.Float32 4096 16 true) w_init.

(** The same with the host stream selected, and the variable dropped. *)
Definition w_buf : World :=
  world_after
    (jit_device_set (-1) 0 ;;;
     jit_var_register false true EnokiType.Float32 4096 16 true) w_init.

Definition w_buf_dropped : World := world_after (jit_dec_ref_ext false 1) w_buf.

(** Two registered buffers, of 2 and of 3 elements. *)
Definition w_shapes : World :=
  world_after
    (jit_device_set (-1) 0 ;;;
     _ <- jit_var_register false true EnokiType.Float32 4096 2 false ;;
     jit_var_register false true EnokiType.Float32 8192 3 false) w_init.

(** A registered buffer of 4 elements and a scalar. *)
Definition w_pair : World :=
  world_after
    (jit_device_set (-1) 0 ;;;
     _ <- jit_var_register false true EnokiType.Float32 4096 4 false ;;
     jit_trace_append_0 false true EnokiType.Float32 mov_half) w_init.

Definition w_pair_sum : World :=
  world_after (jit_trace_append_2 false true (jit_eval_model false)
                 EnokiType.Float32 add_stmt 1 2) w_pair.

(** Variable 1 of [w_one], resized to 10 elements. *)
Definition w_ten : World :=
  world_after (jit_var_set_size false true (jit_eval_model false) 1 10 false) w_one.

(** A variable of type [Float32] followed by one of type [Float16]. *)
Definition w_mixed : World :=
  world_after
    (jit_device_set (-1) 0 ;;;
     _ <- jit_trace_append_0 false false EnokiType.Float32 mov_half ;;
     jit_trace_append_0 false false EnokiType.Float16 mov_half) w_init.

(** The node of the statement [mov_half]. *)
Definition leaf_node : Var :=
  set_tsize 1 (set_stmt mov_half (set_size 1 (set_type EnokiType.Float32 Var_new))).

(** The node of the negation of variable 1, with one external reference. *)
Definition neg_node : Var :=
  set_ref_count_ext 1
    (set_tsize 2
       (set_dep (1, 0, 0)
          (set_stmt neg_stmt (set_size 1 (set_type EnokiType.Float32 Var_new))))).

(** [cse_sizes_ok] as a test on the entries of the CSE table. *)
Definition cse_sizes_checked (s : State) : Prop :=
  map_Forall
    (λ (key : VariableKey) i,
       Is_true (from_option (λ v, v_size v =? key.2) true (variables s !! i)))
    (variable_from_key s).

#[global] Instance cse_sizes_checked_dec s : Decision (cse_sizes_checked s).
Proof. unfold cse_sizes_checked. apply _. Defined.

(** ** The scatter pin and the count of the returned id *)

(** [state.scatter_gather_operand] is read by the 3-operand append and
    written by no function of [src/ssa.cpp]; the worlds below set it with
    this update. *)
Definition upd_scatter_gather_operand (x : N) (s : State) : State :=
  mkState (variables s) (variable_from_key s) (variable_from_ptr s)
    (variable_index s) x (streams s) (active_stream s) (has_cuda s) (devices s).

(** Whether [idx] is the variable that the call pins through [extra_dep]:
    the file is compiled with [ENOKI_CUDA], the call is a 3-operand
    scatter or atomic add, and [state.scatter_gather_operand] is the
    nonzero id [idx]. *)
Definition pinned (cuda : bool) (c : append_call) (s : State) (idx : N) : bool :=
  bool_decide (scatter_pin cuda c s = Some idx ∧ idx ≠ 0).

(** The reading of the claim: the count of the returned id is the count
    before the call plus one. *)
Definition spec_ext_ref_plus_one : Prop :=
  ∀ cuda sn impl c w idx w',
    run_append cuda sn impl c w = Ok idx w' →
    ext_of (st w') idx = ext_of (st w) idx + 1.

Definition one_stmt : option string := Some "mov.$t0 $r0, 1.0".
Definition fma_stmt : option string := Some "fma.rn.$t0 $r0, $r1, $r2, $r3".
Definition scatter_stmt : option string := Some "st.global.$t2 [$r1], $r2".
Definition abs_stmt : option string := Some "abs.$t0 $r0, $r1".

(** Two scalars, their sum (variable 3), the sum once more, and a fused
    multiply-add of the two (variable 4). *)
Definition w_two : World :=
  world_after
    (jit_device_set (-1) 0 ;;;
     _ <- jit_trace_append_0 false false EnokiType.Float32 mov_half ;;
     jit_trace_append_0 false false EnokiType.Float32 one_stmt) w_init.

Definition w_two_sum : World :=
  world_after (jit_trace_append_2 false false (jit_eval_model false)
                 EnokiType.Float32 add_stmt 1 2) w_two.

Definition w_two_sum_again : World :=
  world_after (jit_trace_append_2 false false (jit_eval_model false)
                 EnokiType.Float32 add_stmt 1 2) w_two_sum.

Definition w_two_fma : World :=
  world_after (jit_trace_append_3 false false (jit_eval_model false)
                 EnokiType.Float32 fma_stmt 1 2 2) w_two_sum_again.

(** The negation of the first of the two scalars. *)
Definition w_two_neg : World :=
  world_after (jit_trace_append_1 false false (jit_eval_model false)
                 EnokiType.Float32 neg_stmt 1) w_two.

(** A CUDA build: two scalars and a scatter (variable 3), after which
    [state.scatter_gather_operand] is variable 3; then the same scatter
    once more. *)
Definition w_scatter : World :=
  world_after
    (jit_device_set (-1) 0 ;;;
     x <- jit_trace_append_0 true false EnokiType.Float32 mov_half ;;
     y <- jit_trace_append_0 true false EnokiType.Float32 one_stmt ;;
     _ <- jit_trace_append_3 true false (jit_eval_model true)
            EnokiType.Float32 scatter_stmt x y y ;;
     modify (upd_scatter_gather_operand 3)) w_init.

Definition w_scatter_again : World :=
  world_after (jit_trace_append_3 true false (jit_eval_model true)
                 EnokiType.Float32 scatter_stmt 1 2 2) w_scatter.

(** Variable 1 of [w_one] with [UINT32_MAX] external references, and the
    statement of variable 1 appended once more. *)
Definition w_full : World :=
  mkWorld (upd_variables (alter (set_ref_count_ext UINT32_MAX) 1) (st w_one))
    (events w_one).

Definition w_full_again : World :=
  world_after (jit_trace_append_0 false true EnokiType.Float32 mov_half) w_full.

(** A count that the evaluation changes (CUDA build). On stream 0,
    variable 2 negates variable 1 and is pinned by the scatter 3. On
    stream 1, variable 4 reads the scatter, which then loses its external
    reference, and variable 1 is marked dirty. Negating variable 1 again
    evaluates variable 4, which frees the scatter and with it the
    reference it held on variable 2. *)
Definition w_pin_dirty : World :=
  world_after
    (jit_device_set (-1) 0 ;;;
     d <- jit_trace_append_0 true false EnokiType.Float32 mov_half ;;
     h <- jit_trace_append_1 true false (jit_eval_model true)
            EnokiType.Float32 neg_stmt d ;;
     modify (upd_scatter_gather_operand h) ;;;
     n <- jit_trace_append_3 true false (jit_eval_model true)
            EnokiType.Float32 scatter_stmt d d d ;;
     jit_device_set (-1) 1 ;;;
     _ <- jit_trace_append_1 true false (jit_eval_model true)
            EnokiType.Float32 abs_stmt n ;;
     jit_dec_ref_ext true n ;;;
     jit_var_mark_dirty d) w_init.

Definition w_pin_dirty_read : World :=
  world_after (jit_trace_append_1 true false (jit_eval_model true)
                 EnokiType.Float32 neg_stmt 1) w_pin_dirty.

(** ** Evaluations that do not return *)

(** What a call makes of an evaluation that does not return, when the
    evaluation is the first thing the call does to the world: the call
    ends the same way, and after a jit error of the evaluator the world is
    the one the evaluator left, with its call recorded. *)
Definition stopped_by_eval {A} (impl : State → Res State unit) (w : World)
    (r : Res World A) : Prop :=
  match impl (st w) with
  | Ok _ _ => True
  | Raise e s => r = Raise e (mkWorld s (EvEval :: events w))
  | Fail e => r = Fail e
  | Undefined => r = Undefined
  | Diverge => r = Diverge
  end.

(** An evaluator that raises the jit error [e] at once. *)
Definition eval_raises (e : Error) : State → Res State unit :=
  λ s, Raise e s.

(** Two scalars, the second of which is marked dirty; their sum and their
    fused multiply-add. *)
Definition w_dirty_pair : World :=
  world_after
    (jit_device_set (-1) 0 ;;;
     _ <- jit_trace_append_0 false false EnokiType.Float32 mov_half ;;
     y <- jit_trace_append_0 false false EnokiType.Float32 one_stmt ;;
     jit_var_mark_dirty y) w_init.

Definition w_dirty_sum : World :=
  world_after (jit_trace_append_2 false false (jit_eval_model false)
                 EnokiType.Float32 add_stmt 1 2) w_dirty_pair.

Definition w_dirty_fma : World :=
  world_after (jit_trace_append_3 false false (jit_eval_model false)
                 EnokiType.Float32 fma_stmt 1 2 2) w_dirty_pair.

(** ** The pending set of the active stream, as a test *)

(** [todo_ok] on a given state: the ids of the pending set of the active
    stream are looked up one by one. *)
Definition todo_checked (s : State) : bool :=
  match active_stream s with
  | Some k =>
      match streams s !! k with
      | Some sm => bool_decide (set_Forall (λ i, 0 < ext_of s i) (s_todo sm))
      | None => true
      end
  | None => true
  end.

(** [w_switched_dropped] after the thread went back to stream 0. *)
Definition w_back : World :=
  world_after (jit_device_set (-1) 0) w_switched_dropped.

(** ** Pointer literals: the worlds *)










(** * Properties *)

(** ** Reasoning about monadic code *)

(** [wp m Q w]: if [m] returns normally from [w], the result and the final
    world satisfy [Q]. *)
Definition wp {A} (m : M A) (Q : A → World → Prop) (w : World) : Prop :=
  match m w with
  | Ok a w' => Q a w'
  | _ => True
  end.

Lemma wp_elim {A} (m : M A) Q w a w' : wp m Q w → m w = Ok a w' → Q a w'.
Proof. unfold wp. intros H E. by rewrite E in H. Qed.

Lemma wp_intro {A} (m : M A) (Q : A → World → Prop) w :
  (∀ a w', m w = Ok a w' → Q a w') → wp m Q w.
Proof. unfold wp. intros H. destruct (m w); auto. Qed.

Lemma wp_bind {A B} (m : M A) (k : A → M B) Q w :
  wp m (λ a w', wp (k a) Q w') w → wp (bind m k) Q w.
Proof. unfold wp, bind. destruct (m w); auto. Qed.

Lemma wp_mono {A} (m : M A) (Q Q' : A → World → Prop) w :
  wp m Q w → (∀ a w', Q a w' → Q' a w') → wp m Q' w.
Proof. unfold wp. destruct (m w); auto. Qed.

Lemma wp_ret {A} (a : A) (Q : A → World → Prop) w : Q a w → wp (ret a) Q w.
Proof. done. Qed.

Lemma wp_raise {A} e (Q : A → World → Prop) w : wp (jit_raise e) Q w.
Proof. done. Qed.

Lemma wp_fail {A} e (Q : A → World → Prop) w : wp (jit_fail e) Q w.
Proof. done. Qed.

Lemma wp_undefined {A} (Q : A → World → Prop) w : wp undefined Q w.
Proof. done. Qed.

Lemma wp_diverge {A} (Q : A → World → Prop) w : wp diverge Q w.
Proof. done. Qed.

Lemma bind_Ok {A B} (m : M A) (k : A → M B) w b w' :
  bind m k w = Ok b w' ↔ ∃ a w1, m w = Ok a w1 ∧ k a w1 = Ok b w'.
Proof.
  unfold bind. split.
  - destruct (m w) as [a w1| | | |] eqn:E; try done. eauto.
  - intros (a & w1 & -> & H). done.
Qed.

Lemma bind_run {A B} (m : M A) (k : A → M B) w a w1 :
  m w = Ok a w1 → bind m k w = k a w1.
Proof. intros H. unfold bind. by rewrite H. Qed.

(** Closed equations between outcomes are decided by evaluation; the proof
    term keeps the two sides as they are written. *)
Ltac vm_refl :=
  lazymatch goal with
  | |- ?l = ?r => exact (@eq_refl _ r <: l = r)
  end.

(** A call that returns [a] ends in the world [world_after] describes, so
    an outcome on a concrete world is settled by its value alone. *)
Lemma run_ok {A} (m : M A) (w : World) (a : A) :
  res_value (m w) = Some a → m w = Ok a (world_after m w).
Proof. unfold res_value, world_after. destruct (m w); intros; congruence. Qed.

Ltac by_value :=
  lazymatch goal with
  | |- ?m ?w = Ok ?a _ => exact (run_ok m w a eq_refl)
  end.

(** Steps that cannot fail are evaluated in place. *)
Ltac wp_pure :=
  lazymatch goal with
  | |- wp (bind get ?k) ?Q ?w => change (wp (k (st w)) Q w); cbv beta
  | |- wp (bind (ret ?a) ?k) ?Q ?w => change (wp (k a) Q w); cbv beta
  | |- wp (bind (put ?s) ?k) ?Q ?w =>
      change (wp (k tt) Q (mkWorld s (events w))); cbv beta
  | |- wp (bind (modify ?f) ?k) ?Q ?w =>
      change (wp (k tt) Q (mkWorld (f (st w)) (events w))); cbv beta
  | |- wp (bind (jit_log ?l) ?k) ?Q ?w =>
      change (wp (k tt) Q (mkWorld (st w) (EvLog l :: events w))); cbv beta
  | |- wp (bind (emit ?e) ?k) ?Q ?w =>
      change (wp (k tt) Q (mkWorld (st w) (e :: events w))); cbv beta
  | |- wp (put ?s) ?Q ?w => change (Q tt (mkWorld s (events w)))
  | |- wp (modify ?f) ?Q ?w => change (Q tt (mkWorld (f (st w)) (events w)))
  | |- wp (jit_log ?l) ?Q ?w => change (Q tt (mkWorld (st w) (EvLog l :: events w)))
  | |- wp (emit ?e) ?Q ?w => change (Q tt (mkWorld (st w) (e :: events w)))
  | |- wp (ret ?a) ?Q ?w => change (Q a w)
  | |- wp (jit_raise _) _ _ => exact I
  | |- wp (jit_fail _) _ _ => exact I
  | |- wp undefined _ _ => exact I
  | |- wp diverge _ _ => exact I
  end.

(** ** The primitives *)

Lemma wp_jit_var index (Q : Var → World → Prop) w :
  (∀ v, variables (st w) !! index = Some v → Q v w) →
  wp (jit_var index) Q w.
Proof.
  intros H. unfold jit_var. wp_pure.
  destruct (variables (st w) !! index) eqn:E; wp_pure. by apply H.
Qed.

Lemma jit_var_live index v w :
  variables (st w) !! index = Some v → jit_var index w = Ok v w.
Proof. intros H. unfold jit_var, bind, get. simpl. by rewrite H. Qed.

Lemma jit_var_unknown index w :
  variables (st w) !! index = None →
  jit_var index w = Fail (ErrUnknownVariable index).
Proof. intros H. unfold jit_var, bind, get. simpl. by rewrite H. Qed.

Lemma wp_jit_inc_ref_ext_var index (Q : unit → World → Prop) w :
  (∀ v, variables (st w) !! index = Some v →
     let v' := set_ref_count_ext (wrap32 (v_ref_count_ext v + 1)) v in
     Q tt (mkWorld (upd_variables <[index := v']> (st w))
             (EvLog (LogIncRefExt index (v_ref_count_ext v')) :: events w))) →
  wp (jit_inc_ref_ext_var index) Q w.
Proof.
  intros H. unfold jit_inc_ref_ext_var. wp_pure.
  destruct (variables (st w) !! index) eqn:E; wp_pure.
  wp_pure. by apply H.
Qed.

Lemma wp_jit_inc_ref_int_var index (Q : unit → World → Prop) w :
  (∀ v, variables (st w) !! index = Some v →
     let v' := set_ref_count_int (wrap32 (v_ref_count_int v + 1)) v in
     Q tt (mkWorld (upd_variables <[index := v']> (st w))
             (EvLog (LogIncRefInt index (v_ref_count_int v')) :: events w))) →
  wp (jit_inc_ref_int_var index) Q w.
Proof.
  intros H. unfold jit_inc_ref_int_var. wp_pure.
  destruct (variables (st w) !! index) eqn:E; wp_pure.
  wp_pure. by apply H.
Qed.

Lemma wp_todo_insert k idx (Q : unit → World → Prop) w :
  (∀ sm, streams (st w) !! k = Some sm →
     Q tt (mkWorld (upd_streams <[k := upd_todo (λ t, {[idx]} ∪ t) sm]> (st w))
             (events w))) →
  wp (todo_insert k idx) Q w.
Proof.
  intros H. unfold todo_insert. wp_pure.
  destruct (streams (st w) !! k) eqn:E; wp_pure. by apply H.
Qed.

Lemma wp_jit_eval impl (Q : unit → World → Prop) w :
  (∀ s, impl (st w) = Ok tt s → Q tt (mkWorld s (EvEval :: events w))) →
  wp (jit_eval impl) Q w.
Proof.
  intros H. unfold wp, jit_eval.
  destruct (impl (st w)) as [[] s| | | |] eqn:E; auto.
Qed.

Lemma set_stmt_id v : set_stmt (v_stmt v) v = v.
Proof. by destruct v. Qed.

Lemma wp_jit_trace_append_var cuda sn v (Q : N * Var → World → Prop) w :
  (variable_from_key (st w) !! mkVariableKey cuda v = None →
   variables (st w) !! variable_index (st w) = None →
   Q (variable_index (st w), v)
     (mkWorld (fresh_state cuda v (st w)) (events w))) →
  (∀ idx vo,
     variable_from_key (st w) !! mkVariableKey cuda v = Some idx →
     variables (st w) !! idx = Some vo →
     Q (idx, vo) w) →
  wp (jit_trace_append_var cuda sn v) Q w.
Proof.
  intros Hfresh Hreuse.
  pose proof (set_stmt_id v) as Hv.
  unfold wp, jit_trace_append_var, strdup, jit_var, bind, ret, undefined,
    get, put, jit_fail.
  destruct (v_stmt v) as [str|] eqn:Es.
  - rewrite !Hv, ?Es.
    destruct (cuda && negb (v_type v =? EnokiType.Float32));
      [destruct (strstr str ".ftz"); [done|] |];
      (destruct (variable_from_key (st w) !! mkVariableKey cuda v) as [idx|] eqn:Ek;
       [ destruct (variables (st w) !! idx) as [vo|] eqn:Evo; [by apply Hreuse | done]
       | simpl; destruct (variables (st w) !! variable_index (st w)) eqn:Ev;
         [done | by apply Hfresh] ]).
  - destruct sn; [|done]. rewrite !Hv, ?Es.
    destruct (cuda && negb (v_type v =? EnokiType.Float32)); [done|].
    destruct (variable_from_key (st w) !! mkVariableKey cuda v) as [idx|] eqn:Ek;
      [ destruct (variables (st w) !! idx) as [vo|] eqn:Evo; [by apply Hreuse | done]
      | simpl; destruct (variables (st w) !! variable_index (st w)) eqn:Ev;
        [done | by apply Hfresh] ].
Qed.

Lemma wp_append_tail cuda sn k args v w :
  wp (r <- jit_trace_append_var cuda sn v ;;
      jit_log (LogTraceAppend r.1 args (v_stmt r.2) (reused r.2)) ;;;
      jit_inc_ref_ext_var r.1 ;;;
      todo_insert k r.1 ;;;
      ret r.1)
     (tail_post cuda k args v w) w.
Proof.
  apply wp_bind, wp_jit_trace_append_var.
  - intros Hk Hv. wp_pure. apply wp_bind, wp_jit_inc_ref_ext_var.
    intros v0 Hv0. simpl in Hv0. rewrite lookup_insert_eq in Hv0.
    injection Hv0 as <-. simpl.
    apply wp_bind, wp_todo_insert. intros sm Hsm. simpl in Hsm. wp_pure.
    exists v, sm. simpl. split_and!; try done.
    + left. split_and!; try done. by rewrite insert_insert_eq.
    + by rewrite insert_insert_eq.
  - intros idx vo Hk Hvo. wp_pure. apply wp_bind, wp_jit_inc_ref_ext_var.
    intros v0 Hv0. simpl in Hv0. rewrite Hvo in Hv0. injection Hv0 as <-. simpl.
    apply wp_bind, wp_todo_insert. intros sm Hsm. simpl in Hsm. wp_pure.
    exists vo, sm. simpl. split_and!; try done.
    right. done.
Qed.

(** ** The trace appends *)

Ltac exists_node k Ht :=
  match type of Ht with tail_post _ _ _ ?v _ _ _ => exists k, v end.

Section Appends.

Context (cuda sn : bool) (impl : State → Res State unit).

Lemma base_world_clean c w :
  any_dirty c (st w) = false → base_world impl c w = w.
Proof. unfold base_world. by intros ->. Qed.

Lemma base_world_dirty c w s :
  any_dirty c (st w) = true → impl (st w) = Ok tt s →
  base_world impl c w = mkWorld s (EvEval :: events w).
Proof. unfold base_world, jit_eval. by intros -> ->. Qed.

Lemma bump_int_live a v w :
  variables (st w) !! a = Some v →
  bump_int a w =
    mkWorld (upd_variables
               <[a := set_ref_count_int (wrap32 (v_ref_count_int v + 1)) v]> (st w))
      (EvLog (LogIncRefInt a (wrap32 (v_ref_count_int v + 1))) :: events w).
Proof. unfold bump_int. by intros ->. Qed.

Lemma bump_ext_live a v w :
  variables (st w) !! a = Some v →
  bump_ext a w =
    mkWorld (upd_variables
               <[a := set_ref_count_ext (wrap32 (v_ref_count_ext v + 1)) v]> (st w))
      (EvLog (LogIncRefExt a (wrap32 (v_ref_count_ext v + 1))) :: events w).
Proof. unfold bump_ext. by intros ->. Qed.

Lemma append_post_intro c w idx w' k v :
  tail_post cuda k (operands c) v (prelude cuda c (base_world impl c w)) idx w' →
  active_stream (st w) = Some k →
  Forall (λ a, a ≠ 0 ∧ is_Some (variables (st w) !! a)) (operands c) →
  sizes_ok c (st w) →
  (any_dirty c (st w) = true → ∃ s, impl (st w) = Ok tt s) →
  node_ok c (st w) v →
  append_post cuda impl c w idx w'.
Proof. intros. exists k, v. done. Qed.

Lemma append_0_spec type stmt w :
  wp (jit_trace_append_0 cuda sn type stmt)
     (append_post cuda impl (Append0 type stmt) w) w.
Proof.
  unfold jit_trace_append_0. wp_pure.
  destruct (active_stream (st w)) as [k|] eqn:Ek; [|wp_pure].
  eapply wp_mono; [apply wp_append_tail|].
  intros idx w' Ht. eapply (append_post_intro _ _ _ _ k); [exact Ht | done | | | done | ].
  - constructor.
  - constructor.
  - done.
Qed.

Lemma append_1_spec type stmt a1 w :
  wp (jit_trace_append_1 cuda sn impl type stmt a1)
     (append_post cuda impl (Append1 type stmt a1) w) w.
Proof.
  unfold jit_trace_append_1. wp_pure.
  destruct (active_stream (st w)) as [k|] eqn:Ek; [|wp_pure].
  destruct (decide (a1 = 0)) as [|Hne]; [wp_pure|].
  apply wp_bind, wp_jit_var. intros v1 Hv1. simpl.
  assert (Hd : any_dirty (Append1 type stmt a1) (st w) = v_dirty v1).
  { unfold any_dirty, is_dirty. simpl. rewrite Hv1. simpl. by rewrite orb_false_r. }
  assert (Hops : Forall (λ a, a ≠ 0 ∧ is_Some (variables (st w) !! a)) [a1])
    by (repeat constructor; eauto).
  assert (Hsz : sizes_ok (Append1 type stmt a1) (st w))
    by (repeat constructor; by right).
  destruct (v_dirty v1) eqn:Edirty.
  - apply wp_bind, wp_bind, wp_jit_eval. intros s Hs.
    apply wp_bind, wp_jit_var. intros v1' Hv1'. simpl in Hv1'. wp_pure.
    apply wp_bind, wp_jit_inc_ref_int_var. intros v1'' Hv1''. simpl in Hv1''.
    simpl. eapply wp_mono; [apply wp_append_tail|].
    intros idx w' Ht.
    eapply (append_post_intro _ _ _ _ k); [ | done | done | done | eauto | ].
    + unfold prelude. rewrite (base_world_dirty _ _ s); [|done..].
      simpl. erewrite bump_int_live; [|done]. exact Ht.
    + unfold node_ok. simpl. unfold size_of. by rewrite Hv1.
  - apply wp_bind. wp_pure.
    apply wp_bind, wp_jit_inc_ref_int_var. intros v1'' Hv1''.
    simpl. eapply wp_mono; [apply wp_append_tail|].
    intros idx w' Ht.
    eapply (append_post_intro _ _ _ _ k); [ | done | done | done | by rewrite Hd | ].
    + unfold prelude. rewrite base_world_clean; [|done].
      simpl. erewrite bump_int_live; [|done]. exact Ht.
    + unfold node_ok. simpl. unfold size_of. by rewrite Hv1.
Qed.

Lemma scalar_or_max (x m : N) : ¬ (x ≠ 1 ∧ x ≠ m) → x = 1 ∨ x = m.
Proof. intros H. destruct (decide (x = 1)); [by left|]. right. lia. Qed.

Lemma append_2_spec type stmt a1 a2 w :
  wp (jit_trace_append_2 cuda sn impl type stmt a1 a2)
     (append_post cuda impl (Append2 type stmt a1 a2) w) w.
Proof.
  unfold jit_trace_append_2. wp_pure.
  destruct (active_stream (st w)) as [k|] eqn:Ek; [|wp_pure].
  destruct (decide (a1 = 0 ∨ a2 = 0)) as [|Hne]; [wp_pure|].
  apply wp_bind, wp_jit_var. intros v1 Hv1.
  apply wp_bind, wp_jit_var. intros v2 Hv2. simpl.
  assert (Hd : any_dirty (Append2 type stmt a1 a2) (st w) = v_dirty v1 || v_dirty v2).
  { unfold any_dirty, is_dirty. simpl. rewrite Hv1, Hv2. simpl. by rewrite orb_false_r. }
  assert (Hops : Forall (λ a, a ≠ 0 ∧ is_Some (variables (st w) !! a)) [a1; a2])
    by (repeat constructor; eauto).
  destruct (decide _) as [|Hshape]; [apply wp_bind; wp_pure|].
  assert (Hsz : sizes_ok (Append2 type stmt a1 a2) (st w)).
  { unfold sizes_ok. simpl. rewrite !Forall_cons, Forall_nil.
    unfold size_of. rewrite Hv1, Hv2. simpl.
    split_and!; try done; apply scalar_or_max; tauto. }
  destruct (v_dirty v1 || v_dirty v2) eqn:Edirty.
  - apply wp_bind, wp_bind, wp_jit_eval. intros s Hs.
    apply wp_bind, wp_jit_var. intros v1' Hv1'.
    apply wp_bind, wp_jit_var. intros v2' Hv2'. wp_pure.
    apply wp_bind, wp_jit_inc_ref_int_var. intros v1'' Hv1''.
    apply wp_bind, wp_jit_inc_ref_int_var. intros v2'' Hv2''.
    simpl. eapply wp_mono; [apply wp_append_tail|].
    intros idx w' Ht.
    eapply (append_post_intro _ _ _ _ k); [ | done | done | done | eauto | ].
    + unfold prelude. rewrite (base_world_dirty _ _ s); [|done..].
      simpl. erewrite (bump_int_live a1); [|done].
      erewrite (bump_int_live a2); [|done]. exact Ht.
    + unfold node_ok. simpl. unfold size_of. by rewrite Hv1, Hv2.
  - apply wp_bind. wp_pure.
    apply wp_bind, wp_jit_inc_ref_int_var. intros v1'' Hv1''.
    apply wp_bind, wp_jit_inc_ref_int_var. intros v2'' Hv2''.
    simpl. eapply wp_mono; [apply wp_append_tail|].
    intros idx w' Ht.
    eapply (append_post_intro _ _ _ _ k); [ | done | done | done | by rewrite Hd | ].
    + unfold prelude. rewrite base_world_clean; [|done].
      simpl. erewrite (bump_int_live a1); [|done].
      erewrite (bump_int_live a2); [|done]. exact Ht.
    + unfold node_ok. simpl. unfold size_of. by rewrite Hv1, Hv2.
Qed.

Lemma set_extra_dep_id v : set_extra_dep (v_extra_dep v) v = v.
Proof. by destruct v. Qed.

Lemma wp_jit_inc_ref_ext index (Q : unit → World → Prop) w :
  Q tt (if decide (index ≠ 0) then bump_ext index w else w) →
  wp (jit_inc_ref_ext index) Q w.
Proof.
  intros H. unfold jit_inc_ref_ext. destruct (decide (index ≠ 0)); [|by wp_pure].
  apply wp_bind, wp_jit_var. intros v Hv.
  apply wp_jit_inc_ref_ext_var. intros v' Hv'. simpl.
  erewrite bump_ext_live in H; [|done]. exact H.
Qed.

(** The scatter pin of the 3-operand append. *)
Lemma wp_scatter_pin type stmt a1 a2 a3 v (Q : Var → World → Prop) w :
  (∀ p, Q (set_extra_dep p v)
          (match scatter_pin cuda (Append3 type stmt a1 a2 a3) (st w) with
           | Some p => if decide (p ≠ 0) then bump_ext p w else w
           | None => w
           end)) →
  wp (if cuda then
        sc <- is_scatter stmt ;;
        if (sc : bool) then
          s1 <- get ;;
          let v := set_extra_dep (scatter_gather_operand s1) v in
          jit_inc_ref_ext (v_extra_dep v) ;;;
          ret v
        else ret v
      else ret v) Q w.
Proof.
  intros H. unfold scatter_pin in H. destruct cuda; simpl in H.
  - destruct stmt as [str|]; [|exact I].
    unfold is_scatter. wp_pure.
    destruct (bool_decide _ || bool_decide _).
    + wp_pure. apply wp_bind, wp_jit_inc_ref_ext. wp_pure. apply H.
    + wp_pure. rewrite <- (set_extra_dep_id v). apply H.
  - wp_pure. rewrite <- (set_extra_dep_id v).
    destruct stmt; apply H.
Qed.

Lemma append_3_spec type stmt a1 a2 a3 w :
  wp (jit_trace_append_3 cuda sn impl type stmt a1 a2 a3)
     (append_post cuda impl (Append3 type stmt a1 a2 a3) w) w.
Proof.
  unfold jit_trace_append_3. wp_pure.
  destruct (active_stream (st w)) as [k|] eqn:Ek; [|wp_pure].
  destruct (decide (a1 = 0 ∨ a2 = 0 ∨ a3 = 0)) as [|Hne]; [wp_pure|].
  apply wp_bind, wp_jit_var. intros v1 Hv1.
  apply wp_bind, wp_jit_var. intros v2 Hv2.
  apply wp_bind, wp_jit_var. intros v3 Hv3. simpl.
  assert (Hd : any_dirty (Append3 type stmt a1 a2 a3) (st w)
               = v_dirty v1 || v_dirty v2 || v_dirty v3).
  { unfold any_dirty, is_dirty. simpl. rewrite Hv1, Hv2, Hv3. simpl.
    by rewrite orb_false_r, orb_assoc. }
  assert (Hops : Forall (λ a, a ≠ 0 ∧ is_Some (variables (st w) !! a)) [a1; a2; a3]).
  { rewrite !Forall_cons, Forall_nil. split_and!; eauto. }
  destruct (decide _) as [|Hshape]; [apply wp_bind; wp_pure|].
  assert (Hsz : sizes_ok (Append3 type stmt a1 a2 a3) (st w)).
  { unfold sizes_ok. simpl. rewrite !Forall_cons, Forall_nil.
    unfold size_of. rewrite Hv1, Hv2, Hv3. simpl.
    split_and!; try done; apply scalar_or_max; tauto. }
  destruct (v_dirty v1 || v_dirty v2 || v_dirty v3) eqn:Edirty.
  - apply wp_bind, wp_bind, wp_jit_eval. intros s Hs.
    apply wp_bind, wp_jit_var. intros v1' Hv1'.
    apply wp_bind, wp_jit_var. intros v2' Hv2'.
    apply wp_bind, wp_jit_var. intros v3' Hv3'. wp_pure.
    apply wp_bind, wp_jit_inc_ref_int_var. intros v1'' Hv1''.
    apply wp_bind, wp_jit_inc_ref_int_var. intros v2'' Hv2''.
    apply wp_bind, wp_jit_inc_ref_int_var. intros v3'' Hv3''.
    apply wp_bind, (wp_scatter_pin type stmt a1 a2 a3). intros p.
    eapply wp_mono; [apply wp_append_tail|].
    intros idx w' Ht.
    eapply (append_post_intro _ _ _ _ k); [ | done | done | done | eauto | ].
    + unfold prelude. rewrite (base_world_dirty _ _ s); [|done..].
      cbn [operands foldl]. erewrite (bump_int_live a1); [|done].
      erewrite (bump_int_live a2); [|done].
      erewrite (bump_int_live a3); [|done]. exact Ht.
    + unfold node_ok. simpl. unfold size_of. by rewrite Hv1, Hv2, Hv3.
  - apply wp_bind. wp_pure.
    apply wp_bind, wp_jit_inc_ref_int_var. intros v1'' Hv1''.
    apply wp_bind, wp_jit_inc_ref_int_var. intros v2'' Hv2''.
    apply wp_bind, wp_jit_inc_ref_int_var. intros v3'' Hv3''.
    apply wp_bind, (wp_scatter_pin type stmt a1 a2 a3). intros p.
    eapply wp_mono; [apply wp_append_tail|].
    intros idx w' Ht.
    eapply (append_post_intro _ _ _ _ k); [ | done | done | done | by rewrite Hd | ].
    + unfold prelude. rewrite base_world_clean; [|done].
      cbn [operands foldl]. erewrite (bump_int_live a1); [|done].
      erewrite (bump_int_live a2); [|done].
      erewrite (bump_int_live a3); [|done]. exact Ht.
    + unfold node_ok. simpl. unfold size_of. by rewrite Hv1, Hv2, Hv3.
Qed.

Lemma run_append_spec c w :
  wp (run_append cuda sn impl c) (append_post cuda impl c w) w.
Proof.
  destruct c; simpl.
  - apply append_0_spec.
  - apply append_1_spec.
  - apply append_2_spec.
  - apply append_3_spec.
Qed.

Lemma wp_const {A} (m : M A) (P : Prop) w : P → wp m (λ _ _, P) w.
Proof. intros H. unfold wp. by destruct (m w). Qed.

(** A scatter pin that is taken is taken on a live variable:
    [jit_inc_ref_ext] looks the id up with [jit_var]. *)
Lemma wp_scatter_pin_live type stmt a1 a2 a3 v (P : Prop) w :
  ((∀ p, scatter_pin cuda (Append3 type stmt a1 a2 a3) (st w) = Some p → p ≠ 0 →
         is_Some (variables (st w) !! p)) → P) →
  wp (if cuda then
        sc <- is_scatter stmt ;;
        if (sc : bool) then
          s1 <- get ;;
          let v := set_extra_dep (scatter_gather_operand s1) v in
          jit_inc_ref_ext (v_extra_dep v) ;;;
          ret v
        else ret v
      else ret v) (λ _ _, P) w.
Proof.
  intros H. unfold scatter_pin in H. destruct cuda; simpl in H.
  - destruct stmt as [str|]; [|exact I].
    unfold is_scatter. wp_pure.
    destruct (bool_decide _ || bool_decide _).
    + wp_pure. simpl. unfold jit_inc_ref_ext.
      destruct (decide (scatter_gather_operand (st w) ≠ 0)) as [Hp|Hp].
      * apply wp_bind, wp_bind, wp_jit_var. intros v0 Hv0.
        assert (HP : P) by (apply H; intros p [= <-] _; eauto).
        eapply wp_mono; [exact (wp_const _ P _ HP)|].
        intros _ w1 _. by apply wp_const.
      * apply wp_const, H. intros p [= <-] Hp'. done.
    + apply wp_const, H. intros p [=].
  - apply wp_const, H. destruct stmt; intros p [=].
Qed.

Lemma wp_scatter_pin_then {B} type stmt a1 a2 a3 v (rest : Var → M B)
    (P : Prop) w :
  ((∀ p, scatter_pin cuda (Append3 type stmt a1 a2 a3) (st w) = Some p → p ≠ 0 →
         is_Some (variables (st w) !! p)) → P) →
  wp (v' <- (if cuda then
               sc <- is_scatter stmt ;;
               if (sc : bool) then
                 s1 <- get ;;
                 let v := set_extra_dep (scatter_gather_operand s1) v in
                 jit_inc_ref_ext (v_extra_dep v) ;;;
                 ret v
               else ret v
             else ret v) ;;
      rest v') (λ _ _, P) w.
Proof.
  intros H. apply wp_bind.
  eapply wp_mono; [exact (wp_scatter_pin_live type stmt a1 a2 a3 v P w H)|].
  intros a w1 HP. by apply wp_const.
Qed.

Lemma append_3_pin_live type stmt a1 a2 a3 w :
  wp (jit_trace_append_3 cuda sn impl type stmt a1 a2 a3)
     (λ _ _, ∀ p,
        scatter_pin cuda (Append3 type stmt a1 a2 a3)
          (st (base_world impl (Append3 type stmt a1 a2 a3) w)) = Some p →
        p ≠ 0 →
        is_Some (variables
                   (st (foldl (λ w a, bump_int a w)
                          (base_world impl (Append3 type stmt a1 a2 a3) w)
                          [a1; a2; a3])) !! p)) w.
Proof.
  unfold jit_trace_append_3. wp_pure.
  destruct (active_stream (st w)) as [k|] eqn:Ek; [|wp_pure].
  destruct (decide (a1 = 0 ∨ a2 = 0 ∨ a3 = 0)) as [|Hne]; [wp_pure|].
  apply wp_bind, wp_jit_var. intros v1 Hv1.
  apply wp_bind, wp_jit_var. intros v2 Hv2.
  apply wp_bind, wp_jit_var. intros v3 Hv3. simpl.
  assert (Hd : any_dirty (Append3 type stmt a1 a2 a3) (st w)
               = v_dirty v1 || v_dirty v2 || v_dirty v3).
  { unfold any_dirty, is_dirty. simpl. rewrite Hv1, Hv2, Hv3. simpl.
    by rewrite orb_false_r, orb_assoc. }
  destruct (decide _) as [|Hshape]; [apply wp_bind; wp_pure|].
  destruct (v_dirty v1 || v_dirty v2 || v_dirty v3) eqn:Edirty.
  - apply wp_bind, wp_bind, wp_jit_eval. intros s Hs.
    apply wp_bind, wp_jit_var. intros v1' Hv1'.
    apply wp_bind, wp_jit_var. intros v2' Hv2'.
    apply wp_bind, wp_jit_var. intros v3' Hv3'. wp_pure.
    apply wp_bind, wp_jit_inc_ref_int_var. intros v1'' Hv1''.
    apply wp_bind, wp_jit_inc_ref_int_var. intros v2'' Hv2''.
    apply wp_bind, wp_jit_inc_ref_int_var. intros v3'' Hv3''.
    apply (wp_scatter_pin_then type stmt a1 a2 a3).
    rewrite (base_world_dirty _ _ s); [|done..].
    cbn [foldl]. erewrite (bump_int_live a1); [|done].
    erewrite (bump_int_live a2); [|done].
    erewrite (bump_int_live a3); [|done]. done.
  - apply wp_bind. wp_pure.
    apply wp_bind, wp_jit_inc_ref_int_var. intros v1'' Hv1''.
    apply wp_bind, wp_jit_inc_ref_int_var. intros v2'' Hv2''.
    apply wp_bind, wp_jit_inc_ref_int_var. intros v3'' Hv3''.
    apply (wp_scatter_pin_then type stmt a1 a2 a3).
    rewrite base_world_clean; [|done].
    cbn [foldl]. erewrite (bump_int_live a1); [|done].
    erewrite (bump_int_live a2); [|done].
    erewrite (bump_int_live a3); [|done]. done.
Qed.

Lemma pin_live c w idx w' p :
  run_append cuda sn impl c w = Ok idx w' →
  scatter_pin cuda c (st (base_world impl c w)) = Some p → p ≠ 0 →
  is_Some (variables
             (st (foldl (λ w a, bump_int a w) (base_world impl c w) (operands c)))
           !! p).
Proof.
  intros Hrun Hpin Hp. destruct c as [t s|t s a1|t s a1 a2|t s a1 a2 a3];
    try (simpl in Hpin; destruct s; discriminate).
  exact (wp_elim _ _ _ _ _ (append_3_pin_live t s a1 a2 a3 w) Hrun p Hpin Hp).
Qed.

End Appends.

(** ** Reference counts and pending set after a trace append *)

Lemma ext_of_bump_int a w i : ext_of (st (bump_int a w)) i = ext_of (st w) i.
Proof.
  unfold bump_int. destruct (variables (st w) !! a) as [v|] eqn:E; [|done].
  unfold ext_of. simpl. destruct (decide (a = i)) as [->|Hne].
  - by rewrite lookup_insert_eq, E.
  - by rewrite lookup_insert_ne.
Qed.

Lemma ext_of_bump_ext_ne a w i :
  a ≠ i → ext_of (st (bump_ext a w)) i = ext_of (st w) i.
Proof.
  intros Hne. unfold bump_ext. destruct (variables (st w) !! a) as [v|] eqn:E; [|done].
  unfold ext_of. simpl. by rewrite lookup_insert_ne.
Qed.

Lemma scatter_pin_bump_int cuda c a w :
  scatter_pin cuda c (st (bump_int a w)) = scatter_pin cuda c (st w).
Proof. unfold bump_int. by destruct (variables (st w) !! a). Qed.

Lemma scatter_pin_foldl cuda c l w :
  scatter_pin cuda c (st (foldl (λ w a, bump_int a w) w l)) = scatter_pin cuda c (st w).
Proof.
  revert w. induction l as [|a l IH]; intros w; [done|].
  simpl. by rewrite IH, scatter_pin_bump_int.
Qed.

Lemma ext_of_foldl l w i :
  ext_of (st (foldl (λ w a, bump_int a w) w l)) i = ext_of (st w) i.
Proof.
  revert w. induction l as [|a l IH]; intros w; [done|].
  simpl. by rewrite IH, ext_of_bump_int.
Qed.

Lemma ext_of_bump_ext_eq a w :
  is_Some (variables (st w) !! a) →
  ext_of (st (bump_ext a w)) a = wrap32 (ext_of (st w) a + 1).
Proof.
  intros [v Hv]. unfold bump_ext, ext_of. rewrite Hv. simpl.
  by rewrite lookup_insert_eq.
Qed.

Lemma live_foldl l w i :
  is_Some (variables (st (foldl (λ w a, bump_int a w) w l)) !! i) ↔
  is_Some (variables (st w) !! i).
Proof.
  revert w. induction l as [|a l IH]; intros w; [done|].
  simpl. rewrite IH. unfold bump_int.
  destruct (variables (st w) !! a) as [v|] eqn:E; [|done].
  simpl. destruct (decide (a = i)) as [->|Hne].
  - rewrite lookup_insert_eq, E. split; eauto.
  - by rewrite lookup_insert_ne.
Qed.

Lemma ext_of_prelude_unpinned cuda c wb i :
  pinned cuda c (st wb) i = false →
  ext_of (st (prelude cuda c wb)) i = ext_of (st wb) i.
Proof.
  intros Hpin. apply bool_decide_eq_false_1 in Hpin.
  unfold prelude. rewrite scatter_pin_foldl.
  destruct (scatter_pin cuda c (st wb)) as [p|]; [|apply ext_of_foldl].
  destruct (decide (p ≠ 0)) as [Hp|]; [|apply ext_of_foldl].
  rewrite ext_of_bump_ext_ne; [apply ext_of_foldl|].
  intros ->. by apply Hpin.
Qed.

Lemma ext_of_prelude_pinned cuda c wb i :
  pinned cuda c (st wb) i = true →
  is_Some (variables
             (st (foldl (λ w a, bump_int a w) wb (operands c))) !! i) →
  ext_of (st (prelude cuda c wb)) i = wrap32 (ext_of (st wb) i + 1).
Proof.
  intros Hpin Hlive. apply bool_decide_eq_true_1 in Hpin as [Hpin Hi].
  unfold prelude. rewrite scatter_pin_foldl, Hpin.
  destruct (decide (i ≠ 0)); [|done].
  by rewrite ext_of_bump_ext_eq, ext_of_foldl.
Qed.

Lemma wrap32_succ_twice x : wrap32 (wrap32 (x + 1) + 1) = wrap32 (x + 2).
Proof.
  unfold wrap32. rewrite N.Div0.add_mod_idemp_l. f_equal. lia.
Qed.

Lemma tail_post_ext cuda k args v w idx w' :
  v_ref_count_ext v = 0 →
  tail_post cuda k args v w idx w' →
  in_todo (st w') k idx ∧
  is_Some (variables (st w') !! idx) ∧
  ext_of (st w') idx = wrap32 (ext_of (st w) idx + 1).
Proof.
  intros Hv (vo & sm & Hcase & Hvars & Hsm & Hstreams & _).
  split_and!.
  - exists (upd_todo (λ t, {[idx]} ∪ t) sm). rewrite Hstreams, lookup_insert_eq.
    split; [done|]. simpl. apply elem_of_union. left. by apply elem_of_singleton.
  - rewrite Hvars, lookup_insert_eq. eauto.
  - unfold ext_of. rewrite Hvars, lookup_insert_eq. simpl.
    destruct Hcase as [(_ & Hn & _ & E & _)|(_ & Hl & _)].
    + subst vo. by rewrite Hn, Hv.
    + by rewrite Hl.
Qed.

(** C1. A successful trace append with 0 to 3 operands returns a live id
    that is in the pending set of the stream that was active at the call.
    The append works on the state of the call when no operand is dirty,
    and on the state the forced evaluation leaves otherwise. The external
    reference count of the returned id is the count in that state plus
    one, as a 32-bit count; the one exception is the id that the call
    itself pins ([pinned]: a CUDA build, a 3-operand scatter or atomic add,
    and [state.scatter_gather_operand] is the returned id), whose count
    rises by two. An id that is not pinned has the count 1 when the node
    is fresh, and the old count plus one when the node is reused and the
    old count is below [UINT32_MAX]. Nothing is pinned in a build without
    CUDA or by a call with fewer than three operands. *)
Theorem trace_append_ext_ref cuda sn impl c w idx w' :
  run_append cuda sn impl c w = Ok idx w' →
  (∃ k, active_stream (st w) = Some k ∧ in_todo (st w') k idx) ∧
  is_Some (variables (st w') !! idx) ∧
  (any_dirty c (st w) = false → base_world impl c w = w) ∧
  (any_dirty c (st w) = true →
   ∃ s, impl (st w) = Ok tt s ∧
        base_world impl c w = mkWorld s (EvEval :: events w)) ∧
  ext_of (st w') idx =
    wrap32 (ext_of (st (base_world impl c w)) idx +
            (if pinned cuda c (st (base_world impl c w)) idx then 2 else 1)) ∧
  (pinned cuda c (st (base_world impl c w)) idx = false →
   variables (st (base_world impl c w)) !! idx = None → ext_of (st w') idx = 1) ∧
  (pinned cuda c (st (base_world impl c w)) idx = false →
   ext_of (st (base_world impl c w)) idx < UINT32_MAX →
   ext_of (st w') idx = ext_of (st (base_world impl c w)) idx + 1) ∧
  (cuda = false ∨ (length (operands c) < 3)%nat →
   pinned cuda c (st (base_world impl c w)) idx = false).
Proof.
  intros Hrun.
  pose proof (wp_elim _ _ _ _ _ (run_append_spec cuda sn impl c w) Hrun)
    as (k & v & Hk & _ & _ & Hev & Hnode & Htail).
  destruct Hnode as (_ & _ & _ & _ & _ & Hext & _).
  destruct (tail_post_ext _ _ _ _ _ _ _ Hext Htail) as (Htodo & Hlive & He).
  assert (Heq : ext_of (st w') idx =
    wrap32 (ext_of (st (base_world impl c w)) idx +
            (if pinned cuda c (st (base_world impl c w)) idx then 2 else 1))).
  { rewrite He.
    destruct (pinned cuda c (st (base_world impl c w)) idx) eqn:Hpin.
    - rewrite ext_of_prelude_pinned; [apply wrap32_succ_twice | done |].
      apply bool_decide_eq_true_1 in Hpin as [Hpin Hi].
      by apply (pin_live cuda sn impl c w idx w' idx).
    - by rewrite ext_of_prelude_unpinned. }
  split_and!; [eauto | done | apply base_world_clean | | done | | |].
  - intros Hd. destruct (Hev Hd) as [s Hs]. exists s. split; [done|].
    by apply base_world_dirty.
  - intros Hpin Hnone. rewrite Heq, Hpin. unfold ext_of. by rewrite Hnone.
  - intros Hpin Hlt. rewrite Heq, Hpin. unfold wrap32, UINT32_MAX in *.
    apply N.mod_small. lia.
  - intros Hc. apply bool_decide_eq_false_2. intros [Hpin _].
    destruct Hc as [->|Hlen].
    + destruct c as [| | |t [str|]]; discriminate.
    + destruct c as [| | |t [str|]]; try discriminate; simpl in Hlen; lia.
Qed.

Lemma trace_append_ext_ref_witness :
  (ext_of (st w_one) 1 = 1 ∧ ext_of (st w_one_again) 1 = 2 ∧
   in_todo (st w_one_again) (stream_key (-1) 0) 1) ∧
  (ext_of (st w_dirty_read) 2 = 1 ∧
   in_todo (st w_dirty_read) (stream_key (-1) 0) 2) ∧
  (ext_of (st w_two_sum) 3 = 1 ∧ ext_of (st w_two_sum_again) 3 = 2 ∧
   in_todo (st w_two_sum) (stream_key (-1) 0) 3) ∧
  (ext_of (st w_two_fma) 4 = 1 ∧
   in_todo (st w_two_fma) (stream_key (-1) 0) 4) ∧
  (ext_of (st w_scatter) 3 = 1 ∧ ext_of (st w_scatter_again) 3 = 3 ∧
   in_todo (st w_scatter_again) (stream_key (-1) 0) 3) ∧
  (ext_of (st w_full) 1 = UINT32_MAX ∧ ext_of (st w_full_again) 1 = 0).
Proof.
  assert (H0 : run_append false true (jit_eval_model false)
                 (Append0 EnokiType.Float32 mov_half) w_one = Ok 1 w_one_again)
    by by_value.
  assert (H1 : run_append false true (jit_eval_model false)
                 (Append1 EnokiType.Float32 neg_stmt 1) w_dirty = Ok 2 w_dirty_read)
    by by_value.
  assert (H2 : run_append false false (jit_eval_model false)
                 (Append2 EnokiType.Float32 add_stmt 1 2) w_two = Ok 3 w_two_sum)
    by by_value.
  assert (H2' : run_append false false (jit_eval_model false)
                  (Append2 EnokiType.Float32 add_stmt 1 2) w_two_sum
                = Ok 3 w_two_sum_again)
    by by_value.
  assert (H3 : run_append false false (jit_eval_model false)
                 (Append3 EnokiType.Float32 fma_stmt 1 2 2) w_two_sum_again
               = Ok 4 w_two_fma)
    by by_value.
  assert (H3' : run_append true false (jit_eval_model true)
                  (Append3 EnokiType.Float32 scatter_stmt 1 2 2) w_scatter
                = Ok 3 w_scatter_again)
    by by_value.
  assert (Hw : run_append false true (jit_eval_model false)
                 (Append0 EnokiType.Float32 mov_half) w_full = Ok 1 w_full_again)
    by by_value.
  assert (Ha0 : active_stream (st w_one) = Some (stream_key (-1) 0))
    by (vm_compute; reflexivity).
  assert (Ha1 : active_stream (st w_dirty) = Some (stream_key (-1) 0))
    by (vm_compute; reflexivity).
  assert (Ha2 : active_stream (st w_two) = Some (stream_key (-1) 0))
    by (vm_compute; reflexivity).
  assert (Ha3 : active_stream (st w_two_sum_again) = Some (stream_key (-1) 0))
    by (vm_compute; reflexivity).
  assert (Ha3' : active_stream (st w_scatter) = Some (stream_key (-1) 0))
    by (vm_compute; reflexivity).
  destruct (trace_append_ext_ref _ _ _ _ _ _ _ H0)
    as ((k0 & Hk0 & Ht0) & _ & _ & _ & He0 & _).
  destruct (trace_append_ext_ref _ _ _ _ _ _ _ H1)
    as ((k1 & Hk1 & Ht1) & _ & _ & _ & He1 & _).
  destruct (trace_append_ext_ref _ _ _ _ _ _ _ H2)
    as ((k2 & Hk2 & Ht2) & _ & _ & _ & He2 & _).
  destruct (trace_append_ext_ref _ _ _ _ _ _ _ H2')
    as (_ & _ & _ & _ & He2' & _).
  destruct (trace_append_ext_ref _ _ _ _ _ _ _ H3)
    as ((k3 & Hk3 & Ht3) & _ & _ & _ & He3 & _).
  destruct (trace_append_ext_ref _ _ _ _ _ _ _ H3')
    as ((k3' & Hk3' & Ht3') & _ & _ & _ & He3' & _).
  destruct (trace_append_ext_ref _ _ _ _ _ _ _ Hw)
    as (_ & _ & _ & _ & Hew & _).
  rewrite Ha0 in Hk0. injection Hk0 as <-.
  rewrite Ha1 in Hk1. injection Hk1 as <-.
  rewrite Ha2 in Hk2. injection Hk2 as <-.
  rewrite Ha3 in Hk3. injection Hk3 as <-.
  rewrite Ha3' in Hk3'. injection Hk3' as <-.
  split_and!.
  - vm_compute; reflexivity.
  - rewrite He0. vm_compute; reflexivity.
  - exact Ht0.
  - rewrite He1. vm_compute; reflexivity.
  - exact Ht1.
  - rewrite He2. vm_compute; reflexivity.
  - rewrite He2'. vm_compute; reflexivity.
  - exact Ht2.
  - rewrite He3. vm_compute; reflexivity.
  - exact Ht3.
  - vm_compute; reflexivity.
  - rewrite He3'. vm_compute; reflexivity.
  - exact Ht3'.
  - vm_compute; reflexivity.
  - rewrite Hew. vm_compute; reflexivity.
Defined.

(** The count of the returned id is not always the count before the call
    plus one. The scatter that is its own pin goes from 1 to 3; a count of
    [UINT32_MAX] goes to 0; and variable 2 of [w_pin_dirty] stays at 2,
    because the evaluation that the dirty operand forces releases the
    reference of the scatter before the append takes its own. *)
Lemma append_ext_ref_not_plus_one :
  (run_append true false (jit_eval_model true)
     (Append3 EnokiType.Float32 scatter_stmt 1 2 2) w_scatter
   = Ok 3 w_scatter_again ∧
   ext_of (st w_scatter) 3 = 1 ∧ ext_of (st w_scatter_again) 3 = 3) ∧
  (run_append false true (jit_eval_model false)
     (Append0 EnokiType.Float32 mov_half) w_full = Ok 1 w_full_again ∧
   ext_of (st w_full) 1 = UINT32_MAX ∧ ext_of (st w_full_again) 1 = 0) ∧
  (run_append true false (jit_eval_model true)
     (Append1 EnokiType.Float32 neg_stmt 1) w_pin_dirty
   = Ok 2 w_pin_dirty_read ∧
   ext_of (st w_pin_dirty) 2 = 2 ∧ ext_of (st w_pin_dirty_read) 2 = 2) ∧
  ¬ spec_ext_ref_plus_one.
Proof.
  assert (Hrun : run_append true false (jit_eval_model true)
                   (Append3 EnokiType.Float32 scatter_stmt 1 2 2) w_scatter
                 = Ok 3 w_scatter_again) by by_value.
  assert (Hb : ext_of (st w_scatter) 3 = 1) by (vm_compute; reflexivity).
  assert (Ha : ext_of (st w_scatter_again) 3 = 3) by (vm_compute; reflexivity).
  split; [exact (conj Hrun (conj Hb Ha))|].
  split; [split; [by_value | split; vm_compute; reflexivity]|].
  split; [split; [by_value | split; vm_compute; reflexivity]|].
  intros H. specialize (H _ _ _ _ _ _ _ Hrun). rewrite Ha, Hb in H. discriminate.
Qed.

(** ** Sizes and names of the variable types *)

(** C10. [jit_type_size] is 1 for Int8, UInt8 and Bool, 2 for Int16 and
    UInt16, 4 for Int32, UInt32 and Float32, 8 for Int64, UInt64, Pointer
    and Float64; for Float16, which [jit_type_name] knows as "f16", it
    takes the [default] branch and terminates the process. *)
Theorem jit_type_size_table w :
  jit_type_size EnokiType.Int8 w = Ok 1 w ∧
  jit_type_size EnokiType.UInt8 w = Ok 1 w ∧
  jit_type_size EnokiType.Bool w = Ok 1 w ∧
  jit_type_size EnokiType.Int16 w = Ok 2 w ∧
  jit_type_size EnokiType.UInt16 w = Ok 2 w ∧
  jit_type_size EnokiType.Int32 w = Ok 4 w ∧
  jit_type_size EnokiType.UInt32 w = Ok 4 w ∧
  jit_type_size EnokiType.Float32 w = Ok 4 w ∧
  jit_type_size EnokiType.Int64 w = Ok 8 w ∧
  jit_type_size EnokiType.UInt64 w = Ok 8 w ∧
  jit_type_size EnokiType.Pointer w = Ok 8 w ∧
  jit_type_size EnokiType.Float64 w = Ok 8 w ∧
  jit_type_name EnokiType.Float16 w = Ok "f16" w ∧
  jit_type_size EnokiType.Float16 w = Fail ErrInvalidType.
Proof. repeat split. Qed.

(** ** Dropping references *)

(** C9. [jit_dec_ref_ext] and [jit_dec_ref_int] return at once, leaving
    the world (state and log) as it is, when the index is 0 or the
    variable table is empty, whatever the index: neither the
    unknown-variable nor the underflow error is reached. *)
Theorem dec_ref_silent cuda index w :
  index = 0 ∨ variables (st w) = ∅ →
  jit_dec_ref_ext cuda index w = Ok tt w ∧
  jit_dec_ref_int cuda index w = Ok tt w.
Proof.
  intros H. unfold jit_dec_ref_ext, jit_dec_ref_int, dec_ref_fuel. simpl.
  unfold bind, get. simpl.
  destruct (decide (index = 0 ∨ variables (st w) = ∅)); done.
Qed.

Lemma dec_ref_silent_witness :
  jit_dec_ref_ext false 5 w_init = Ok tt w_init ∧
  jit_dec_ref_int false 5 w_init = Ok tt w_init.
Proof. apply (dec_ref_silent false 5 w_init). right. reflexivity. Defined.

(** C5, as the code has it. Dropping an external (internal) reference of
    a live variable whose external (internal) count is zero ends in
    [jit_fail]: the process is terminated, no jit error reaches the
    caller. *)
Theorem dec_ref_underflow_fatal cuda index v w :
  variables (st w) !! index = Some v →
  index ≠ 0 →
  (v_ref_count_ext v = 0 →
   jit_dec_ref_ext cuda index w = Fail (ErrNoExternalReferences index)) ∧
  (v_ref_count_int v = 0 →
   jit_dec_ref_int cuda index w = Fail (ErrNoInternalReferences index)).
Proof.
  intros Hv Hne.
  assert (Hnonempty : ¬ (index = 0 ∨ variables (st w) = ∅)).
  { intros [?|He]; [done|]. rewrite He in Hv. by rewrite lookup_empty in Hv. }
  split; intros Hz;
    unfold jit_dec_ref_ext, jit_dec_ref_int, dec_ref_fuel; simpl;
    unfold bind, get; simpl;
    (destruct (decide (index = 0 ∨ variables (st w) = ∅)); [done|]);
    rewrite (jit_var_live _ _ _ Hv);
    (destruct (decide _); done).
Qed.

Lemma dec_ref_underflow_fatal_witness :
  jit_dec_ref_ext false 1 w_dependent = Fail (ErrNoExternalReferences 1).
Proof.
  refine (proj1 (dec_ref_underflow_fatal false 1 _ w_dependent _ _) _).
  - vm_compute. reflexivity.
  - discriminate.
  - vm_compute. reflexivity.
Defined.

(** C5 as stated fails: on [w_dependent], variable 1 has no external
    reference, and dropping one terminates the process instead of raising
    a jit error. *)
Lemma underflow_not_recoverable : ¬ spec_underflow_recoverable.
Proof.
  intros H.
  destruct (H false w_dependent 1 _ ltac:(vm_compute; reflexivity)) as [Hext _].
  destruct (Hext ltac:(vm_compute; reflexivity)) as (e & w' & Hr).
  assert (Hno : is_raise (jit_dec_ref_ext false 1 w_dependent) = false)
    by (vm_compute; reflexivity).
  rewrite Hr in Hno. discriminate.
Qed.

(** ** Dirty operands *)

Lemma events_bump_int a w :
  ∃ l, Forall is_log l ∧ events (bump_int a w) = l ++ events w.
Proof.
  unfold bump_int. destruct (variables (st w) !! a).
  - eexists [_]. split; [|done]. by repeat constructor.
  - by exists [].
Qed.

Lemma events_bump_ext a w :
  ∃ l, Forall is_log l ∧ events (bump_ext a w) = l ++ events w.
Proof.
  unfold bump_ext. destruct (variables (st w) !! a).
  - eexists [_]. split; [|done]. by repeat constructor.
  - by exists [].
Qed.

Lemma events_foldl l w :
  ∃ l', Forall is_log l' ∧
        events (foldl (λ w a, bump_int a w) w l) = l' ++ events w.
Proof.
  revert w. induction l as [|a l IH]; intros w; [by exists []|].
  simpl. destruct (IH (bump_int a w)) as (l1 & H1 & E1).
  destruct (events_bump_int a w) as (l2 & H2 & E2).
  exists (l1 ++ l2). split; [by apply Forall_app|].
  by rewrite E1, E2, app_assoc.
Qed.

Lemma events_prelude cuda c wb :
  ∃ l, Forall is_log l ∧ events (prelude cuda c wb) = l ++ events wb.
Proof.
  unfold prelude.
  destruct (events_foldl (operands c) wb) as (l1 & H1 & E1).
  destruct (scatter_pin _ _ _) as [p|]; [|eauto].
  destruct (decide (p ≠ 0)); [|eauto].
  destruct (events_bump_ext p (foldl (λ w a, bump_int a w) wb (operands c)))
    as (l2 & H2 & E2).
  exists (l2 ++ l1). split; [by apply Forall_app|].
  by rewrite E2, E1, app_assoc.
Qed.

Lemma stopped_bind {A} impl (k : M A) w :
  stopped_by_eval impl w ((jit_eval impl ;;; k) w).
Proof.
  unfold stopped_by_eval, bind, jit_eval. by destruct (impl (st w)).
Qed.

Lemma stopped_bind_outer {A B} impl (m : M A) (k : A → M B) w :
  stopped_by_eval impl w (m w) → stopped_by_eval impl w (bind m k w).
Proof.
  unfold stopped_by_eval, bind. destruct (impl (st w)); try done; by intros ->.
Qed.

Section Dirty.

Context (cuda sn : bool) (impl : State → Res State unit).

(** A call that passes the checks and has a dirty operand starts with the
    evaluation. *)
Lemma dirty_append_stopped c k w :
  active_stream (st w) = Some k →
  Forall (λ a, a ≠ 0 ∧ is_Some (variables (st w) !! a)) (operands c) →
  sizes_ok c (st w) →
  any_dirty c (st w) = true →
  stopped_by_eval impl w (run_append cuda sn impl c w).
Proof.
  intros Hk Hops Hsz Hd.
  destruct c as [t s|t s a1|t s a1 a2|t s a1 a2 a3]; simpl in *.
  - done.
  - rewrite Forall_cons, Forall_nil in Hops. destruct Hops as ((H1 & v1 & Hv1) & _).
    unfold any_dirty, is_dirty in Hd. simpl in Hd. rewrite Hv1 in Hd. simpl in Hd.
    rewrite orb_false_r in Hd.
    unfold jit_trace_append_1. unfold bind at 1, get. rewrite Hk.
    destruct (decide (a1 = 0)); [done|].
    unfold bind at 1. rewrite (jit_var_live _ _ _ Hv1). cbv zeta.
    apply stopped_bind_outer. rewrite Hd. apply stopped_bind.
  - rewrite !Forall_cons, Forall_nil in Hops.
    destruct Hops as ((H1 & v1 & Hv1) & (H2 & v2 & Hv2) & _).
    unfold any_dirty, is_dirty in Hd. simpl in Hd. rewrite Hv1, Hv2 in Hd.
    simpl in Hd. rewrite orb_false_r in Hd.
    unfold sizes_ok, node_size, size_of in Hsz. simpl in Hsz.
    rewrite !Forall_cons, Forall_nil, Hv1, Hv2 in Hsz. simpl in Hsz.
    unfold jit_trace_append_2. unfold bind at 1, get. rewrite Hk.
    destruct (decide (a1 = 0 ∨ a2 = 0)) as [[?|?]|_]; [done..|].
    unfold bind at 1. rewrite (jit_var_live _ _ _ Hv1).
    unfold bind at 1. rewrite (jit_var_live _ _ _ Hv2). cbv zeta.
    apply stopped_bind_outer. simpl.
    destruct (decide _) as [Hbad|_]; [exfalso; intuition congruence|].
    rewrite Hd. apply stopped_bind.
  - rewrite !Forall_cons, Forall_nil in Hops.
    destruct Hops as ((H1 & v1 & Hv1) & (H2 & v2 & Hv2) & (H3 & v3 & Hv3) & _).
    unfold any_dirty, is_dirty in Hd. simpl in Hd. rewrite Hv1, Hv2, Hv3 in Hd.
    simpl in Hd. rewrite orb_false_r, orb_assoc in Hd.
    unfold sizes_ok, node_size, size_of in Hsz. simpl in Hsz.
    rewrite !Forall_cons, Forall_nil, Hv1, Hv2, Hv3 in Hsz. simpl in Hsz.
    unfold jit_trace_append_3. unfold bind at 1, get. rewrite Hk.
    destruct (decide (a1 = 0 ∨ a2 = 0 ∨ a3 = 0)) as [[?|[?|?]]|_]; [done..|].
    unfold bind at 1. rewrite (jit_var_live _ _ _ Hv1).
    unfold bind at 1. rewrite (jit_var_live _ _ _ Hv2).
    unfold bind at 1. rewrite (jit_var_live _ _ _ Hv3). cbv zeta.
    apply stopped_bind_outer. simpl.
    destruct (decide _) as [Hbad|_]; [exfalso; intuition congruence|].
    rewrite Hd. apply stopped_bind.
Qed.

Lemma bind_congr {A B} (m m' : M A) (k k' : A → M B) w :
  m w = m' w → (∀ a w1, m w = Ok a w1 → k a w1 = k' a w1) →
  bind m k w = bind m' k' w.
Proof.
  intros Hm Hk. unfold bind. rewrite <- Hm.
  destruct (m w) as [a w1| | | |] eqn:E; try done. by apply Hk.
Qed.

Lemma jit_var_Ok index v w w' :
  jit_var index w = Ok v w' → variables (st w) !! index = Some v ∧ w' = w.
Proof.
  unfold jit_var, bind, get. simpl.
  destruct (variables (st w) !! index); [|done]. by intros [= <- <-].
Qed.

(** A call without a dirty operand does not look at the evaluator. *)
Lemma clean_append_any_eval impl' c w :
  any_dirty c (st w) = false →
  run_append cuda sn impl' c w = run_append cuda sn impl c w.
Proof.
  intros Hd. destruct c as [t s|t s a1|t s a1 a2|t s a1 a2 a3]; simpl.
  - done.
  - unfold any_dirty, is_dirty in Hd. simpl in Hd. rewrite orb_false_r in Hd.
    unfold jit_trace_append_1.
    apply bind_congr; [done|]. intros s0 w0 [= <- <-].
    destruct (active_stream (st w)); [|done].
    destruct (decide (a1 = 0)); [done|].
    apply bind_congr; [done|]. intros v1 w1 [Hv1 ->]%jit_var_Ok.
    rewrite Hv1 in Hd. simpl in Hd. cbv zeta.
    apply bind_congr; [|done]. by rewrite Hd.
  - unfold any_dirty, is_dirty in Hd. simpl in Hd. rewrite orb_false_r in Hd.
    unfold jit_trace_append_2.
    apply bind_congr; [done|]. intros s0 w0 [= <- <-].
    destruct (active_stream (st w)); [|done].
    destruct (decide (a1 = 0 ∨ a2 = 0)); [done|].
    apply bind_congr; [done|]. intros v1 w1 [Hv1 ->]%jit_var_Ok.
    apply bind_congr; [done|]. intros v2 w2 [Hv2 ->]%jit_var_Ok.
    rewrite Hv1, Hv2 in Hd. simpl in Hd. cbv zeta.
    apply bind_congr; [|done]. by rewrite Hd.
  - unfold any_dirty, is_dirty in Hd. simpl in Hd.
    rewrite orb_false_r, orb_assoc in Hd.
    unfold jit_trace_append_3.
    apply bind_congr; [done|]. intros s0 w0 [= <- <-].
    destruct (active_stream (st w)); [|done].
    destruct (decide (a1 = 0 ∨ a2 = 0 ∨ a3 = 0)); [done|].
    apply bind_congr; [done|]. intros v1 w1 [Hv1 ->]%jit_var_Ok.
    apply bind_congr; [done|]. intros v2 w2 [Hv2 ->]%jit_var_Ok.
    apply bind_congr; [done|]. intros v3 w3 [Hv3 ->]%jit_var_Ok.
    rewrite Hv1, Hv2, Hv3 in Hd. simpl in Hd. cbv zeta.
    apply bind_congr; [|done]. by rewrite Hd.
Qed.

End Dirty.

(** C4. A trace append with a dirty operand runs [jit_eval()] before the
    node is appended, and an append whose operands are all clean does not
    run it.
    - The events a successful append adds to the log are, from the oldest
      to the most recent: one call of [jit_eval()] exactly when an operand
      is dirty, then entries of the log only, among them the entry of the
      append itself.
    - With a dirty operand, a call that passes the checks (a stream is
      active, the operands are initialized, live and of compatible sizes)
      starts with the evaluation: when the evaluator does not return, the
      call ends the same way, and after a jit error of the evaluator the
      world is the one the evaluator left with nothing but its call
      recorded.
    - Without a dirty operand the outcome of the call is the same for
      every evaluator. *)
Theorem dirty_operand_forces_eval cuda sn impl c w :
  (∀ idx w', run_append cuda sn impl c w = Ok idx w' →
     ∃ post stmt r,
       Forall is_log post ∧
       EvLog (LogTraceAppend idx (operands c) stmt r) ∈ post ∧
       events w' = post ++ (if any_dirty c (st w) then [EvEval] else []) ++ events w ∧
       (any_dirty c (st w) = true → ∃ s, impl (st w) = Ok tt s)) ∧
  (∀ k, active_stream (st w) = Some k →
     Forall (λ a, a ≠ 0 ∧ is_Some (variables (st w) !! a)) (operands c) →
     sizes_ok c (st w) →
     any_dirty c (st w) = true →
     stopped_by_eval impl w (run_append cuda sn impl c w)) ∧
  (any_dirty c (st w) = false →
   ∀ impl', run_append cuda sn impl' c w = run_append cuda sn impl c w).
Proof.
  split_and!.
  - intros idx w' Hrun.
    pose proof (wp_elim _ _ _ _ _ (run_append_spec cuda sn impl c w) Hrun)
      as (k & v & _ & _ & _ & Heval & _ & Htail).
    destruct Htail as (vo & sm & _ & _ & _ & _ & _ & _ & Hev).
    destruct (events_prelude cuda c (base_world impl c w)) as (l & Hl & El).
    exists (EvLog (LogIncRefExt idx (wrap32 (v_ref_count_ext vo + 1)))
            :: EvLog (LogTraceAppend idx (operands c) (v_stmt vo) (reused vo)) :: l),
      (v_stmt vo), (reused vo).
    split_and!.
    + by repeat constructor.
    + apply list_elem_of_In. simpl. auto.
    + rewrite Hev, El. simpl. do 2 f_equal.
      destruct (any_dirty c (st w)) eqn:Ed.
      * destruct (Heval eq_refl) as (s & Hs).
        by rewrite (base_world_dirty _ _ _ s).
      * by rewrite base_world_clean.
    + exact Heval.
  - intros k. apply dirty_append_stopped.
  - intros Hd impl'. by apply clean_append_any_eval.
Qed.

Lemma dirty_operand_forces_eval_witness :
  (∃ post stmt r,
     Forall is_log post ∧ EvLog (LogTraceAppend 2 [1] stmt r) ∈ post ∧
     events w_dirty_read = post ++ [EvEval] ++ events w_dirty) ∧
  (∃ post stmt r,
     Forall is_log post ∧ EvLog (LogTraceAppend 3 [1; 2] stmt r) ∈ post ∧
     events w_dirty_sum = post ++ [EvEval] ++ events w_dirty_pair) ∧
  (∃ post stmt r,
     Forall is_log post ∧ EvLog (LogTraceAppend 3 [1; 2; 2] stmt r) ∈ post ∧
     events w_dirty_fma = post ++ [EvEval] ++ events w_dirty_pair) ∧
  (∃ post stmt r,
     Forall is_log post ∧ EvLog (LogTraceAppend 3 [1; 2] stmt r) ∈ post ∧
     events w_two_sum = post ++ events w_two) ∧
  (∃ post stmt r,
     Forall is_log post ∧ EvLog (LogTraceAppend 3 [1] stmt r) ∈ post ∧
     events w_two_neg = post ++ events w_two) ∧
  (∃ post stmt r,
     Forall is_log post ∧ EvLog (LogTraceAppend 4 [1; 2; 2] stmt r) ∈ post ∧
     events w_two_fma = post ++ events w_two_sum_again) ∧
  run_append false false (eval_raises ErrInvalidDevice)
    (Append1 EnokiType.Float32 neg_stmt 2) w_dirty_pair
  = Raise ErrInvalidDevice
      (mkWorld (st w_dirty_pair) (EvEval :: events w_dirty_pair)) ∧
  run_append false false (eval_raises ErrInvalidDevice)
    (Append2 EnokiType.Float32 add_stmt 1 2) w_dirty_pair
  = Raise ErrInvalidDevice
      (mkWorld (st w_dirty_pair) (EvEval :: events w_dirty_pair)) ∧
  run_append false false (eval_raises ErrInvalidDevice)
    (Append3 EnokiType.Float32 fma_stmt 1 2 2) w_dirty_pair
  = Raise ErrInvalidDevice
      (mkWorld (st w_dirty_pair) (EvEval :: events w_dirty_pair)) ∧
  run_append false false (eval_raises ErrInvalidDevice)
    (Append2 EnokiType.Float32 add_stmt 1 2) w_two
  = Ok 3 w_two_sum.
Proof.
  assert (Hd1 : any_dirty (Append1 EnokiType.Float32 neg_stmt 1) (st w_dirty) = true)
    by (vm_compute; reflexivity).
  assert (Hd1' : any_dirty (Append1 EnokiType.Float32 neg_stmt 2)
                   (st w_dirty_pair) = true)
    by (vm_compute; reflexivity).
  assert (Hd2 : any_dirty (Append2 EnokiType.Float32 add_stmt 1 2)
                  (st w_dirty_pair) = true)
    by (vm_compute; reflexivity).
  assert (Hd3 : any_dirty (Append3 EnokiType.Float32 fma_stmt 1 2 2)
                  (st w_dirty_pair) = true)
    by (vm_compute; reflexivity).
  assert (Hc : any_dirty (Append2 EnokiType.Float32 add_stmt 1 2) (st w_two) = false)
    by (vm_compute; reflexivity).
  assert (Hc1 : any_dirty (Append1 EnokiType.Float32 neg_stmt 1) (st w_two) = false)
    by (vm_compute; reflexivity).
  assert (Hc3 : any_dirty (Append3 EnokiType.Float32 fma_stmt 1 2 2)
                  (st w_two_sum_again) = false)
    by (vm_compute; reflexivity).
  assert (Hk : active_stream (st w_dirty_pair) = Some (stream_key (-1) 0))
    by (vm_compute; reflexivity).
  assert (Hl1 : is_Some (variables (st w_dirty_pair) !! 1))
    by (eexists; vm_compute; reflexivity).
  assert (Hl2 : is_Some (variables (st w_dirty_pair) !! 2))
    by (eexists; vm_compute; reflexivity).
  assert (Hs1 : size_of (st w_dirty_pair) 1 = 1) by (vm_compute; reflexivity).
  assert (Hs2 : size_of (st w_dirty_pair) 2 = 1) by (vm_compute; reflexivity).
  assert (Hrun : run_append false false (jit_eval_model false)
                   (Append2 EnokiType.Float32 add_stmt 1 2) w_two = Ok 3 w_two_sum)
    by by_value.
  split_and!.
  - destruct (proj1 (dirty_operand_forces_eval false true (jit_eval_model false)
                       (Append1 EnokiType.Float32 neg_stmt 1) w_dirty)
                2 w_dirty_read) as (post & stmt & r & Hlog & Hin & Hev & _);
      [by_value|].
    rewrite Hd1 in Hev. exists post, stmt, r. exact (conj Hlog (conj Hin Hev)).
  - destruct (proj1 (dirty_operand_forces_eval false false (jit_eval_model false)
                       (Append2 EnokiType.Float32 add_stmt 1 2) w_dirty_pair)
                3 w_dirty_sum) as (post & stmt & r & Hlog & Hin & Hev & _);
      [by_value|].
    rewrite Hd2 in Hev. exists post, stmt, r. exact (conj Hlog (conj Hin Hev)).
  - destruct (proj1 (dirty_operand_forces_eval false false (jit_eval_model false)
                       (Append3 EnokiType.Float32 fma_stmt 1 2 2) w_dirty_pair)
                3 w_dirty_fma) as (post & stmt & r & Hlog & Hin & Hev & _);
      [by_value|].
    rewrite Hd3 in Hev. exists post, stmt, r. exact (conj Hlog (conj Hin Hev)).
  - destruct (proj1 (dirty_operand_forces_eval false false (jit_eval_model false)
                       (Append2 EnokiType.Float32 add_stmt 1 2) w_two)
                3 w_two_sum Hrun) as (post & stmt & r & Hlog & Hin & Hev & _).
    rewrite Hc in Hev. exists post, stmt, r. exact (conj Hlog (conj Hin Hev)).
  - destruct (proj1 (dirty_operand_forces_eval false false (jit_eval_model false)
                       (Append1 EnokiType.Float32 neg_stmt 1) w_two)
                3 w_two_neg) as (post & stmt & r & Hlog & Hin & Hev & _);
      [by_value|].
    rewrite Hc1 in Hev. exists post, stmt, r. exact (conj Hlog (conj Hin Hev)).
  - destruct (proj1 (dirty_operand_forces_eval false false (jit_eval_model false)
                       (Append3 EnokiType.Float32 fma_stmt 1 2 2) w_two_sum_again)
                4 w_two_fma) as (post & stmt & r & Hlog & Hin & Hev & _);
      [by_value|].
    rewrite Hc3 in Hev. exists post, stmt, r. exact (conj Hlog (conj Hin Hev)).
  - apply (proj1 (proj2 (dirty_operand_forces_eval false false
                           (eval_raises ErrInvalidDevice)
                           (Append1 EnokiType.Float32 neg_stmt 2) w_dirty_pair))
             (stream_key (-1) 0) Hk); [| |exact Hd1'].
    + simpl. rewrite !Forall_cons, Forall_nil. split_and!; [discriminate|exact Hl2|exact I].
    + unfold sizes_ok. simpl. rewrite !Forall_cons, Forall_nil. split; [by right|exact I].
  - apply (proj1 (proj2 (dirty_operand_forces_eval false false
                           (eval_raises ErrInvalidDevice)
                           (Append2 EnokiType.Float32 add_stmt 1 2) w_dirty_pair))
             (stream_key (-1) 0) Hk); [| |exact Hd2].
    + simpl. rewrite !Forall_cons, Forall_nil.
      split_and!; [discriminate|exact Hl1|discriminate|exact Hl2|exact I].
    + unfold sizes_ok. simpl. rewrite !Forall_cons, Forall_nil.
      split_and!; [left; exact Hs1|left; exact Hs2|exact I].
  - apply (proj1 (proj2 (dirty_operand_forces_eval false false
                           (eval_raises ErrInvalidDevice)
                           (Append3 EnokiType.Float32 fma_stmt 1 2 2) w_dirty_pair))
             (stream_key (-1) 0) Hk); [| |exact Hd3].
    + simpl. rewrite !Forall_cons, Forall_nil.
      split_and!; [discriminate|exact Hl1|discriminate|exact Hl2|
                   discriminate|exact Hl2|exact I].
    + unfold sizes_ok. simpl. rewrite !Forall_cons, Forall_nil.
      split_and!; [left; exact Hs1|left; exact Hs2|left; exact Hs2|exact I].
  - rewrite (proj2 (proj2 (dirty_operand_forces_eval false false
                             (jit_eval_model false)
                             (Append2 EnokiType.Float32 add_stmt 1 2) w_two))
               Hc (eval_raises ErrInvalidDevice)).
    exact Hrun.
Defined.

(** ** Resizing a variable *)

(** C7, as the code has it. For a live variable whose size differs from
    the requested one: when it is materialized or has internal references
    ([data != nullptr || ref_count_int > 0]), a scalar with [copy] set is
    copied (a [mov] node is appended by the 1-operand trace append, the
    requested size is written to it, the external reference on [index] is
    dropped and the id of the node is returned), and anything else is
    rejected with a jit error that leaves the world untouched; when it is
    neither, the size is changed in place and [index] is returned. *)
Theorem jit_var_set_size_cases cuda sn impl index size copy v w :
  variables (st w) !! index = Some v →
  v_size v ≠ size →
  (v_data v ≠ 0 ∨ 0 < v_ref_count_int v →
     (v_size v = 1 → copy = true →
      ∀ idx w', jit_var_set_size cuda sn impl index size copy w = Ok idx w' →
        ∃ w1 w2,
          jit_trace_append_1 cuda sn impl (v_type v)
            (Some "mov.$t1 $r1, $r2") index w = Ok idx w1 ∧
          write_size idx size w1 = Ok tt w2 ∧
          jit_dec_ref_ext cuda index w2 = Ok tt w') ∧
     (v_size v ≠ 1 ∨ copy = false →
      jit_var_set_size cuda sn impl index size copy w
      = Raise (ErrResizeAllocated index (v_size v) size) w)) ∧
  (v_data v = 0 → v_ref_count_int v = 0 →
   jit_var_set_size cuda sn impl index size copy w
   = Ok index
       (mkWorld (upd_variables <[index := set_size (wrap32 size) v]> (st w))
          (EvLog (LogSetSize index size) :: events w))).
Proof.
  intros Hv Hsize.
  assert (Hunfold : jit_var_set_size cuda sn impl index size copy w =
    (if negb (v_data v =? 0) || (0 <? v_ref_count_int v) then
       if (v_size v =? 1) && copy then
         index_new <- jit_trace_append_1 cuda sn impl (v_type v)
                        (Some "mov.$t1 $r1, $r2") index ;;
         _ <- jit_var index_new ;;
         write_size index_new size ;;;
         jit_dec_ref_ext cuda index ;;;
         ret index_new
       else jit_raise (ErrResizeAllocated index (v_size v) size)
     else
       write_size index size ;;;
       jit_log (LogSetSize index size) ;;;
       ret index) w).
  { unfold jit_var_set_size. unfold bind at 1. rewrite (jit_var_live _ _ _ Hv).
    by destruct (decide (v_size v = size)). }
  split.
  - intros Halloc.
    assert (Ha : negb (v_data v =? 0) || (0 <? v_ref_count_int v) = true).
    { destruct Halloc as [Hd|Hi].
      - apply orb_true_iff. left. apply negb_true_iff, N.eqb_neq. done.
      - apply orb_true_iff. right. by apply N.ltb_lt. }
    rewrite Hunfold, Ha. split.
    + intros Hone -> idx w' Hrun.
      rewrite (proj2 (N.eqb_eq _ _) Hone) in Hrun. simpl in Hrun.
      apply bind_Ok in Hrun as (idx' & w1 & Happ & Hrun).
      apply bind_Ok in Hrun as (vn & w1' & Hvar & Hrun).
      apply bind_Ok in Hrun as ([] & w2 & Hwr & Hrun).
      apply bind_Ok in Hrun as ([] & w3 & Hdec & Hrun).
      injection Hrun as <- <-.
      assert (w1' = w1) as ->.
      { unfold jit_var, bind, get in Hvar. simpl in Hvar.
        destruct (variables (st w1) !! idx'); by inversion Hvar. }
      eauto.
    + intros Hno.
      assert ((v_size v =? 1) && copy = false) as ->; [|done].
      destruct Hno as [Hno| ->]; [|by rewrite andb_false_r].
      by rewrite (proj2 (N.eqb_neq _ _) Hno).
  - intros Hd Hi. rewrite Hunfold, Hd, Hi. simpl.
    unfold write_size, bind, get. simpl. by rewrite Hv.
Qed.

Lemma jit_var_set_size_cases_witness :
  jit_var_set_size false true (jit_eval_model false) 1 10 false w_one
  = Ok 1 (mkWorld
            (upd_variables
               <[1 := set_size 10
                        (set_ref_count_ext 1
                           (set_tsize 1
                              (set_stmt mov_half
                                 (set_size 1
                                    (set_type EnokiType.Float32 Var_new)))))]>
               (st w_one))
            (EvLog (LogSetSize 1 10) :: events w_one)).
Proof.
  refine (proj2 (jit_var_set_size_cases false true (jit_eval_model false)
                   1 10 false _ w_one _ _) _ _).
  - vm_compute. reflexivity.
  - discriminate.
  - reflexivity.
  - reflexivity.
Defined.

(** C7 as stated fails: variable 1 of [w_one] is neither materialized nor
    a copy candidate, and its resize to 10 elements is carried out. *)
Lemma set_size_not_rejected : ¬ spec_set_size_rejects.
Proof.
  intros H.
  destruct (H false true (jit_eval_model false) 1 10 false _ w_one
              ltac:(vm_compute; reflexivity) ltac:(discriminate)
              ltac:(intros (? & _); done))
    as (e & w' & Hr).
  assert (Hno : is_raise (jit_var_set_size false true (jit_eval_model false)
                            1 10 false w_one) = false)
    by (vm_compute; reflexivity).
  rewrite Hr in Hno. discriminate.
Qed.

(** ** Dropping references: invariants of the cascade *)

Lemma shrinks_refl w : shrinks w w.
Proof. unfold shrinks. split_and!; eauto. Qed.

Lemma shrinks_trans w1 w2 w3 : shrinks w1 w2 → shrinks w2 w3 → shrinks w1 w3.
Proof.
  intros (Ha & Hv & Hp & Hs & Ho) (Ha' & Hv' & Hp' & Hs' & Ho').
  unfold shrinks. split_and!.
  - congruence.
  - eauto.
  - eauto.
  - intros k sm3 H3. destruct (Hs' _ _ H3) as (sm2 & H2 & Hsub).
    destruct (Hs _ _ H2) as (sm1 & H1 & Hsub').
    exists sm1. split; [done|]. by etrans.
  - intros k Hk. rewrite Ho' by congruence. by apply Ho.
Qed.

Lemma dec_post_refl w : dec_post w w.
Proof. split; [apply shrinks_refl | done]. Qed.

Lemma dec_post_trans w1 w2 w3 : dec_post w1 w2 → dec_post w2 w3 → dec_post w1 w3.
Proof.
  intros [H1 I1] [H2 I2]. split; [by eapply shrinks_trans | auto].
Qed.

Lemma wp_dec_post_bind {A B} (m : M A) (k : A → M B) w :
  wp m (λ _ w', dec_post w w') w →
  (∀ a w1, wp (k a) (λ _ w', dec_post w1 w') w1) →
  wp (bind m k) (λ _ w', dec_post w w') w.
Proof.
  intros Hm Hk. apply wp_bind. eapply wp_mono; [exact Hm|].
  intros a w1 H1. eapply wp_mono; [apply Hk|].
  intros b w2 H2. simpl in *. eapply dec_post_trans; eassumption.
Qed.

Lemma wp_todo_erase index (Q : unit → World → Prop) w :
  (∀ k sm, active_stream (st w) = Some k → streams (st w) !! k = Some sm →
     Q tt (mkWorld (upd_streams <[k := upd_todo (λ t, t ∖ {[index]}) sm]> (st w))
             (events w))) →
  wp (todo_erase index) Q w.
Proof.
  intros H. unfold todo_erase. wp_pure.
  destruct (active_stream (st w)) as [k|] eqn:Ek; [|wp_pure].
  destruct (streams (st w) !! k) as [sm|] eqn:Es; [|wp_pure].
  wp_pure. by apply H.
Qed.

(** Steps on the state that are in [shrinks]. *)
Lemma shrinks_events w l : shrinks w (mkWorld (st w) l).
Proof. unfold shrinks. simpl. split_and!; eauto. Qed.

Lemma shrinks_update w i v v' l :
  variables (st w) !! i = Some v →
  shrinks w (mkWorld (upd_variables <[i := v']> (st w)) l).
Proof.
  intros Hv. unfold shrinks. simpl. split_and!; eauto.
  intros j Hj. rewrite lookup_insert_ne; [done|]. congruence.
Qed.

Lemma shrinks_delete_var w i l :
  shrinks w (mkWorld (upd_variables (delete i) (st w)) l).
Proof.
  unfold shrinks. simpl. split_and!; eauto.
  intros j Hj. destruct (decide (i = j)) as [->|].
  - apply lookup_delete_eq.
  - by rewrite lookup_delete_ne.
Qed.

Lemma shrinks_delete_key w key l :
  shrinks w (mkWorld (upd_variable_from_key (delete key) (st w)) l).
Proof. unfold shrinks. simpl. split_and!; eauto. Qed.

Lemma shrinks_delete_ptr w p l :
  shrinks w (mkWorld (upd_variable_from_ptr (delete p) (st w)) l).
Proof.
  unfold shrinks. simpl. split_and!; eauto.
  intros q Hq. destruct (decide (p = q)) as [->|].
  - apply lookup_delete_eq.
  - by rewrite lookup_delete_ne.
Qed.

Lemma shrinks_todo_erase w k sm index l :
  active_stream (st w) = Some k → streams (st w) !! k = Some sm →
  shrinks w (mkWorld (upd_streams <[k := upd_todo (λ t, t ∖ {[index]}) sm]> (st w)) l).
Proof.
  intros Hk Hsm. unfold shrinks. simpl. split_and!; eauto.
  - intros k' sm' H'. destruct (decide (k = k')) as [<-|Hne].
    + rewrite lookup_insert_eq in H'. injection H' as <-.
      exists sm. split; [done|]. simpl. apply subseteq_difference_l. done.
    + rewrite lookup_insert_ne in H' by done. eauto.
  - intros k' Hk'. rewrite lookup_insert_ne; [done|]. congruence.
Qed.

(** Steps that keep [todo_ok]. *)
Lemma todo_ok_delete_var s index :
  todo_ok s →
  (∀ v, variables s !! index = Some v → v_ref_count_ext v = 0) →
  todo_ok (upd_variables (delete index) s).
Proof.
  intros Hok Hz k sm i Hk Hsm Hi. simpl in *.
  destruct (Hok k sm i Hk Hsm Hi) as (v & Hv & Hpos).
  exists v. split; [|done]. rewrite lookup_delete_ne; [done|].
  intros <-. rewrite (Hz _ Hv) in Hpos. lia.
Qed.

Lemma todo_ok_same s s' :
  active_stream s' = active_stream s → streams s' = streams s →
  variables s' = variables s → todo_ok s → todo_ok s'.
Proof.
  intros Ha Hs Hv Hok k sm i. rewrite Ha, Hs, Hv. apply Hok.
Qed.

Lemma todo_ok_update_int s index v c :
  variables s !! index = Some v →
  todo_ok s →
  todo_ok (upd_variables <[index := set_ref_count_int c v]> s).
Proof.
  intros Hv Hok k sm i Hk Hsm Hi. simpl in *.
  destruct (Hok k sm i Hk Hsm Hi) as (v0 & Hv0 & Hpos).
  destruct (decide (index = i)) as [<-|Hne].
  - rewrite lookup_insert_eq. eexists. split; [done|]. simpl.
    rewrite Hv in Hv0. by injection Hv0 as <-.
  - rewrite lookup_insert_ne by done. eauto.
Qed.

Lemma todo_ok_update_ext_pos s index v c :
  0 < c →
  todo_ok s →
  todo_ok (upd_variables <[index := set_ref_count_ext c v]> s).
Proof.
  intros Hc Hok k sm i Hk Hsm Hi. simpl in *.
  destruct (Hok k sm i Hk Hsm Hi) as (v0 & Hv0 & Hpos).
  destruct (decide (index = i)) as [<-|Hne].
  - rewrite lookup_insert_eq. eexists. split; [done|]. done.
  - rewrite lookup_insert_ne by done. eauto.
Qed.

Lemma todo_ok_update_erase s index v' k sm :
  active_stream s = Some k → streams s !! k = Some sm →
  todo_ok s →
  todo_ok (upd_streams <[k := upd_todo (λ t, t ∖ {[index]}) sm]>
             (upd_variables <[index := v']> s)).
Proof.
  intros Hk Hsm Hok k' sm' i Hk' Hsm' Hi. simpl in *.
  assert (k' = k) as -> by congruence.
  rewrite lookup_insert_eq in Hsm'. injection Hsm' as <-. simpl in Hi.
  apply elem_of_difference in Hi as [Hi Hne].
  destruct (Hok k sm i Hk Hsm Hi) as (v0 & Hv0 & Hpos).
  exists v0. split; [|done]. rewrite lookup_insert_ne; [done|].
  intros <-. apply Hne. by apply elem_of_singleton.
Qed.

Lemma wp_dec_post_from {A} (m : M A) w w1 :
  dec_post w w1 →
  wp m (λ _ w', dec_post w1 w') w1 →
  wp m (λ _ w', dec_post w w') w1.
Proof.
  intros H Hm. eapply wp_mono; [exact Hm|].
  intros a w2 H2. simpl in *. eapply dec_post_trans; eassumption.
Qed.

Lemma lookup_delete_None_mono `{Countable K} {A} (m : gmap K A) i j :
  m !! j = None → delete i m !! j = None.
Proof.
  intros Hj. destruct (decide (i = j)) as [->|].
  - apply lookup_delete_eq.
  - by rewrite lookup_delete_ne.
Qed.

(** The cleanup handler, given that the two recursive calls keep the
    invariants, for a variable without external references. *)
Lemma free_dec_post cuda (dec_int dec_ext : N → M unit) index w :
  (∀ i w, wp (dec_int i) (λ _ w', dec_post w w') w) →
  (∀ i w, wp (dec_ext i) (λ _ w', dec_post w w') w) →
  (∀ v, variables (st w) !! index = Some v → v_ref_count_ext v = 0) →
  wp (jit_var_free_with cuda dec_int dec_ext index) (λ _ w', dec_post w w') w.
Proof.
  intros Hint Hext Hz. unfold jit_var_free_with. wp_pure.
  destruct (variables (st w) !! index) as [v|] eqn:Hv; [|wp_pure].
  wp_pure. wp_pure.
  assert (Hrest : ∀ l ptrs,
    (∀ p, variable_from_ptr (st w) !! p = None → ptrs !! p = None) →
    wp (_ <- modify (upd_variables (delete index)) ;;
        _ <- dec_int (v_dep v).1.1 ;;
        _ <- dec_int (v_dep v).1.2 ;;
        _ <- dec_int (v_dep v).2 ;;
        dec_ext (v_extra_dep v))
      (λ _ w', dec_post w w')
      (mkWorld
         (upd_variable_from_ptr (λ _, ptrs)
            (upd_variable_from_key (delete (mkVariableKey cuda v)) (st w))) l)).
  { intros l ptrs Hptrs. wp_pure. apply wp_dec_post_from.
    - split.
      + unfold shrinks. simpl. split_and!; [done | | exact Hptrs | by eauto | done].
        intros j Hj. by apply lookup_delete_None_mono.
      + intros Hok. apply (todo_ok_delete_var _ index) in Hok.
        * revert Hok. by apply todo_ok_same.
        * intros v0 Hv0. apply Hz. congruence.
    - apply wp_dec_post_bind; [apply Hint|]. intros _ w1.
      apply wp_dec_post_bind; [apply Hint|]. intros _ w2.
      apply wp_dec_post_bind; [apply Hint|]. intros _ w3.
      apply Hext. }
  apply wp_bind.
  destruct (v_free_variable v && negb (v_data v =? 0)); wp_pure;
    (apply wp_bind; destruct (v_direct_pointer v);
     [ wp_pure; simpl;
       destruct (variable_from_ptr (st w) !! v_data v) eqn:Hp; wp_pure;
       apply (Hrest _ (delete (v_data v) (variable_from_ptr (st w))));
       intros p Hnone; by apply lookup_delete_None_mono
     | wp_pure; apply (Hrest _ (variable_from_ptr (st w))); auto ]).
Qed.

Lemma dec_ref_fuel_post cuda fuel :
  (∀ index w, wp (jit_dec_ref_ext_fuel cuda fuel index) (λ _ w', dec_post w w') w) ∧
  (∀ index w, wp (jit_dec_ref_int_fuel cuda fuel index) (λ _ w', dec_post w w') w).
Proof.
  induction fuel as [|fuel [IHe IHi]]; (split; intros index w); [exact I | exact I | |].
  - cbn [jit_dec_ref_ext_fuel]. wp_pure.
    destruct (decide (index = 0 ∨ variables (st w) = ∅)); [wp_pure; apply dec_post_refl|].
    apply wp_bind, wp_jit_var. intros v Hv.
    destruct (decide (v_ref_count_ext v = 0)) as [|Hpos]; [wp_pure|].
    wp_pure. wp_pure.
    set (v' := set_ref_count_ext (v_ref_count_ext v - 1) v).
    apply wp_bind.
    destruct (decide (v_ref_count_ext v' = 0)) as [Hz|Hnz].
    + apply wp_todo_erase. intros k sm Hk Hsm. simpl in Hk, Hsm.
      assert (Hmid : dec_post w
        (mkWorld (upd_streams <[k := upd_todo (λ t, t ∖ {[index]}) sm]>
                    (upd_variables <[index := v']> (st w)))
           (EvLog (LogDecRefExt index (v_ref_count_ext v - 1)) :: events w))).
      { split.
        - eapply shrinks_trans; [apply (shrinks_update w index v v'); exact Hv|].
          apply (shrinks_todo_erase
                   (mkWorld (upd_variables <[index := v']> (st w)) (events w))); done.
        - intros Hok. by apply todo_ok_update_erase. }
      destruct (decide (v_ref_count_ext v' = 0 ∧ v_ref_count_int v' = 0)).
      * apply wp_dec_post_from; [exact Hmid|].
        apply free_dec_post; [exact IHi | exact IHe |].
        simpl. intros v0. rewrite lookup_insert_eq. by intros [= <-].
      * wp_pure. exact Hmid.
    + wp_pure.
      destruct (decide (v_ref_count_ext v' = 0 ∧ v_ref_count_int v' = 0))
        as [[? _]|]; [done|].
      wp_pure. split.
      * apply (shrinks_update w index v v'). exact Hv.
      * intros Hok. apply todo_ok_update_ext_pos; [|done].
        simpl in Hnz. lia.
  - cbn [jit_dec_ref_int_fuel]. wp_pure.
    destruct (decide (index = 0 ∨ variables (st w) = ∅)); [wp_pure; apply dec_post_refl|].
    apply wp_bind, wp_jit_var. intros v Hv.
    destruct (decide (v_ref_count_int v = 0)) as [|Hpos]; [wp_pure|].
    wp_pure. wp_pure.
    set (v' := set_ref_count_int (v_ref_count_int v - 1) v).
    assert (Hmid : dec_post w
      (mkWorld (upd_variables <[index := v']> (st w))
         (EvLog (LogDecRefInt index (v_ref_count_int v - 1)) :: events w))).
    { split.
      - apply (shrinks_update w index v v'). exact Hv.
      - intros Hok. by apply todo_ok_update_int. }
    destruct (decide (v_ref_count_ext v' = 0 ∧ v_ref_count_int v' = 0)) as [[Hz _]|].
    + apply wp_dec_post_from; [exact Hmid|].
      apply free_dec_post; [exact IHi | exact IHe |].
      simpl. intros v0. rewrite lookup_insert_eq. by intros [= <-].
    + wp_pure. exact Hmid.
Qed.

(** ** The pending set *)

Lemma dec_ext_step cuda fuel index v w w' :
  variables (st w) !! index = Some v → index ≠ 0 → v_ref_count_ext v = 1 →
  jit_dec_ref_ext_fuel cuda (S fuel) index w = Ok tt w' →
  ∃ k sm,
    active_stream (st w) = Some k ∧ streams (st w) !! k = Some sm ∧
    let wmid :=
      mkWorld (upd_streams <[k := upd_todo (λ t, t ∖ {[index]}) sm]>
                 (upd_variables <[index := set_ref_count_ext 0 v]> (st w)))
        (EvLog (LogDecRefExt index 0) :: events w) in
    if decide (v_ref_count_int v = 0)
    then jit_var_free_with cuda (jit_dec_ref_int_fuel cuda fuel)
           (jit_dec_ref_ext_fuel cuda fuel) index wmid = Ok tt w'
    else w' = wmid.
Proof.
  intros Hv Hne Hone Hrun. cbn [jit_dec_ref_ext_fuel] in Hrun.
  unfold bind at 1, get in Hrun.
  destruct (decide (index = 0 ∨ variables (st w) = ∅)) as [[?|He]|_].
  { done. }
  { rewrite He in Hv. by rewrite lookup_empty in Hv. }
  unfold bind at 1 in Hrun. rewrite (jit_var_live _ _ _ Hv) in Hrun.
  destruct (decide (v_ref_count_ext v = 0)) as [Hz|_]; [rewrite Hz in Hone; done|].
  rewrite Hone in Hrun. simpl in Hrun.
  unfold bind at 1, jit_log, emit in Hrun.
  unfold bind at 1, modify in Hrun. simpl in Hrun.
  unfold bind at 1, todo_erase in Hrun. unfold bind at 1, get in Hrun.
  simpl in Hrun.
  destruct (active_stream (st w)) as [k|] eqn:Hk; [|done].
  change (1 - 1) with 0 in Hrun.
  destruct (streams (st w) !! k) as [sm|] eqn:Hsm; [|by unfold undefined in Hrun].
  exists k, sm. split; [done|]. split; [done|]. simpl.
  unfold put in Hrun. simpl in Hrun.
  destruct (decide (v_ref_count_int v = 0)) as [Hi|Hi].
  - destruct (decide (0 = 0 ∧ v_ref_count_int v = 0)) as [_|Hn]; [exact Hrun|].
    exfalso. apply Hn. done.
  - destruct (decide (0 = 0 ∧ v_ref_count_int v = 0)) as [[_ ?]|_]; [done|].
    by injection Hrun as <-.
Qed.

Lemma todo_ok_bump_int a w : todo_ok (st w) → todo_ok (st (bump_int a w)).
Proof.
  unfold bump_int. destruct (variables (st w) !! a) as [v|] eqn:Hv; [|done].
  intros Hok. simpl. by apply todo_ok_update_int.
Qed.

Lemma ext_lt_bump_int a w b : ext_lt (st w) b → ext_lt (st (bump_int a w)) b.
Proof.
  unfold bump_int. destruct (variables (st w) !! a) as [v|] eqn:Hv; [|done].
  intros Hlt i v0. simpl. destruct (decide (a = i)) as [<-|Hne].
  - rewrite lookup_insert_eq. intros [= <-]. simpl. by apply (Hlt a).
  - rewrite lookup_insert_ne by done. apply Hlt.
Qed.

Lemma wrap32_small x : x < 4294967296 → wrap32 x = x.
Proof. intros H. unfold wrap32. by apply N.mod_small. Qed.

Lemma todo_ok_bump_ext a w :
  ext_lt (st w) UINT32_MAX → todo_ok (st w) → todo_ok (st (bump_ext a w)).
Proof.
  unfold bump_ext. destruct (variables (st w) !! a) as [v|] eqn:Hv; [|done].
  intros Hlt Hok. simpl. apply todo_ok_update_ext_pos; [|done].
  pose proof (Hlt _ _ Hv) as Hb. unfold UINT32_MAX in Hb.
  rewrite wrap32_small; lia.
Qed.

Lemma ext_lt_bump_ext a w b :
  b < UINT32_MAX → ext_lt (st w) b → ext_lt (st (bump_ext a w)) (b + 1).
Proof.
  intros Hb Hlt. unfold bump_ext.
  destruct (variables (st w) !! a) as [v|] eqn:Hv.
  - intros i v0. simpl. destruct (decide (a = i)) as [<-|Hne].
    + rewrite lookup_insert_eq. intros [= <-]. simpl.
      pose proof (Hlt _ _ Hv). unfold UINT32_MAX in Hb.
      rewrite wrap32_small; lia.
    + rewrite lookup_insert_ne by done. intros Hi.
      pose proof (Hlt _ _ Hi). lia.
  - intros i v0 Hi. pose proof (Hlt _ _ Hi). lia.
Qed.

Lemma ext_lt_weaken s b b' : b ≤ b' → ext_lt s b → ext_lt s b'.
Proof. intros Hle Hlt i v Hv. pose proof (Hlt _ _ Hv). lia. Qed.

Lemma prelude_todo_ok cuda c wb :
  no_wrap (st wb) → todo_ok (st wb) →
  todo_ok (st (prelude cuda c wb)) ∧ ext_lt (st (prelude cuda c wb)) UINT32_MAX.
Proof.
  intros Hnw Hok. unfold prelude.
  assert (H1 : todo_ok (st (foldl (λ w a, bump_int a w) wb (operands c))) ∧
               ext_lt (st (foldl (λ w a, bump_int a w) wb (operands c)))
                 (UINT32_MAX - 1)).
  { revert wb Hnw Hok. induction (operands c) as [|a l IH]; intros wb Hnw Hok.
    - done.
    - simpl. apply IH; [by apply ext_lt_bump_int | by apply todo_ok_bump_int]. }
  destruct H1 as [Hok1 Hlt1].
  assert (Hlt1' : ext_lt (st (foldl (λ w a, bump_int a w) wb (operands c))) UINT32_MAX)
    by (eapply ext_lt_weaken; [|exact Hlt1]; unfold UINT32_MAX; lia).
  destruct (scatter_pin _ _ _) as [p|]; [|done].
  destruct (decide (p ≠ 0)); [|done].
  split.
  - by apply todo_ok_bump_ext.
  - assert (Hb : UINT32_MAX - 1 < UINT32_MAX) by (unfold UINT32_MAX; lia).
    pose proof (ext_lt_bump_ext p _ (UINT32_MAX - 1) Hb Hlt1) as Hbump.
    eapply ext_lt_weaken; [|exact Hbump]. unfold UINT32_MAX. lia.
Qed.

Lemma tail_post_todo_ok cuda k args v w idx w' :
  v_ref_count_ext v = 0 →
  tail_post cuda k args v w idx w' →
  ext_lt (st w) UINT32_MAX → todo_ok (st w) → todo_ok (st w').
Proof.
  intros Hv (vo & sm & Hcase & Hvars & Hsm & Hstreams & Hact & _) Hlt Hok.
  assert (Hvo : v_ref_count_ext vo < UINT32_MAX).
  { destruct Hcase as [(_ & _ & _ & -> & _)|(_ & Hl & _)].
    - rewrite Hv. unfold UINT32_MAX. lia.
    - by apply (Hlt idx). }
  intros ka sma i Hka Hsma Hi. rewrite Hact in Hka. rewrite Hvars.
  destruct (decide (idx = i)) as [<-|Hne].
  { rewrite lookup_insert_eq. eexists. split; [done|]. simpl.
    unfold UINT32_MAX in Hvo. rewrite wrap32_small; lia. }
  rewrite lookup_insert_ne by done.
  rewrite Hstreams in Hsma. destruct (decide (k = ka)) as [<-|Hk].
  - rewrite lookup_insert_eq in Hsma. injection Hsma as <-. simpl in Hi.
    apply elem_of_union in Hi as [Hi|Hi].
    + apply elem_of_singleton in Hi. congruence.
    + by apply (Hok k sm).
  - rewrite lookup_insert_ne in Hsma by done. by apply (Hok ka sma).
Qed.

Lemma todo_checked_ok s : todo_checked s = true ↔ todo_ok s.
Proof.
  unfold todo_checked, todo_ok. split.
  - intros H k sm i Hk Hsm Hi. rewrite Hk, Hsm in H.
    apply bool_decide_eq_true_1 in H. specialize (H i Hi). simpl in H.
    unfold ext_of in H. destruct (variables s !! i) as [v|]; [eauto|].
    simpl in H. lia.
  - intros H. destruct (active_stream s) as [k|]; [|done].
    destruct (streams s !! k) as [sm|] eqn:Hsm; [|done].
    apply bool_decide_eq_true_2. intros i Hi.
    destruct (H k sm i eq_refl Hsm Hi) as (v & Hv & Hpos).
    unfold ext_of. by rewrite Hv.
Qed.

Lemma todo_checked_false s : todo_checked s = false → ¬ todo_ok s.
Proof. intros H Hok. apply todo_checked_ok in Hok. congruence. Qed.

Lemma ext_lt_checked s b :
  bool_decide (map_Forall (λ _ v, v_ref_count_ext v < b) (variables s)) = true →
  ext_lt s b.
Proof. intros H. apply bool_decide_eq_true_1 in H. exact H. Qed.

(** Selecting a stream does not keep the property of the active stream:
    variable 1 lost its last external reference while stream 1 was
    active, and going back to stream 0 makes active a pending set that
    holds it. *)
Lemma device_set_breaks_todo_ok :
  jit_device_set (-1) 0 w_switched_dropped = Ok tt w_back ∧
  todo_ok (st w_switched_dropped) ∧ ¬ todo_ok (st w_back).
Proof.
  split; [by_value|]. split.
  - apply todo_checked_ok. vm_compute. reflexivity.
  - apply todo_checked_false. vm_compute. reflexivity.
Qed.

(** C6, as the code has it. For the pending set of the active stream, the
    property that every id in it is a live variable with a nonzero
    external reference count is kept by [jit_dec_ref_ext] and by a trace
    append on which no 32-bit count wraps around; [jit_device_set] does
    not keep it, so it is not an invariant of the state. When
    [jit_dec_ref_ext] takes the last external reference of a variable,
    its id leaves the pending set of the stream that is active at that
    moment, and the variable stays in the table with external count 0 if
    its internal count is not 0. The pending sets of the other streams
    are not touched. *)
Theorem pending_set_active_stream cuda sn impl :
  (∀ index w w',
     jit_dec_ref_ext cuda index w = Ok tt w' →
     (todo_ok (st w) → todo_ok (st w')) ∧
     active_stream (st w') = active_stream (st w) ∧
     (∀ k, active_stream (st w) ≠ Some k →
           streams (st w') !! k = streams (st w) !! k) ∧
     (∀ v, variables (st w) !! index = Some v → index ≠ 0 →
           v_ref_count_ext v = 1 →
           (∀ k, active_stream (st w) = Some k → ¬ in_todo (st w') k index) ∧
           (v_ref_count_int v ≠ 0 →
            variables (st w') !! index = Some (set_ref_count_ext 0 v)))) ∧
  (∀ c w idx w',
     run_append cuda sn impl c w = Ok idx w' →
     no_wrap (st (base_world impl c w)) →
     todo_ok (st (base_world impl c w)) →
     todo_ok (st w')) ∧
  (∃ w w', jit_device_set (-1) 0 w = Ok tt w' ∧
           todo_ok (st w) ∧ ¬ todo_ok (st w')).
Proof.
  split_and!.
  - intros index w w' Hrun.
    pose proof (wp_elim _ _ _ _ _
      (proj1 (dec_ref_fuel_post cuda (dec_ref_fuel (st w))) index w) Hrun)
      as [(Hact & _ & _ & _ & Hother) Hok].
    split_and!; [done | done | done |].
    intros v Hv Hne Hone.
    destruct (dec_ext_step _ _ _ _ _ _ Hv Hne Hone Hrun)
      as (k & sm & Hk & Hsm & Hstep). simpl in Hstep.
    destruct (decide (v_ref_count_int v = 0)) as [Hi|Hi].
    + split; [|done].
      intros k' Hk' (sm' & Hsm' & Hin).
      assert (k' = k) as -> by congruence.
      match type of Hstep with
      | jit_var_free_with _ ?di ?de _ ?w0 = _ =>
          assert (Hwp : wp (jit_var_free_with cuda di de index)
                          (λ _ w', dec_post w0 w') w0)
      end.
      { apply free_dec_post;
          [apply (proj2 (dec_ref_fuel_post cuda _))
          |apply (proj1 (dec_ref_fuel_post cuda _)) |].
        simpl. intros v0. rewrite lookup_insert_eq. by intros [= <-]. }
      destruct (wp_elim _ _ _ _ _ Hwp Hstep) as [(_ & _ & _ & Hsub & _) _].
      destruct (Hsub _ _ Hsm') as (sm0 & Hsm0 & Hsubset). simpl in Hsm0.
      rewrite lookup_insert_eq in Hsm0. injection Hsm0 as <-. simpl in Hsubset.
      apply Hsubset in Hin. apply elem_of_difference in Hin as [_ Hin].
      apply Hin. by apply elem_of_singleton.
    + subst w'. simpl. split.
      * intros k' Hk' (sm' & Hsm' & Hin).
        assert (k' = k) as -> by congruence.
        simpl in Hsm'. rewrite lookup_insert_eq in Hsm'.
        injection Hsm' as <-. simpl in Hin.
        apply elem_of_difference in Hin as [_ Hin].
        apply Hin. by apply elem_of_singleton.
      * intros _. by rewrite lookup_insert_eq.
  - intros c w idx w' Hrun Hnw Hok.
    pose proof (wp_elim _ _ _ _ _ (run_append_spec cuda sn impl c w) Hrun)
      as (k & v & _ & _ & _ & _ & Hnode & Htail).
    destruct Hnode as (_ & _ & _ & _ & _ & Hext & _).
    destruct (prelude_todo_ok cuda c _ Hnw Hok) as [Hok' Hlt'].
    by eapply tail_post_todo_ok.
  - exists w_switched_dropped, w_back. exact device_set_breaks_todo_ok.
Qed.

Lemma pending_set_active_stream_witness :
  (¬ in_todo (st w_used_dropped) (stream_key (-1) 0) 1 ∧
   ext_of (st w_used_dropped) 1 = 0 ∧
   is_Some (variables (st w_used_dropped) !! 1)) ∧
  todo_ok (st w_used_dropped) ∧
  todo_ok (st w_two_sum) ∧
  todo_ok (st w_dirty_fma).
Proof.
  assert (Hdrop : jit_dec_ref_ext false 1 w_used = Ok tt w_used_dropped)
    by by_value.
  assert (Hsum : run_append false false (jit_eval_model false)
                   (Append2 EnokiType.Float32 add_stmt 1 2) w_two = Ok 3 w_two_sum)
    by by_value.
  assert (Hfma : run_append false false (jit_eval_model false)
                   (Append3 EnokiType.Float32 fma_stmt 1 2 2) w_dirty_pair
                 = Ok 3 w_dirty_fma)
    by by_value.
  assert (Hused : todo_ok (st w_used))
    by (apply todo_checked_ok; vm_compute; reflexivity).
  assert (Hnw2 : no_wrap (st (base_world (jit_eval_model false)
                                (Append2 EnokiType.Float32 add_stmt 1 2) w_two)))
    by (apply ext_lt_checked; vm_compute; reflexivity).
  assert (Hok2 : todo_ok (st (base_world (jit_eval_model false)
                                (Append2 EnokiType.Float32 add_stmt 1 2) w_two)))
    by (apply todo_checked_ok; vm_compute; reflexivity).
  assert (Hnw3 : no_wrap (st (base_world (jit_eval_model false)
                                (Append3 EnokiType.Float32 fma_stmt 1 2 2)
                                w_dirty_pair)))
    by (apply ext_lt_checked; vm_compute; reflexivity).
  assert (Hok3 : todo_ok (st (base_world (jit_eval_model false)
                                (Append3 EnokiType.Float32 fma_stmt 1 2 2)
                                w_dirty_pair)))
    by (apply todo_checked_ok; vm_compute; reflexivity).
  destruct (proj1 (pending_set_active_stream false true (jit_eval_model false))
              1 w_used w_used_dropped Hdrop)
    as (Hkeep & _ & _ & H).
  destruct (H _ ltac:(vm_compute; reflexivity) ltac:(discriminate)
              ltac:(vm_compute; reflexivity)) as [Hout Hlive].
  split_and!.
  - apply Hout. vm_compute. reflexivity.
  - unfold ext_of. rewrite Hlive; [reflexivity|]. vm_compute. discriminate.
  - rewrite Hlive; [eauto|]. vm_compute. discriminate.
  - exact (Hkeep Hused).
  - exact (proj1 (proj2 (pending_set_active_stream false false
                           (jit_eval_model false)))
             _ _ _ _ Hsum Hnw2 Hok2).
  - exact (proj1 (proj2 (pending_set_active_stream false false
                           (jit_eval_model false)))
             _ _ _ _ Hfma Hnw3 Hok3).
Defined.

(** C6 as stated fails. Variable 1 was appended on stream 0; its last
    external reference is dropped while stream 1 is active, and the id
    stays in the pending set of stream 0 with external count 0. Going
    back to stream 0 then makes that pending set the one of the active
    stream. And a trace append that finds a node with [UINT32_MAX]
    external references leaves it in the pending set with count 0. *)
Lemma pending_set_other_stream :
  ¬ spec_pending_invariant ∧
  (jit_dec_ref_ext false 1 w_switched = Ok tt w_switched_dropped ∧
   in_todo (st w_switched_dropped) (stream_key (-1) 0) 1 ∧
   ext_of (st w_switched_dropped) 1 = 0) ∧
  (jit_device_set (-1) 0 w_switched_dropped = Ok tt w_back ∧
   todo_ok (st w_switched_dropped) ∧ ¬ todo_ok (st w_back)) ∧
  (run_append false true (jit_eval_model false)
     (Append0 EnokiType.Float32 mov_half) w_full = Ok 1 w_full_again ∧
   todo_ok (st w_full) ∧ ¬ todo_ok (st w_full_again)).
Proof.
  assert (Hrun : jit_dec_ref_ext false 1 w_switched = Ok tt w_switched_dropped)
    by by_value.
  split_and!.
  - intros H.
    assert (Hbefore : pending_positive (st w_switched)).
    { apply (bool_decide_eq_true_1 _). vm_refl. }
    assert (Hafter : ¬ pending_positive (st w_switched_dropped)).
    { apply (bool_decide_eq_false_1 _). vm_refl. }
    apply Hafter. apply (H false 1 w_switched w_switched_dropped Hrun).
    exact Hbefore.
  - exact Hrun.
  - eexists. split; [vm_compute; reflexivity|]. vm_compute. reflexivity.
  - vm_compute. reflexivity.
  - exact (proj1 device_set_breaks_todo_ok).
  - exact (proj1 (proj2 device_set_breaks_todo_ok)).
  - exact (proj2 (proj2 device_set_breaks_todo_ok)).
  - by_value.
  - apply todo_checked_ok. vm_compute. reflexivity.
  - apply todo_checked_false. vm_compute. reflexivity.
Qed.

(** ** The recursion of the reference drops terminates *)

Lemma shrinks_size w w' :
  shrinks w w' → (size (variables (st w')) ≤ size (variables (st w)))%nat.
Proof.
  intros (_ & Hv & _). rewrite <- !size_dom. apply subseteq_size.
  intros i Hi. apply elem_of_dom in Hi. apply elem_of_dom.
  destruct (variables (st w) !! i) eqn:E; [eauto|].
  rewrite (Hv _ E) in Hi. by destruct Hi.
Qed.

Lemma bind_terminates {A B} (m : M A) (k : A → M B) w :
  m w ≠ Diverge →
  (∀ a w1, m w = Ok a w1 → k a w1 ≠ Diverge) →
  bind m k w ≠ Diverge.
Proof.
  intros Hm Hk. unfold bind. destruct (m w) eqn:E; try done. by apply Hk.
Qed.

Lemma dec_chain_terminates cuda fuel d0 d1 d2 e w :
  (∀ i w, (size (variables (st w)) < fuel)%nat →
          jit_dec_ref_int_fuel cuda fuel i w ≠ Diverge) →
  (∀ i w, (size (variables (st w)) < fuel)%nat →
          jit_dec_ref_ext_fuel cuda fuel i w ≠ Diverge) →
  (size (variables (st w)) < fuel)%nat →
  (jit_dec_ref_int_fuel cuda fuel d0 ;;;
   jit_dec_ref_int_fuel cuda fuel d1 ;;;
   jit_dec_ref_int_fuel cuda fuel d2 ;;;
   jit_dec_ref_ext_fuel cuda fuel e) w ≠ Diverge.
Proof.
  intros Hi He Hsz.
  assert (Hstep : ∀ i w w1, jit_dec_ref_int_fuel cuda fuel i w = Ok tt w1 →
            (size (variables (st w1)) ≤ size (variables (st w)))%nat).
  { intros i w0 w1 Hr. apply shrinks_size.
    apply (wp_elim _ _ _ _ _ (proj2 (dec_ref_fuel_post cuda fuel) i w0) Hr). }
  apply bind_terminates; [by apply Hi|]. intros [] w1 H1.
  pose proof (Hstep _ _ _ H1).
  apply bind_terminates; [apply Hi; lia|]. intros [] w2 H2.
  pose proof (Hstep _ _ _ H2).
  apply bind_terminates; [apply Hi; lia|]. intros [] w3 H3.
  pose proof (Hstep _ _ _ H3).
  apply He. lia.
Qed.

Lemma free_terminates cuda fuel index w :
  (∀ i w, (size (variables (st w)) < fuel)%nat →
          jit_dec_ref_int_fuel cuda fuel i w ≠ Diverge) →
  (∀ i w, (size (variables (st w)) < fuel)%nat →
          jit_dec_ref_ext_fuel cuda fuel i w ≠ Diverge) →
  (size (variables (st w)) ≤ fuel)%nat →
  jit_var_free_with cuda (jit_dec_ref_int_fuel cuda fuel)
    (jit_dec_ref_ext_fuel cuda fuel) index w ≠ Diverge.
Proof.
  intros Hi He Hsz. unfold jit_var_free_with.
  unfold bind at 1, get.
  destruct (variables (st w) !! index) as [v|] eqn:Hv; [|done].
  assert (Hlt : ∀ s, variables s = variables (st w) →
            (size (delete index (variables s)) < fuel)%nat).
  { intros s ->. rewrite map_size_delete, Hv.
    assert (size (variables (st w)) ≠ 0%nat).
    { intros Hz. apply map_size_empty_inv in Hz. rewrite Hz in Hv.
      by rewrite lookup_empty in Hv. }
    lia. }
  apply bind_terminates; [done|]. intros [] w1 [= <-].
  apply bind_terminates; [done|]. intros [] w2 [= <-].
  apply bind_terminates; [by destruct (_ && _)|]. intros [] w3 H3.
  assert (Hv3 : variables (st w3) = variables (st w)).
  { destruct (_ && _); by injection H3 as <-. }
  apply bind_terminates.
  { destruct (v_direct_pointer v); [|done].
    unfold bind, get. simpl. by destruct (variable_from_ptr (st w3) !! v_data v). }
  intros [] w4 H4.
  assert (Hv4 : variables (st w4) = variables (st w)).
  { destruct (v_direct_pointer v); [|by injection H4 as <-].
    unfold bind, get in H4. simpl in H4.
    destruct (variable_from_ptr (st w3) !! v_data v); [|done].
    by injection H4 as <-. }
  apply bind_terminates; [done|]. intros [] w5 [= <-].
  apply dec_chain_terminates; [done | done |]. simpl. by apply Hlt.
Qed.

Lemma dec_ref_fuel_terminates cuda fuel :
  (∀ index w, (size (variables (st w)) < fuel)%nat →
              jit_dec_ref_ext_fuel cuda fuel index w ≠ Diverge) ∧
  (∀ index w, (size (variables (st w)) < fuel)%nat →
              jit_dec_ref_int_fuel cuda fuel index w ≠ Diverge).
Proof.
  induction fuel as [|fuel [IHe IHi]]; (split; intros index w Hsz); [lia | lia | |].
  - cbn [jit_dec_ref_ext_fuel]. unfold bind at 1, get.
    destruct (decide _); [done|].
    unfold bind at 1, jit_var. unfold bind at 1, get.
    destruct (variables (st w) !! index) as [v|] eqn:Hv; [|done].
    simpl. destruct (decide _); [done|].
    apply bind_terminates; [done|]. intros [] w1 [= <-].
    apply bind_terminates; [done|]. intros [] w2 [= <-].
    apply bind_terminates.
    { destruct (decide _); [|done]. unfold todo_erase, bind, get. simpl.
      destruct (active_stream (st w)); [|done].
      by destruct (streams (st w) !! _). }
    intros [] w3 H3.
    destruct (decide (_ ∧ _)); [|done].
    apply free_terminates; [done | done |].
    assert (variables (st w3) = <[index := set_ref_count_ext (v_ref_count_ext v - 1) v]>
                                  (variables (st w))) as ->.
    { destruct (decide _); [|by injection H3 as <-].
      unfold todo_erase, bind, get in H3. simpl in H3.
      destruct (active_stream (st w)); [|done].
      destruct (streams (st w) !! _); [|done]. by injection H3 as <-. }
    rewrite map_size_insert, Hv. unfold id. lia.
  - cbn [jit_dec_ref_int_fuel]. unfold bind at 1, get.
    destruct (decide _); [done|].
    unfold bind at 1, jit_var. unfold bind at 1, get.
    destruct (variables (st w) !! index) as [v|] eqn:Hv; [|done].
    simpl. destruct (decide _); [done|].
    apply bind_terminates; [done|]. intros [] w1 [= <-].
    apply bind_terminates; [done|]. intros [] w2 [= <-].
    destruct (decide (_ ∧ _)); [|done].
    apply free_terminates; [done | done |]. simpl.
    rewrite map_size_insert, Hv. unfold id. lia.
Qed.

(** The bound [dec_ref_fuel] on the depth of the recursion is enough:
    [jit_dec_ref_ext] and [jit_dec_ref_int] always come to an outcome. *)
Lemma jit_dec_ref_total cuda index w :
  jit_dec_ref_ext cuda index w ≠ Diverge ∧
  jit_dec_ref_int cuda index w ≠ Diverge.
Proof.
  unfold jit_dec_ref_ext, jit_dec_ref_int, dec_ref_fuel. split.
  - apply (proj1 (dec_ref_fuel_terminates cuda _)). lia.
  - apply (proj2 (dec_ref_fuel_terminates cuda _)). lia.
Qed.

(** ** Pointer literals *)



Lemma dec_ref_fuel_zero cuda fuel w :
  jit_dec_ref_ext_fuel cuda (S fuel) 0 w = Ok tt w ∧
  jit_dec_ref_int_fuel cuda (S fuel) 0 w = Ok tt w.
Proof.
  split; simpl; unfold bind, get; simpl;
    (destruct (decide (0 = 0 ∨ variables (st w) = ∅)) as [_|Hn]; [done|]);
    exfalso; apply Hn; by left.
Qed.






(** ** Broadcasting *)

Section Broadcast.

Context (cuda sn : bool) (impl : State → Res State unit).

(** Operands of incompatible sizes: the 2-operand append raises the
    shape-mismatch error and leaves the world as it is. *)
Lemma append_2_mismatch type stmt a1 a2 v1 v2 k w :
  active_stream (st w) = Some k → a1 ≠ 0 → a2 ≠ 0 →
  variables (st w) !! a1 = Some v1 → variables (st w) !! a2 = Some v2 →
  ¬ sizes_ok (Append2 type stmt a1 a2) (st w) →
  jit_trace_append_2 cuda sn impl type stmt a1 a2 w
  = Raise (ErrIncompatibleSize [v_size v1; v_size v2] (default "" stmt)) w.
Proof.
  intros Hk H1 H2 Hv1 Hv2 Hbad.
  unfold jit_trace_append_2. unfold bind at 1, get. rewrite Hk.
  destruct (decide (a1 = 0 ∨ a2 = 0)) as [[?|?]|_]; [done..|].
  unfold bind at 1. rewrite (jit_var_live _ _ _ Hv1).
  unfold bind at 1. rewrite (jit_var_live _ _ _ Hv2).
  unfold bind at 1. simpl. destruct (decide _) as [|Hok]; [done|].
  exfalso. apply Hbad. unfold sizes_ok. simpl.
  rewrite !Forall_cons, Forall_nil. unfold size_of. rewrite Hv1, Hv2. simpl.
  split_and!; try done; apply scalar_or_max; tauto.
Qed.

Lemma append_3_mismatch type stmt a1 a2 a3 v1 v2 v3 k w :
  active_stream (st w) = Some k → a1 ≠ 0 → a2 ≠ 0 → a3 ≠ 0 →
  variables (st w) !! a1 = Some v1 → variables (st w) !! a2 = Some v2 →
  variables (st w) !! a3 = Some v3 →
  ¬ sizes_ok (Append3 type stmt a1 a2 a3) (st w) →
  jit_trace_append_3 cuda sn impl type stmt a1 a2 a3 w
  = Raise (ErrIncompatibleSize [v_size v1; v_size v2; v_size v3]
             (default "" stmt)) w.
Proof.
  intros Hk H1 H2 H3 Hv1 Hv2 Hv3 Hbad.
  unfold jit_trace_append_3. unfold bind at 1, get. rewrite Hk.
  destruct (decide (a1 = 0 ∨ a2 = 0 ∨ a3 = 0)) as [[?|[?|?]]|_]; [done..|].
  unfold bind at 1. rewrite (jit_var_live _ _ _ Hv1).
  unfold bind at 1. rewrite (jit_var_live _ _ _ Hv2).
  unfold bind at 1. rewrite (jit_var_live _ _ _ Hv3).
  unfold bind at 1. simpl. destruct (decide _) as [|Hok]; [done|].
  exfalso. apply Hbad. unfold sizes_ok. simpl.
  rewrite !Forall_cons, Forall_nil. unfold size_of. rewrite Hv1, Hv2, Hv3. simpl.
  split_and!; try done; apply scalar_or_max; tauto.
Qed.

Lemma cse_sizes_ok_bump_int a w :
  cse_sizes_ok (st w) → cse_sizes_ok (st (bump_int a w)).
Proof.
  unfold bump_int. destruct (variables (st w) !! a) as [v|] eqn:Hv; [|done].
  intros Hok key i v0. simpl. destruct (decide (a = i)) as [<-|Hne].
  - rewrite lookup_insert_eq. intros Hkey [= <-]. simpl. by apply (Hok key a).
  - rewrite lookup_insert_ne by done. apply Hok.
Qed.

Lemma cse_sizes_ok_bump_ext a w :
  cse_sizes_ok (st w) → cse_sizes_ok (st (bump_ext a w)).
Proof.
  unfold bump_ext. destruct (variables (st w) !! a) as [v|] eqn:Hv; [|done].
  intros Hok key i v0. simpl. destruct (decide (a = i)) as [<-|Hne].
  - rewrite lookup_insert_eq. intros Hkey [= <-]. simpl. by apply (Hok key a).
  - rewrite lookup_insert_ne by done. apply Hok.
Qed.

Lemma cse_sizes_ok_prelude c wb :
  cse_sizes_ok (st wb) → cse_sizes_ok (st (prelude cuda c wb)).
Proof.
  intros Hok. unfold prelude.
  assert (H1 : cse_sizes_ok (st (foldl (λ w a, bump_int a w) wb (operands c)))).
  { revert wb Hok. induction (operands c) as [|a l IH]; intros wb Hok; [done|].
    simpl. apply IH. by apply cse_sizes_ok_bump_int. }
  destruct (scatter_pin _ _ _) as [p|]; [|done].
  destruct (decide (p ≠ 0)); [|done]. by apply cse_sizes_ok_bump_ext.
Qed.

(** On a world whose CSE table agrees with the variables on their size, a
    successful trace append returns a variable of the size of its node:
    the maximum of the operand sizes, each operand being scalar or of
    that size. *)
Lemma trace_append_size c w idx w' :
  run_append cuda sn impl c w = Ok idx w' →
  cse_sizes_ok (st (base_world impl c w)) →
  sizes_ok c (st w) ∧ size_of (st w') idx = node_size c (st w).
Proof.
  intros Hrun Hcse.
  pose proof (wp_elim _ _ _ _ _ (run_append_spec cuda sn impl c w) Hrun)
    as (k & v & _ & _ & Hsz & _ & Hnode & Htail).
  split; [done|].
  destruct Hnode as (_ & _ & _ & Hsize & _).
  destruct Htail as (vo & sm & Hcase & Hvars & _).
  unfold size_of. rewrite Hvars, lookup_insert_eq. simpl.
  destruct Hcase as [(_ & _ & _ & -> & _)|(Hkey & Hvo & _)]; [done|].
  rewrite (cse_sizes_ok_prelude c _ Hcse _ _ _ Hkey Hvo). simpl. done.
Qed.

End Broadcast.

(** C2 fails on the code after a resize in place. The sum of the scalars 1
    and 2 is variable 3; [jit_var_set_size] changes its size to 10 and
    leaves its key in the CSE table as it was. The same sum, appended
    again, is found under that key: the call returns variable 3, of size
    10, for operands of sizes 1 and 1. *)
Theorem trace_append_reuses_resized_node :
  resize_sum w_init = Ok (3, 3) w_resized ∧
  size_of (st w_resized) 1 = 1 ∧ size_of (st w_resized) 2 = 1 ∧
  sizes_ok (Append2 EnokiType.Float32 add_stmt 1 2) (st w_resized) ∧
  node_size (Append2 EnokiType.Float32 add_stmt 1 2) (st w_resized) = 1 ∧
  jit_trace_append_2 false true (jit_eval_model false)
    EnokiType.Float32 add_stmt 1 2 w_resized = Ok 3 w_resized_again ∧
  size_of (st w_resized_again) 3 = 10.
Proof.
  split_and!.
  - by_value.
  - vm_refl.
  - vm_refl.
  - unfold sizes_ok. simpl. rewrite !Forall_cons, Forall_nil.
    split_and!; try done; left; vm_refl.
  - vm_refl.
  - by_value.
  - vm_refl.
Qed.

(** ** One live variable per tuple *)

(** C3 fails on the code after resizes. [make_twins] leaves the variables
    4 and 5 in the table, both unevaluated, with the same type, statement,
    operands and size. *)
Theorem cse_twins_after_resize :
  ∃ v4 v5,
    make_twins w_init = Ok (4, 5) w_twins ∧
    variables (st w_twins) !! 4 = Some v4 ∧
    variables (st w_twins) !! 5 = Some v5 ∧
    v_data v4 = 0 ∧ v_data v5 = 0 ∧
    mkVariableKey false v4 = mkVariableKey false v5 ∧
    mkVariableKey false v4
    = (false, EnokiType.Float32, neg_stmt, (3, 0, 0), 10).
Proof.
  eexists _, _.
  split_and!; [by_value | vm_compute; reflexivity ..].
Qed.

(** The key of a variable that was resized in place stays in the CSE
    table when the variable is freed, and the next append of the same
    statement terminates the process on the unknown id. *)
Lemma stale_key_after_resize :
  resize_release w_init = Ok tt w_stale ∧
  variables (st w_stale) = ∅ ∧
  variable_from_key (st w_stale) !! (false, EnokiType.Float32, mov_half, (0, 0, 0), 1)
  = Some 1 ∧
  jit_trace_append_0 false true EnokiType.Float32 mov_half w_stale
  = Fail (ErrUnknownVariable 1).
Proof.
  split_and!; [by_value | vm_refl ..].
Qed.

(** * Further properties of the code *)

(** What a call that returned has established follows from its [wp]. *)
Ltac wp_from H :=
  lazymatch type of H with
  | ?m ?w = Ok ?a ?w' =>
      pattern a, w';
      lazymatch goal with
      | |- ?F a w' => refine (wp_elim m F w a w' _ H); clear H
      end
  end.

(** ** Names of the variable types *)

(** X1. [jit_type_name] knows the types [jit_type_size] knows and, beyond
    them, [Float16] only; a name is three characters long, the call
    leaves the world alone, and different types have different names. *)
Theorem jit_type_name_table type w :
  (is_ok (jit_type_name type w)
   = is_ok (jit_type_size type w) || (type =? EnokiType.Float16)) ∧
  (∀ s w', jit_type_name type w = Ok s w' → w' = w ∧ String.length s = 3%nat) ∧
  (∀ type' s w1 w2,
     jit_type_name type w = Ok s w1 → jit_type_name type' w = Ok s w2 →
     type = type').
Proof.
  unfold jit_type_name, jit_type_size, jit_fail, ret.
  split_and!.
  - repeat (case_decide; [subst; reflexivity|]).
    simpl. symmetry. apply N.eqb_neq. done.
  - intros s w'. repeat (case_decide; [intros [= <- <-]; done|]). done.
  - intros type' s w1 w2.
    repeat (case_decide; [subst type; intros [= <- <-];
                          repeat (case_decide; [subst type'; by intros [= ?]|]); done|]).
    done.
Qed.

Lemma jit_type_name_table_witness :
  is_ok (jit_type_name EnokiType.Float16 w_init) = true ∧
  String.length "f32" = 3%nat.
Proof.
  split.
  - rewrite (proj1 (jit_type_name_table EnokiType.Float16 w_init)). reflexivity.
  - apply (proj1 (proj2 (jit_type_name_table EnokiType.Float32 w_init))
             "f32" w_init). reflexivity.
Defined.

(** ** What the trace appends refuse *)

Lemma first_unknown_cons s a l :
  first_unknown s (a :: l)
  = if decide (variables s !! a = None) then Some a else first_unknown s l.
Proof.
  unfold first_unknown. rewrite filter_cons. by destruct (decide _).
Qed.

(** X2. The checks of a trace append, in the order the code makes them.
    Without an active stream the call raises a jit error, whatever the
    operands are; with a stream, an operand [0] raises the error of an
    uninitialized variable; with a stream and operands that are not [0],
    the first operand that is not a live variable terminates the process.
    The jit errors leave the world as it was. *)
Theorem trace_append_refusals cuda sn impl c w :
  (active_stream (st w) = None →
   run_append cuda sn impl c w = Raise ErrStreamNotSet w) ∧
  (is_Some (active_stream (st w)) → 0 ∈ operands c →
   run_append cuda sn impl c w = Raise ErrUninitializedVariable w) ∧
  (∀ a, is_Some (active_stream (st w)) → 0 ∉ operands c →
        first_unknown (st w) (operands c) = Some a →
        run_append cuda sn impl c w = Fail (ErrUnknownVariable a)).
Proof.
  split_and!.
  - intros Hk.
    destruct c; simpl;
      unfold jit_trace_append_0, jit_trace_append_1, jit_trace_append_2,
        jit_trace_append_3; unfold bind at 1, get; by rewrite Hk.
  - intros [k Hk] Hz.
    destruct c as [t s|t s a1|t s a1 a2|t s a1 a2 a3]; simpl in *;
      [by apply elem_of_nil in Hz| | |];
      unfold jit_trace_append_1, jit_trace_append_2, jit_trace_append_3;
      unfold bind at 1, get; rewrite Hk; (destruct (decide _) as [|Hn]; [done|]);
      exfalso; apply Hn; rewrite !elem_of_cons, elem_of_nil in Hz; intuition congruence.
  - intros a [k Hk] Hz Hfirst.
    destruct c as [t s|t s a1|t s a1 a2|t s a1 a2 a3]; simpl in *;
      [done| | |];
      unfold jit_trace_append_1, jit_trace_append_2, jit_trace_append_3;
      unfold bind at 1, get; rewrite Hk;
      (destruct (decide _) as [Hn|_];
         [exfalso; apply Hz; rewrite !elem_of_cons; intuition congruence|]);
      rewrite !first_unknown_cons in Hfirst.
    + destruct (decide (variables (st w) !! a1 = None)) as [E1|E1]; [|done].
      injection Hfirst as <-. unfold bind at 1. by rewrite (jit_var_unknown _ _ E1).
    + destruct (variables (st w) !! a1) as [v1|] eqn:E1; simpl in Hfirst.
      2:{ injection Hfirst as <-. unfold bind at 1. by rewrite (jit_var_unknown _ _ E1). }
      unfold bind at 1. rewrite (jit_var_live _ _ _ E1).
      destruct (variables (st w) !! a2) as [v2|] eqn:E2; simpl in Hfirst; [done|].
      injection Hfirst as <-. unfold bind at 1. by rewrite (jit_var_unknown _ _ E2).
    + destruct (variables (st w) !! a1) as [v1|] eqn:E1; simpl in Hfirst.
      2:{ injection Hfirst as <-. unfold bind at 1. by rewrite (jit_var_unknown _ _ E1). }
      unfold bind at 1. rewrite (jit_var_live _ _ _ E1).
      destruct (variables (st w) !! a2) as [v2|] eqn:E2; simpl in Hfirst.
      2:{ injection Hfirst as <-. unfold bind at 1. by rewrite (jit_var_unknown _ _ E2). }
      unfold bind at 1. rewrite (jit_var_live _ _ _ E2).
      destruct (variables (st w) !! a3) as [v3|] eqn:E3; simpl in Hfirst; [done|].
      injection Hfirst as <-. unfold bind at 1. by rewrite (jit_var_unknown _ _ E3).
Qed.

Lemma trace_append_refusals_witness :
  run_append false true (jit_eval_model false)
    (Append1 EnokiType.Float32 neg_stmt 1) w_init
  = Raise ErrStreamNotSet w_init ∧
  run_append false true (jit_eval_model false)
    (Append2 EnokiType.Float32 add_stmt 1 0) w_one
  = Raise ErrUninitializedVariable w_one ∧
  run_append false true (jit_eval_model false)
    (Append2 EnokiType.Float32 add_stmt 1 7) w_one
  = Fail (ErrUnknownVariable 7).
Proof.
  assert (Hk : is_Some (active_stream (st w_one))).
  { exists (stream_key (-1) 0). vm_compute. reflexivity. }
  split_and!.
  - apply (proj1 (trace_append_refusals false true (jit_eval_model false)
                    (Append1 EnokiType.Float32 neg_stmt 1) w_init)).
    reflexivity.
  - apply (proj1 (proj2 (trace_append_refusals false true (jit_eval_model false)
                           (Append2 EnokiType.Float32 add_stmt 1 0) w_one)));
      [exact Hk|].
    simpl. rewrite !elem_of_cons. auto.
  - apply (proj2 (proj2 (trace_append_refusals false true (jit_eval_model false)
                           (Append2 EnokiType.Float32 add_stmt 1 7) w_one)));
      [exact Hk| |].
    + simpl. rewrite !elem_of_cons, elem_of_nil. intros [|[|[]]]; discriminate.
    + vm_compute. reflexivity.
Defined.

(** ** Taking and dropping references *)

(** A drop that is not the last one only lowers the count. *)
Lemma dec_ref_ext_keep cuda index v w :
  index ≠ 0 → variables (st w) !! index = Some v → 1 < v_ref_count_ext v →
  jit_dec_ref_ext cuda index w
  = Ok tt (mkWorld
             (upd_variables
                <[index := set_ref_count_ext (v_ref_count_ext v - 1) v]> (st w))
             (EvLog (LogDecRefExt index (v_ref_count_ext v - 1)) :: events w)).
Proof.
  intros Hne Hv Hc.
  unfold jit_dec_ref_ext, dec_ref_fuel. cbn [jit_dec_ref_ext_fuel].
  unfold bind at 1, get.
  destruct (decide (index = 0 ∨ variables (st w) = ∅)) as [[?|He]|_]; [done| |].
  { rewrite He in Hv. by rewrite lookup_empty in Hv. }
  unfold bind at 1. rewrite (jit_var_live _ _ _ Hv).
  destruct (decide (v_ref_count_ext v = 0)) as [Hz|_]; [lia|].
  unfold bind at 1, jit_log, emit. unfold bind at 1, modify.
  cbv zeta. simpl.
  destruct (decide (v_ref_count_ext v - 1 = 0)) as [Hz|_]; [lia|].
  unfold bind at 1, ret.
  destruct (decide (v_ref_count_ext v - 1 = 0 ∧ _)) as [[Hz _]|_]; [lia|].
  done.
Qed.

Lemma set_ref_count_ext_back v c :
  set_ref_count_ext (v_ref_count_ext v) (set_ref_count_ext c v) = v.
Proof. by destruct v. Qed.

Lemma upd_variables_back s index v v' :
  variables s !! index = Some v →
  upd_variables <[index := v]> (upd_variables <[index := v']> s) = s.
Proof.
  intros Hv. destruct s. unfold upd_variables. simpl in *. f_equal.
  rewrite insert_insert_eq. by apply insert_id.
Qed.

(** X3. A reference taken and dropped again. On a live variable that has
    an external reference, and fewer than [UINT32_MAX] of them,
    [jit_inc_ref_ext] followed by [jit_dec_ref_ext] leaves the state as it
    was: the two calls only write their lines to the log. *)
Theorem ref_ext_round_trip cuda index v w :
  index ≠ 0 → variables (st w) !! index = Some v →
  0 < v_ref_count_ext v → v_ref_count_ext v < UINT32_MAX →
  (jit_inc_ref_ext index ;;; jit_dec_ref_ext cuda index) w
  = Ok tt (mkWorld (st w)
             (EvLog (LogDecRefExt index (v_ref_count_ext v)) ::
              EvLog (LogIncRefExt index (v_ref_count_ext v + 1)) :: events w)).
Proof.
  intros Hne Hv Hpos Hlt.
  assert (Hw : wrap32 (v_ref_count_ext v + 1) = v_ref_count_ext v + 1).
  { apply wrap32_small. unfold UINT32_MAX in Hlt. lia. }
  assert (Hinc : jit_inc_ref_ext index w = Ok tt (bump_ext index w)).
  { unfold jit_inc_ref_ext. destruct (decide (index ≠ 0)); [|done].
    unfold bind at 1. rewrite (jit_var_live _ _ _ Hv).
    unfold jit_inc_ref_ext_var, bump_ext, bind, get, put, jit_log, emit. simpl.
    by rewrite Hv. }
  rewrite (bind_run _ _ _ _ _ Hinc).
  unfold bump_ext. rewrite Hv. cbv zeta. rewrite Hw.
  erewrite dec_ref_ext_keep; [|done|simpl; apply lookup_insert_eq|simpl; lia].
  simpl (v_ref_count_ext (set_ref_count_ext _ _)).
  replace (v_ref_count_ext v + 1 - 1) with (v_ref_count_ext v) by lia.
  simpl (st _). rewrite set_ref_count_ext_back.
  by rewrite upd_variables_back.
Qed.

Lemma ref_ext_round_trip_witness :
  (jit_inc_ref_ext 1 ;;; jit_dec_ref_ext false 1) w_one
  = Ok tt (mkWorld (st w_one)
             (EvLog (LogDecRefExt 1 1) :: EvLog (LogIncRefExt 1 2) :: events w_one)).
Proof.
  assert (Hv : variables (st w_one) !! 1 = Some (set_ref_count_ext 1 leaf_node))
    by (vm_compute; reflexivity).
  apply (ref_ext_round_trip false 1 _ w_one ltac:(discriminate) Hv);
    reflexivity.
Defined.

(** ** Registering memory *)

(** X4. A variable registered for a memory region: on success the size
    was not zero, the returned id is live and holds one more external
    reference than before, and the streams, their pending sets, the
    active stream and the table of pointer literals are as they were; no
    active stream is needed. A fresh id carries the given pointer and
    ownership flag and no statement. A size of zero is a jit error that
    leaves the world alone. *)
Theorem jit_var_register_outcome cuda sn type ptr size free w :
  (size = 0 →
   jit_var_register cuda sn type ptr size free w = Raise ErrRegisterSizeZero w) ∧
  (∀ idx w',
     jit_var_register cuda sn type ptr size free w = Ok idx w' →
     size ≠ 0 ∧
     streams (st w') = streams (st w) ∧
     active_stream (st w') = active_stream (st w) ∧
     variable_from_ptr (st w') = variable_from_ptr (st w) ∧
     is_Some (variables (st w') !! idx) ∧
     ext_of (st w') idx = wrap32 (ext_of (st w) idx + 1) ∧
     (variables (st w) !! idx = None →
      idx = variable_index (st w) ∧
      variables (st w') !! idx
      = Some (set_ref_count_ext 1
                (set_tsize 1
                   (set_free_variable free
                      (set_size (wrap32 size)
                         (set_data ptr (set_type type Var_new)))))))).
Proof.
  split.
  - intros ->. unfold jit_var_register. by destruct (decide (0 = 0)).
  - intros idx w' Hrun. unfold jit_var_register in Hrun.
    destruct (decide (size = 0)) as [|Hsz]; [done|]. split; [done|].
    wp_from Hrun. apply wp_bind, wp_jit_trace_append_var.
    + intros Hk Hv. wp_pure. apply wp_bind, wp_jit_inc_ref_ext_var.
      intros v0 Hv0. simpl in Hv0. rewrite lookup_insert_eq in Hv0.
      injection Hv0 as <-. simpl. wp_pure. simpl.
      unfold ext_of. simpl. rewrite Hv, !insert_insert_eq, !lookup_insert_eq.
      simpl. split_and!; done.
    + intros i vo Hk Hvo. wp_pure. apply wp_bind, wp_jit_inc_ref_ext_var.
      intros v0 Hv0. simpl in Hv0. rewrite Hvo in Hv0. injection Hv0 as <-.
      simpl. wp_pure. simpl.
      unfold ext_of. simpl. rewrite Hvo, !lookup_insert_eq. simpl.
      split_and!; done.
Qed.

Lemma jit_var_register_outcome_witness :
  jit_var_register false true EnokiType.Float32 4096 0 true w_init
  = Raise ErrRegisterSizeZero w_init ∧
  streams (st w_reg) = streams (st w_init) ∧ ext_of (st w_reg) 1 = 1.
Proof.
  split.
  - apply (proj1 (jit_var_register_outcome false true EnokiType.Float32
                    4096 0 true w_init)). reflexivity.
  - assert (Hrun : jit_var_register false true EnokiType.Float32 4096 16 true w_init
                   = Ok 1 w_reg) by by_value.
    destruct (proj2 (jit_var_register_outcome false true EnokiType.Float32
                       4096 16 true w_init) 1 w_reg Hrun)
      as (_ & Hs & _ & _ & _ & He & _).
    split; [exact Hs|]. rewrite He. vm_compute. reflexivity.
Defined.

(** X5. Registrations hand a null statement to the string functions.
    [jit_var_register] and the first [jit_var_register_ptr] of an address
    append a node whose [stmt] is null: the call is undefined where
    [strdup] does not accept a null pointer, and in a CUDA build it is
    undefined for every type but [Float32], pointer literals included,
    because [strstr] then searches the null statement. *)
Theorem register_null_statement cuda sn w :
  (∀ type ptr size free,
     size ≠ 0 → sn = false ∨ (cuda = true ∧ type ≠ EnokiType.Float32) →
     jit_var_register cuda sn type ptr size free w = Undefined) ∧
  (∀ ptr,
     variable_from_ptr (st w) !! ptr = None → sn = false ∨ cuda = true →
     jit_var_register_ptr cuda sn ptr w = Undefined).
Proof.
  split.
  - intros type ptr size free Hsz Hbad. unfold jit_var_register.
    destruct (decide (size = 0)); [done|].
    unfold bind at 1, jit_trace_append_var. unfold bind at 1, strdup. simpl.
    destruct Hbad as [->|[-> Ht]]; [done|].
    destruct sn; [|done]. unfold ret. unfold bind at 1. simpl.
    by rewrite (proj2 (N.eqb_neq _ _) Ht).
  - intros ptr Hp Hbad. unfold jit_var_register_ptr.
    unfold bind at 1, get. rewrite Hp.
    unfold bind at 1, jit_trace_append_var. unfold bind at 1, strdup. simpl.
    destruct Hbad as [->| ->]; [done|].
    by destruct sn.
Qed.

Lemma register_null_statement_witness :
  jit_var_register true true EnokiType.Int32 4096 16 true w_init = Undefined ∧
  jit_var_register_ptr false false 4096 w_init = Undefined.
Proof.
  split.
  - apply (proj1 (register_null_statement true true w_init));
      [discriminate|]. right. split; [reflexivity|discriminate].
  - apply (proj2 (register_null_statement false false w_init));
      [reflexivity|]. by left.
Defined.

(** ** Hits and misses of the CSE table *)

Lemma trace_append_var_hit cuda sn v idx vo w :
  stmt_defined cuda sn v →
  variable_from_key (st w) !! mkVariableKey cuda v = Some idx →
  variables (st w) !! idx = Some vo →
  jit_trace_append_var cuda sn v w = Ok (idx, vo) w.
Proof.
  intros Hd Hk Hvo. pose proof (set_stmt_id v) as Hv.
  unfold stmt_defined in Hd.
  unfold jit_trace_append_var, strdup, jit_var, bind, ret, undefined, get.
  destruct (v_stmt v) as [str|] eqn:Es.
  - rewrite !Hv, ?Es.
    destruct (cuda && negb (v_type v =? EnokiType.Float32));
      [rewrite (Hd eq_refl)|]; by rewrite Hk, Hvo.
  - destruct Hd as [-> Hc]. rewrite !Hv, ?Es, Hc. by rewrite Hk, Hvo.
Qed.

Lemma trace_append_var_Ok cuda sn v r w w' :
  jit_trace_append_var cuda sn v w = Ok r w' →
  stmt_defined cuda sn v ∧
  variable_from_key (st w') !! mkVariableKey cuda v = Some r.1 ∧
  variables (st w') !! r.1 = Some r.2 ∧
  streams (st w') = streams (st w) ∧
  active_stream (st w') = active_stream (st w) ∧
  variable_from_ptr (st w') = variable_from_ptr (st w) ∧
  events w' = events w.
Proof.
  pose proof (set_stmt_id v) as Hv.
  unfold stmt_defined.
  unfold jit_trace_append_var, strdup, jit_var, bind, ret, undefined,
    get, put, jit_fail.
  destruct (v_stmt v) as [str|] eqn:Es.
  - rewrite !Hv, ?Es.
    destruct (cuda && negb (v_type v =? EnokiType.Float32));
      [destruct (strstr str ".ftz"); [done|] |];
      (destruct (variable_from_key (st w) !! mkVariableKey cuda v) as [idx|] eqn:Ek;
       [ destruct (variables (st w) !! idx) as [vo|] eqn:Evo; [|done];
         intros [= <- <-]; simpl; by rewrite Ek, Evo
       | simpl; destruct (variables (st w) !! variable_index (st w)) eqn:Ev;
         [done|]; intros [= <- <-]; simpl; by rewrite !lookup_insert_eq ]).
  - destruct sn; [|done]. rewrite !Hv, ?Es.
    destruct (cuda && negb (v_type v =? EnokiType.Float32)); [done|].
    destruct (variable_from_key (st w) !! mkVariableKey cuda v) as [idx|] eqn:Ek;
      [ destruct (variables (st w) !! idx) as [vo|] eqn:Evo; [|done];
        intros [= <- <-]; simpl; by rewrite Ek, Evo
      | simpl; destruct (variables (st w) !! variable_index (st w)) eqn:Ev;
        [done|]; intros [= <- <-]; simpl; by rewrite !lookup_insert_eq ].
Qed.

Lemma inc_ref_ext_var_live index v w :
  variables (st w) !! index = Some v →
  jit_inc_ref_ext_var index w = Ok tt (bump_ext index w).
Proof.
  intros Hv.
  unfold jit_inc_ref_ext_var, bump_ext, bind, get, put, jit_log, emit. simpl.
  by rewrite Hv.
Qed.

Lemma inc_ref_int_var_live index v w :
  variables (st w) !! index = Some v →
  jit_inc_ref_int_var index w = Ok tt (bump_int index w).
Proof.
  intros Hv.
  unfold jit_inc_ref_int_var, bump_int, bind, get, put, jit_log, emit. simpl.
  by rewrite Hv.
Qed.

(** ** Selecting a stream *)

(** X7. [jit_device_set]: after a successful call the stream of the given
    device and stream number exists and is the active one, the streams
    that existed keep their pending sets, the variables are untouched,
    and the same call again changes nothing. The host device [-1] is
    always accepted. The only jit error is the one of a device that does
    not exist, raised when the stream would have to be created, and it
    leaves the world as it was. *)
Theorem jit_device_set_outcome device stream w :
  (∀ w', jit_device_set device stream w = Ok tt w' →
     active_stream (st w') = Some (stream_key device stream) ∧
     is_Some (streams (st w') !! stream_key device stream) ∧
     (∀ k sm, streams (st w) !! k = Some sm → streams (st w') !! k = Some sm) ∧
     variables (st w') = variables (st w) ∧
     jit_device_set device stream w' = Ok tt w') ∧
  (device = (-1)%Z → is_ok (jit_device_set device stream w) = true) ∧
  (∀ e w', jit_device_set device stream w = Raise e w' →
     e = ErrInvalidDevice ∧ w' = w ∧ device ≠ (-1)%Z ∧
     streams (st w) !! stream_key device stream = None).
Proof.
  unfold jit_device_set, device_context.
  unfold bind, get, ret, jit_raise, jit_log, emit, modify, undefined.
  cbv zeta. simpl.
  destruct (streams (st w) !! stream_key device stream) as [sm0|] eqn:Hs.
  - destruct (decide (active_stream (st w) = Some (stream_key device stream)))
      as [Ha|Ha].
    + split_and!; [|done|done].
      intros w' [= <-]. split_and!; try done.
      unfold jit_device_set, bind, get. rewrite Hs.
      by destruct (decide _).
    + destruct (has_cuda (st w) && negb (device =? -1)%Z &&
                negb ((0 <=? device)%Z && (device <? Z.of_N (devices (st w)))%Z))
        eqn:Hctx.
      * split_and!; [done| |done].
        intros ->. by rewrite andb_false_r in Hctx.
      * split_and!; [|done|done].
        intros w' [= <-]. simpl. split_and!; try done.
        unfold jit_device_set, bind, get. simpl. rewrite Hs.
        by destruct (decide _).
  - destruct (negb (device =? -1)%Z &&
              (negb (has_cuda (st w)) || (Z.of_N (devices (st w)) <=? device)%Z))
      eqn:Hbad.
    + split_and!; [done| |].
      * intros ->. done.
      * intros e w' [= <- <-]. split_and!; try done.
        intros ->. done.
    + destruct (has_cuda (st w) && negb (device =? -1)%Z &&
                negb ((0 <=? device)%Z && (device <? Z.of_N (devices (st w)))%Z))
        eqn:Hctx.
      * split_and!; [done| |done].
        intros ->. by rewrite andb_false_r in Hctx.
      * split_and!; [|done|done].
        intros w' [= <-]. simpl. rewrite lookup_insert_eq. split_and!; try done.
        -- intros k sm Hk. rewrite lookup_insert_ne; [done|]. intros <-.
           by rewrite Hs in Hk.
        -- by destruct (decide _).
Qed.

Lemma jit_device_set_outcome_witness :
  active_stream (st w_streams) = Some (stream_key (-1) 0) ∧
  jit_device_set (-1) 0 w_streams = Ok tt w_streams.
Proof.
  assert (Hrun : jit_device_set (-1) 0 w_init = Ok tt w_streams) by by_value.
  destruct (proj1 (jit_device_set_outcome (-1) 0 w_init) w_streams Hrun)
    as (Ha & _ & _ & _ & Hagain).
  split; [exact Ha | exact Hagain].
Defined.

(** ** Operands of incompatible sizes *)

(** X8. A trace append whose operands are live and whose sizes do not fit
    (an operand is neither scalar nor of the largest size) raises the
    error of incompatible sizes, with the sizes of the operands in the
    order of the arguments, and leaves the world as it was: no reference
    is taken, nothing is logged and the evaluator is not run, dirty
    operands or not. *)
Theorem shape_mismatch_raises cuda sn impl c k w :
  active_stream (st w) = Some k →
  Forall (λ a, a ≠ 0 ∧ is_Some (variables (st w) !! a)) (operands c) →
  ¬ sizes_ok c (st w) →
  run_append cuda sn impl c w
  = Raise (ErrIncompatibleSize (map (size_of (st w)) (operands c))
             (default "" (call_stmt c))) w.
Proof.
  intros Hk Hops Hbad.
  destruct c as [t s|t s a1|t s a1 a2|t s a1 a2 a3]; simpl in *.
  - exfalso. apply Hbad. constructor.
  - exfalso. apply Hbad. unfold sizes_ok. simpl.
    rewrite Forall_cons, Forall_nil. auto.
  - rewrite !Forall_cons, Forall_nil in Hops.
    destruct Hops as ((H1 & v1 & Hv1) & (H2 & v2 & Hv2) & _).
    rewrite (append_2_mismatch cuda sn impl t s a1 a2 v1 v2 k w) by done.
    unfold size_of. by rewrite Hv1, Hv2.
  - rewrite !Forall_cons, Forall_nil in Hops.
    destruct Hops as ((H1 & v1 & Hv1) & (H2 & v2 & Hv2) & (H3 & v3 & Hv3) & _).
    rewrite (append_3_mismatch cuda sn impl t s a1 a2 a3 v1 v2 v3 k w) by done.
    unfold size_of. by rewrite Hv1, Hv2, Hv3.
Qed.

Lemma shape_mismatch_raises_witness :
  run_append false true (jit_eval_model false)
    (Append2 EnokiType.Float32 add_stmt 1 2) w_shapes
  = Raise (ErrIncompatibleSize [2; 3] "add.$t0 $r0, $r1, $r2") w_shapes.
Proof.
  apply (shape_mismatch_raises false true (jit_eval_model false)
           (Append2 EnokiType.Float32 add_stmt 1 2) (stream_key (-1) 0) w_shapes).
  - vm_compute. reflexivity.
  - simpl. rewrite !Forall_cons, Forall_nil.
    split_and!; try discriminate; try exact I;
      eexists; vm_compute; reflexivity.
  - unfold sizes_ok. simpl. rewrite !Forall_cons, Forall_nil.
    intros [[H|H] _]; vm_compute in H; discriminate H.
Defined.

(** ** The drops of references terminate *)

(** X9. [jit_dec_ref_ext], [jit_dec_ref_int] and [jit_var_free] call one
    another; every nested call is made after an entry was erased from the
    table of variables, so the recursion is at most as deep as the table
    is large, and the three functions come to an outcome in every
    state. *)
Theorem reference_drops_terminate cuda index w :
  jit_dec_ref_ext cuda index w ≠ Diverge ∧
  jit_dec_ref_int cuda index w ≠ Diverge ∧
  jit_var_free cuda index w ≠ Diverge.
Proof.
  pose proof (λ i w, proj1 (jit_dec_ref_total cuda i w)) as He.
  pose proof (λ i w, proj2 (jit_dec_ref_total cuda i w)) as Hi.
  split_and!; [apply He | apply Hi |].
  unfold jit_var_free, jit_var_free_with. unfold bind at 1, get.
  destruct (variables (st w) !! index) as [v|]; [|done].
  apply bind_terminates; [done|]. intros [] w1 _.
  apply bind_terminates; [done|]. intros [] w2 _.
  apply bind_terminates; [by destruct (_ && _)|]. intros [] w3 _.
  apply bind_terminates.
  { destruct (v_direct_pointer v); [|done].
    unfold bind, get. simpl. by destruct (variable_from_ptr (st w3) !! v_data v). }
  intros [] w4 _.
  apply bind_terminates; [done|]. intros [] w5 _.
  apply bind_terminates; [apply Hi|]. intros [] w6 _.
  apply bind_terminates; [apply Hi|]. intros [] w7 _.
  apply bind_terminates; [apply Hi|]. intros [] w8 _.
  apply He.
Qed.

(** ** Sizes that were set *)

(** X10. The size that was set is the size that is read. When
    [jit_var_set_size] without [copy] returns, for a size that fits 32
    bits, it returns the id it was given, and [jit_var_size] of that id
    is the requested size. The queries of an id that is not live, [0]
    included, terminate the process. *)
Theorem set_size_then_size cuda sn impl index size w :
  (∀ idx w',
     jit_var_set_size cuda sn impl index size false w = Ok idx w' →
     size < 4294967296 →
     idx = index ∧ jit_var_size idx w' = Ok size w') ∧
  (variables (st w) !! index = None →
   jit_var_size index w = Fail (ErrUnknownVariable index) ∧
   jit_var_ptr index w = Fail (ErrUnknownVariable index) ∧
   jit_var_label index w = Fail (ErrUnknownVariable index) ∧
   ∀ copy, jit_var_set_size cuda sn impl index size copy w
           = Fail (ErrUnknownVariable index)).
Proof.
  split.
  - intros idx w' Hrun Hsz. unfold jit_var_set_size in Hrun.
    unfold bind at 1 in Hrun.
    destruct (variables (st w) !! index) as [v|] eqn:Hv.
    2:{ by rewrite (jit_var_unknown _ _ Hv) in Hrun. }
    rewrite (jit_var_live _ _ _ Hv) in Hrun.
    destruct (decide (v_size v = size)) as [He|Hne].
    { injection Hrun as <- <-. split; [done|].
      unfold jit_var_size. rewrite (bind_run _ _ _ _ _ (jit_var_live _ _ _ Hv)).
      by rewrite He. }
    rewrite andb_false_r in Hrun.
    destruct (negb (v_data v =? 0) || (0 <? v_ref_count_int v)); [done|].
    unfold write_size, bind, get, put, jit_log, emit, ret in Hrun.
    simpl in Hrun. rewrite Hv in Hrun. injection Hrun as <- <-.
    split; [done|].
    unfold jit_var_size, jit_var, bind, get, ret. simpl.
    rewrite lookup_insert_eq. simpl. by rewrite wrap32_small.
  - intros Hv. unfold jit_var_size, jit_var_ptr, jit_var_label, jit_var_set_size.
    unfold bind. by rewrite (jit_var_unknown _ _ Hv).
Qed.

Lemma set_size_then_size_witness :
  jit_var_size 1 w_ten = Ok 10 w_ten ∧
  jit_var_size 0 w_one = Fail (ErrUnknownVariable 0).
Proof.
  assert (Hrun : jit_var_set_size false true (jit_eval_model false) 1 10 false w_one
                 = Ok 1 w_ten) by by_value.
  split.
  - apply (proj1 (set_size_then_size false true (jit_eval_model false) 1 10 w_one)
             1 w_ten Hrun). reflexivity.
  - apply (proj2 (set_size_then_size false true (jit_eval_model false) 0 10 w_one)).
    vm_compute. reflexivity.
Defined.

(** ** References of the operands on a CSE hit *)

(** X11. A trace append takes the internal references on its operands
    before it consults the CSE table, and keeps them when the node turns
    out to exist. When the statement [stmt] of the clean operand [a] is
    already in the table as the variable [idx], appending it again and
    dropping the reference that the call returned leaves [idx] and the
    CSE table as they were, and [a] with one internal reference more
    than before. *)
Theorem cse_hit_keeps_operand_reference
    cuda sn impl type stmt a va idx vo k sm w :
  active_stream (st w) = Some k → streams (st w) !! k = Some sm →
  a ≠ 0 → idx ≠ 0 → a ≠ idx →
  variables (st w) !! a = Some va → v_dirty va = false →
  v_ref_count_int va < UINT32_MAX →
  variables (st w) !! idx = Some vo →
  0 < v_ref_count_ext vo → v_ref_count_ext vo < UINT32_MAX →
  stmt_defined cuda sn (set_stmt stmt (set_type type Var_new)) →
  variable_from_key (st w) !! (cuda, type, stmt, (a, 0, 0), v_size va) = Some idx →
  ∃ w',
    (i <- jit_trace_append_1 cuda sn impl type stmt a ;;
     jit_dec_ref_ext cuda i) w = Ok tt w' ∧
    variables (st w')
    = <[a := set_ref_count_int (v_ref_count_int va + 1) va]> (variables (st w)) ∧
    variable_from_key (st w') = variable_from_key (st w) ∧
    streams (st w') = <[k := upd_todo (λ t, {[idx]} ∪ t) sm]> (streams (st w)).
Proof.
  intros Hk Hsm Ha Hi Hne Hva Hclean Hint Hvo Hpos Hext Hd Hkey.
  assert (Hwi : wrap32 (v_ref_count_int va + 1) = v_ref_count_int va + 1).
  { apply wrap32_small. unfold UINT32_MAX in Hint. lia. }
  assert (Hwe : wrap32 (v_ref_count_ext vo + 1) = v_ref_count_ext vo + 1).
  { apply wrap32_small. unfold UINT32_MAX in Hext. lia. }
  set (w1 := bump_int a w).
  assert (Hvo1 : variables (st w1) !! idx = Some vo).
  { unfold w1, bump_int. rewrite Hva. simpl. by rewrite lookup_insert_ne. }
  set (w2 := mkWorld (st w1)
               (EvLog (LogTraceAppend idx [a] (v_stmt vo) (reused vo)) :: events w1)).
  set (w3 := bump_ext idx w2).
  set (w4 := mkWorld (upd_streams <[k := upd_todo (λ t, {[idx]} ∪ t) sm]> (st w3))
               (events w3)).
  assert (Happ : jit_trace_append_1 cuda sn impl type stmt a w = Ok idx w4).
  { unfold jit_trace_append_1. unfold bind at 1, get. rewrite Hk.
    destruct (decide (a = 0)); [done|].
    rewrite (bind_run _ _ _ _ _ (jit_var_live _ _ _ Hva)).
    rewrite Hclean. unfold bind at 1, ret.
    rewrite (bind_run _ _ _ _ _ (inc_ref_int_var_live _ _ _ Hva)).
    fold w1.
    erewrite bind_run; [|apply (trace_append_var_hit _ _ _ idx vo); [exact Hd| |exact Hvo1]].
    2:{ unfold w1, bump_int. rewrite Hva. exact Hkey. }
    unfold bind at 1, jit_log, emit. simpl (fst _). simpl (snd _). fold w2.
    erewrite bind_run; [|by apply (inc_ref_ext_var_live _ vo)].
    fold w3.
    unfold bind at 1, todo_insert. unfold bind at 1, get.
    assert (streams (st w3) !! k = Some sm) as ->.
    { unfold w3, bump_ext. simpl. rewrite Hvo1. simpl.
      unfold w1, bump_int. rewrite Hva. exact Hsm. }
    done. }
  assert (Hvars : variables (st w4)
            = <[idx := set_ref_count_ext (v_ref_count_ext vo + 1) vo]>
                (<[a := set_ref_count_int (v_ref_count_int va + 1) va]>
                   (variables (st w)))).
  { unfold w4, w3, bump_ext. simpl. rewrite Hvo1. simpl.
    unfold w1, bump_int. rewrite Hva. simpl. by rewrite Hwi, Hwe. }
  assert (Hkeys : variable_from_key (st w4) = variable_from_key (st w)).
  { unfold w4, w3, bump_ext. simpl. rewrite Hvo1. simpl.
    unfold w1, bump_int. by rewrite Hva. }
  assert (Hstreams : streams (st w4)
            = <[k := upd_todo (λ t, {[idx]} ∪ t) sm]> (streams (st w))).
  { unfold w4, w3, bump_ext. simpl. rewrite Hvo1. simpl.
    unfold w1, bump_int. by rewrite Hva. }
  clearbody w4. eexists. split_and!.
  - rewrite (bind_run _ _ _ _ _ Happ).
    apply (dec_ref_ext_keep cuda idx
             (set_ref_count_ext (v_ref_count_ext vo + 1) vo)); [done| |simpl; lia].
    rewrite Hvars. apply lookup_insert_eq.
  - simpl. rewrite Hvars, insert_insert_eq.
    replace (v_ref_count_ext vo + 1 - 1) with (v_ref_count_ext vo) by lia.
    rewrite set_ref_count_ext_back. apply insert_id.
    by rewrite lookup_insert_ne.
  - exact Hkeys.
  - exact Hstreams.
Qed.

Lemma cse_hit_keeps_operand_reference_witness :
  ∃ w',
    (i <- jit_trace_append_1 false true (jit_eval_model false)
            EnokiType.Float32 neg_stmt 1 ;;
     jit_dec_ref_ext false i) w_used = Ok tt w' ∧
    from_option v_ref_count_int 0 (variables (st w_used) !! 1) = 1 ∧
    from_option v_ref_count_int 0 (variables (st w') !! 1) = 2.
Proof.
  assert (Hk : active_stream (st w_used) = Some (stream_key (-1) 0))
    by (vm_compute; reflexivity).
  assert (Hsm : streams (st w_used) !! stream_key (-1) 0
                = Some (mkStream false (-1) 0 {[1; 2]}))
    by (vm_compute; reflexivity).
  assert (Hva : variables (st w_used) !! 1
                = Some (set_ref_count_int 1 (set_ref_count_ext 1 leaf_node)))
    by (vm_compute; reflexivity).
  assert (Hvo : variables (st w_used) !! 2 = Some neg_node)
    by (vm_compute; reflexivity).
  assert (Hd : stmt_defined false true
                 (set_stmt neg_stmt (set_type EnokiType.Float32 Var_new)))
    by (intros H; discriminate H).
  assert (Hkey : variable_from_key (st w_used)
                 !! (false, EnokiType.Float32, neg_stmt, (1, 0, 0),
                     v_size (set_ref_count_int 1 (set_ref_count_ext 1 leaf_node)))
                 = Some 2)
    by (vm_compute; reflexivity).
  destruct (cse_hit_keeps_operand_reference false true (jit_eval_model false)
              EnokiType.Float32 neg_stmt 1 _ 2 _ _ _ w_used
              Hk Hsm ltac:(discriminate) ltac:(discriminate) ltac:(discriminate)
              Hva eq_refl eq_refl Hvo eq_refl eq_refl Hd Hkey)
    as (w' & Hrun & Hvars & _).
  exists w'. split; [exact Hrun|]. split.
  - rewrite Hva. reflexivity.
  - rewrite Hvars, lookup_insert_eq. reflexivity.
Defined.

(** ** The same statement twice *)

(** X12. A statement without operands that is appended twice in a row
    gets the same id both times: the second call finds the node in the
    CSE table, takes one more external reference on it and adds no
    variable. *)
Theorem leaf_append_twice cuda sn type stmt w idx w1 :
  jit_trace_append_0 cuda sn type stmt w = Ok idx w1 →
  ∃ w2,
    jit_trace_append_0 cuda sn type stmt w1 = Ok idx w2 ∧
    ext_of (st w2) idx = wrap32 (ext_of (st w1) idx + 1) ∧
    dom (variables (st w2)) = dom (variables (st w1)) ∧
    variable_from_key (st w2) = variable_from_key (st w1).
Proof.
  intros Hrun. unfold jit_trace_append_0 in Hrun.
  unfold bind at 1, get in Hrun.
  destruct (active_stream (st w)) as [k|] eqn:Hk; [|done].
  apply bind_Ok in Hrun as (r & w0 & Happ & Hrun).
  apply trace_append_var_Ok in Happ as (Hd & Hkey & Hr & Hs0 & Ha0 & _).
  apply bind_Ok in Hrun as ([] & w0' & Hlog & Hrun). injection Hlog as <-.
  apply bind_Ok in Hrun as ([] & wi & Hinc & Hrun).
  erewrite inc_ref_ext_var_live in Hinc by (simpl; exact Hr).
  injection Hinc as <-.
  apply bind_Ok in Hrun as ([] & wt & Htodo & Hrun). injection Hrun as <- <-.
  unfold todo_insert, bind, get, put in Htodo.
  unfold bump_ext in Htodo. simpl in Htodo. rewrite Hr in Htodo. simpl in Htodo.
  destruct (streams (st w0) !! k) as [sm|] eqn:Hsm; [|done].
  injection Htodo as <-.
  set (v1 := set_ref_count_ext (wrap32 (v_ref_count_ext r.2 + 1)) r.2).
  set (w1 := mkWorld _ _).
  assert (Hv1 : variables (st w1) !! r.1 = Some v1) by apply lookup_insert_eq.
  assert (Hk1 : active_stream (st w1) = Some k) by (simpl; congruence).
  assert (Hkey1 : variable_from_key (st w1)
                  !! mkVariableKey cuda
                       (set_tsize 1 (set_stmt stmt (set_size 1 (set_type type Var_new))))
                  = Some r.1) by exact Hkey.
  assert (Hsm1 : is_Some (streams (st w1) !! k)).
  { simpl. rewrite lookup_insert_eq. by eexists. }
  destruct Hsm1 as [sm1 Hsm1]. clearbody w1.
  eexists. split_and!.
  - unfold jit_trace_append_0. unfold bind at 1, get. rewrite Hk1.
    erewrite bind_run; [|by apply (trace_append_var_hit _ _ _ _ _ _ Hd Hkey1 Hv1)].
    unfold bind at 1, jit_log, emit. simpl (fst _). simpl (snd _).
    erewrite bind_run; [|by eapply inc_ref_ext_var_live].
    unfold todo_insert, bind, get, put, ret. unfold bump_ext. simpl.
    rewrite Hv1. simpl. rewrite Hsm1. reflexivity.
  - unfold ext_of. simpl. rewrite lookup_insert_eq, Hv1. done.
  - simpl. apply dom_insert_lookup_L. by eexists.
  - done.
Qed.

Lemma leaf_append_twice_witness :
  ∃ w2, jit_trace_append_0 false true EnokiType.Float32 mov_half w_one_again
        = Ok 1 w2 ∧ ext_of (st w2) 1 = 3.
Proof.
  assert (Hrun : jit_trace_append_0 false true EnokiType.Float32 mov_half w_one
                 = Ok 1 w_one_again) by by_value.
  destruct (leaf_append_twice false true EnokiType.Float32 mov_half
              w_one 1 w_one_again Hrun) as (w2 & Hagain & He & _).
  exists w2. split; [exact Hagain|]. rewrite He. vm_compute. reflexivity.
Defined.

(** X13. The id of a new node. A node whose key is not in the CSE table
    gets the id [state.variable_index], the counter advances by one
    modulo [2^32], and the node is entered under that id in both tables;
    when the id is still in use, the call terminates the process. *)
Theorem fresh_node_id cuda sn v w :
  stmt_defined cuda sn v →
  variable_from_key (st w) !! mkVariableKey cuda v = None →
  (variables (st w) !! variable_index (st w) = None →
   ∃ w',
     jit_trace_append_var cuda sn v w = Ok (variable_index (st w), v) w' ∧
     variable_index (st w') = wrap32 (variable_index (st w) + 1) ∧
     variables (st w') = <[variable_index (st w) := v]> (variables (st w)) ∧
     variable_from_key (st w')
     = <[mkVariableKey cuda v := variable_index (st w)]> (variable_from_key (st w))) ∧
  (is_Some (variables (st w) !! variable_index (st w)) →
   jit_trace_append_var cuda sn v w = Fail ErrCouldNotAppend).
Proof.
  intros Hd Hk. pose proof (set_stmt_id v) as Hv.
  assert (Hrun : jit_trace_append_var cuda sn v w =
    match variables (st w) !! variable_index (st w) with
    | Some _ => Fail ErrCouldNotAppend
    | None => Ok (variable_index (st w), v)
                (mkWorld (fresh_state cuda v (st w)) (events w))
    end).
  { unfold stmt_defined in Hd.
    unfold jit_trace_append_var, strdup, jit_var, bind, ret, undefined,
      get, put, jit_fail.
    destruct (v_stmt v) as [str|] eqn:Es.
    - rewrite !Hv, ?Es.
      destruct (cuda && negb (v_type v =? EnokiType.Float32));
        [rewrite (Hd eq_refl)|]; rewrite Hk; simpl;
        by destruct (variables (st w) !! variable_index (st w)).
    - destruct Hd as [-> Hc]. rewrite !Hv, ?Es, Hc, Hk. simpl.
      by destruct (variables (st w) !! variable_index (st w)). }
  rewrite Hrun. split.
  - intros ->. eexists. split; [done|]. simpl.
    split_and!; [done|done|]. by rewrite insert_insert_eq.
  - intros [v0 ->]. done.
Qed.

Lemma fresh_node_id_witness :
  ∃ w', jit_trace_append_var false true leaf_node w_init = Ok (1, leaf_node) w' ∧
        variable_index (st w') = 2.
Proof.
  destruct (proj1 (fresh_node_id false true leaf_node w_init
                     ltac:(intros H; discriminate H) ltac:(reflexivity))
              ltac:(reflexivity))
    as (w' & Hrun & Hidx & _).
  exists w'. split; [exact Hrun|]. rewrite Hidx. reflexivity.
Defined.

(** ** The last reference *)

Lemma free_with_leaf cuda fuel index v w :
  variables (st w) !! index = Some v →
  v_dep v = (0, 0, 0) → v_extra_dep v = 0 → v_direct_pointer v = false →
  jit_var_free_with cuda (jit_dec_ref_int_fuel cuda (S fuel))
    (jit_dec_ref_ext_fuel cuda (S fuel)) index w
  = Ok tt (mkWorld
             (upd_variables (delete index)
                (upd_variable_from_key (delete (mkVariableKey cuda v)) (st w)))
             (free_events index v ++ events w)).
Proof.
  intros Hv Hdep Hex Hptr.
  pose proof (dec_ref_fuel_zero cuda fuel) as Hz.
  unfold jit_var_free_with. unfold bind at 1, get. rewrite Hv, Hdep, Hex, Hptr.
  unfold bind at 1, jit_log, emit. unfold bind at 1, modify.
  unfold free_events. cbn [fst snd st events].
  destruct (v_free_variable v && negb (v_data v =? 0));
    unfold bind, emit, ret; cbn [st events];
    rewrite !(proj2 (Hz _)), (proj1 (Hz _)); reflexivity.
Qed.

(** X14. The last reference of a variable without operands. Dropping it
    erases the id from the pending set of the active stream and frees
    the variable: its entry and its key leave the tables, and its buffer
    is released exactly when the variable owns one ([free_variable] set
    and [data] not null). *)
Theorem last_reference_frees_leaf cuda index v k sm w :
  active_stream (st w) = Some k → streams (st w) !! k = Some sm →
  index ≠ 0 → variables (st w) !! index = Some v →
  v_ref_count_ext v = 1 → v_ref_count_int v = 0 →
  v_dep v = (0, 0, 0) → v_extra_dep v = 0 → v_direct_pointer v = false →
  ∃ w',
    jit_dec_ref_ext cuda index w = Ok tt w' ∧
    variables (st w') = delete index (variables (st w)) ∧
    variable_from_key (st w')
    = delete (mkVariableKey cuda v) (variable_from_key (st w)) ∧
    streams (st w') = <[k := upd_todo (λ t, t ∖ {[index]}) sm]> (streams (st w)) ∧
    events w' = free_events index v ++ EvLog (LogDecRefExt index 0) :: events w.
Proof.
  intros Hk Hsm Hne Hv He Hi Hdep Hex Hptr.
  assert (∃ n, size (variables (st w)) = S n) as [n Hsz].
  { destruct (size (variables (st w))) as [|n] eqn:Hsz; [|by eexists].
    apply map_size_empty_inv in Hsz. rewrite Hsz in Hv.
    by rewrite lookup_empty in Hv. }
  unfold jit_dec_ref_ext, dec_ref_fuel.
  cbn [jit_dec_ref_ext_fuel]. unfold bind at 1, get.
  destruct (decide (index = 0 ∨ variables (st w) = ∅)) as [[?|Hem]|_]; [done| |].
  { rewrite Hem in Hv. by rewrite lookup_empty in Hv. }
  rewrite (bind_run _ _ _ _ _ (jit_var_live _ _ _ Hv)).
  destruct (decide (v_ref_count_ext v = 0)) as [Hz|_]; [rewrite Hz in He; done|].
  rewrite He. unfold bind at 1, jit_log, emit. unfold bind at 1, modify.
  cbv zeta. cbn [v_ref_count_ext v_ref_count_int set_ref_count_ext].
  change (1 - 1) with 0. rewrite Hi.
  destruct (decide (0 = 0)) as [_|?]; [|done].
  destruct (decide (0 = 0 ∧ 0 = 0)) as [_|Hn]; [|exfalso; by apply Hn].
  unfold bind at 1, todo_erase. unfold bind at 1, get. cbn [st events].
  assert (active_stream (upd_variables <[index := set_ref_count_ext 0 v]> (st w))
          = Some k) as -> by exact Hk.
  assert (streams (upd_variables <[index := set_ref_count_ext 0 v]> (st w)) !! k
          = Some sm) as -> by exact Hsm.
  unfold put. cbn [st events]. rewrite Hsz.
  erewrite free_with_leaf;
    [|simpl; apply lookup_insert_eq|done|done|done].
  eexists. split; [reflexivity|]. simpl.
  split_and!; try done. by rewrite delete_insert_eq.
Qed.

Lemma last_reference_frees_leaf_witness :
  ∃ w', jit_dec_ref_ext false 1 w_one = Ok tt w' ∧
        variables (st w') !! 1 = None ∧
        events w' = [EvLog (LogVarFree 1 0); EvLog (LogDecRefExt 1 0)] ++ events w_one.
Proof.
  assert (Hk : active_stream (st w_one) = Some (stream_key (-1) 0))
    by (vm_compute; reflexivity).
  assert (Hsm : streams (st w_one) !! stream_key (-1) 0
                = Some (mkStream false (-1) 0 {[1]}))
    by (vm_compute; reflexivity).
  assert (Hv : variables (st w_one) !! 1 = Some (set_ref_count_ext 1 leaf_node))
    by (vm_compute; reflexivity).
  destruct (last_reference_frees_leaf false 1 _ _ _ w_one Hk Hsm
              ltac:(discriminate) Hv eq_refl eq_refl eq_refl eq_refl eq_refl)
    as (w' & Hrun & Hvars & _ & _ & Hev).
  exists w'. split; [exact Hrun|]. split; [|exact Hev].
  rewrite Hvars. apply lookup_delete_eq.
Defined.

Lemma dec_int_last_leaf cuda f f' x vx w :
  f = S f' →
  x ≠ 0 → variables (st w) !! x = Some vx →
  v_ref_count_ext vx = 0 → v_ref_count_int vx = 1 →
  v_dep vx = (0, 0, 0) → v_extra_dep vx = 0 → v_direct_pointer vx = false →
  jit_dec_ref_int_fuel cuda (S f) x w
  = Ok tt (mkWorld
             (upd_variables (delete x)
                (upd_variable_from_key (delete (mkVariableKey cuda vx)) (st w)))
             (free_events x vx ++ EvLog (LogDecRefInt x 0) :: events w)).
Proof.
  intros Hf Hne Hv He Hi Hdep Hex Hptr.
  cbn [jit_dec_ref_int_fuel]. unfold bind at 1, get.
  destruct (decide (x = 0 ∨ variables (st w) = ∅)) as [[?|Hem]|_]; [done| |].
  { rewrite Hem in Hv. by rewrite lookup_empty in Hv. }
  rewrite (bind_run _ _ _ _ _ (jit_var_live _ _ _ Hv)).
  destruct (decide (v_ref_count_int vx = 0)) as [Hz|_]; [rewrite Hz in Hi; done|].
  rewrite Hi. unfold bind at 1, jit_log, emit. unfold bind at 1, modify.
  cbv zeta. cbn [v_ref_count_ext v_ref_count_int set_ref_count_int].
  change (1 - 1) with 0. rewrite He.
  destruct (decide (0 = 0 ∧ 0 = 0)) as [_|Hn]; [|exfalso; by apply Hn].
  cbn [st events]. rewrite Hf.
  erewrite free_with_leaf;
    [|simpl; apply lookup_insert_eq|done|done|done].
  cbn [st events]. unfold upd_variables, upd_variable_from_key.
  cbn [variables variable_from_key variable_from_ptr variable_index
       scatter_gather_operand streams active_stream has_cuda devices].
  by rewrite delete_insert_eq.
Qed.

(** X15. The last reference of a node with an operand. When the node [y]
    holds the only reference of its operand [x], dropping the last
    reference of [y] frees both: [y] leaves the pending set of the active
    stream, the two entries and their keys leave the tables, and the
    operand is released after the node. *)
Theorem last_reference_frees_operand cuda y x vy vx k sm w :
  active_stream (st w) = Some k → streams (st w) !! k = Some sm →
  y ≠ 0 → x ≠ 0 → x ≠ y →
  variables (st w) !! y = Some vy →
  v_ref_count_ext vy = 1 → v_ref_count_int vy = 0 →
  v_dep vy = (x, 0, 0) → v_extra_dep vy = 0 → v_direct_pointer vy = false →
  variables (st w) !! x = Some vx →
  v_ref_count_ext vx = 0 → v_ref_count_int vx = 1 →
  v_dep vx = (0, 0, 0) → v_extra_dep vx = 0 → v_direct_pointer vx = false →
  ∃ w',
    jit_dec_ref_ext cuda y w = Ok tt w' ∧
    variables (st w') = delete x (delete y (variables (st w))) ∧
    variable_from_key (st w')
    = delete (mkVariableKey cuda vx)
        (delete (mkVariableKey cuda vy) (variable_from_key (st w))) ∧
    streams (st w') = <[k := upd_todo (λ t, t ∖ {[y]}) sm]> (streams (st w)) ∧
    events w'
    = free_events x vx ++ EvLog (LogDecRefInt x 0) ::
      free_events y vy ++ EvLog (LogDecRefExt y 0) :: events w.
Proof.
  intros Hk Hsm Hy Hx Hxy Hvy Hey Hiy Hdy Hxdy Hpy Hvx Hex Hix Hdx Hxdx Hpx.
  assert (∃ n, size (variables (st w)) = S (S n)) as [n Hsz].
  { pose proof (map_size_delete y (variables (st w))) as Hd.
    rewrite Hvy in Hd.
    destruct (size (delete y (variables (st w)))) as [|m] eqn:Hm.
    - apply map_size_empty_inv in Hm.
      assert (delete y (variables (st w)) !! x = Some vx) as Hl
        by (by rewrite lookup_delete_ne).
      rewrite Hm in Hl. by rewrite lookup_empty in Hl.
    - exists m. destruct (size (variables (st w))); simpl in Hd; [done|].
      by rewrite Hd. }
  unfold jit_dec_ref_ext, dec_ref_fuel.
  cbn [jit_dec_ref_ext_fuel]. unfold bind at 1, get.
  destruct (decide (y = 0 ∨ variables (st w) = ∅)) as [[?|Hem]|_]; [done| |].
  { rewrite Hem in Hvy. by rewrite lookup_empty in Hvy. }
  rewrite (bind_run _ _ _ _ _ (jit_var_live _ _ _ Hvy)).
  destruct (decide (v_ref_count_ext vy = 0)) as [Hz|_]; [rewrite Hz in Hey; done|].
  rewrite Hey. unfold bind at 1, jit_log, emit. unfold bind at 1, modify.
  cbv zeta. cbn [v_ref_count_ext v_ref_count_int set_ref_count_ext].
  change (1 - 1) with 0. rewrite Hiy.
  destruct (decide (0 = 0)) as [_|?]; [|done].
  destruct (decide (0 = 0 ∧ 0 = 0)) as [_|Hn]; [|exfalso; by apply Hn].
  unfold bind at 1, todo_erase. unfold bind at 1, get. cbn [st events].
  assert (active_stream (upd_variables <[y := set_ref_count_ext 0 vy]> (st w))
          = Some k) as -> by exact Hk.
  assert (streams (upd_variables <[y := set_ref_count_ext 0 vy]> (st w)) !! k
          = Some sm) as -> by exact Hsm.
  unfold put. cbn [st events].
  (* jit_var_free(y) *)
  pose proof (dec_ref_fuel_zero cuda (S n)) as Hz. rewrite Hsz.
  unfold jit_var_free_with. unfold bind at 1, get. cbn [st].
  assert (variables
            (upd_streams <[k := upd_todo (λ t, t ∖ {[y]}) sm]>
               (upd_variables <[y := set_ref_count_ext 0 vy]> (st w))) !! y
          = Some (set_ref_count_ext 0 vy)) as -> by apply lookup_insert_eq.
  cbn [v_dep v_extra_dep v_direct_pointer v_data v_free_variable
       set_ref_count_ext fst snd].
  rewrite Hdy, Hxdy, Hpy. cbn [fst snd].
  unfold bind at 1, jit_log, emit. unfold bind at 1, modify. cbn [st events].
  destruct (v_free_variable vy && negb (v_data vy =? 0)) eqn:Hown;
    (eexists; split;
     [ unfold bind at 1, emit, ret; unfold bind at 1; unfold bind at 1;
       cbn [st events];
       (erewrite bind_run;
        [|apply (dec_int_last_leaf cuda (S n) n x vx);
          [done|done|simpl; rewrite lookup_delete_ne, lookup_insert_ne; done
          |done..]]);
       rewrite !(bind_run _ _ _ _ _ (proj2 (Hz _))), (proj1 (Hz _));
       reflexivity
     | cbn [st events]; unfold free_events; rewrite Hown; simpl;
       rewrite delete_insert_eq; split_and!; try done;
       by rewrite <- ?app_assoc ]).
Qed.

Lemma last_reference_frees_operand_witness :
  ∃ w', jit_dec_ref_ext false 2 w_dependent = Ok tt w' ∧
        variables (st w') !! 1 = None ∧ variables (st w') !! 2 = None.
Proof.
  assert (Hk : active_stream (st w_dependent) = Some (stream_key (-1) 0))
    by (vm_compute; reflexivity).
  assert (Hsm : streams (st w_dependent) !! stream_key (-1) 0
                = Some (mkStream false (-1) 0 {[2]}))
    by (vm_compute; reflexivity).
  assert (Hvx : variables (st w_dependent) !! 1
                = Some (set_ref_count_int 1 leaf_node))
    by (vm_compute; reflexivity).
  assert (Hvy : variables (st w_dependent) !! 2 = Some neg_node)
    by (vm_compute; reflexivity).
  destruct (last_reference_frees_operand false 2 1 _ _ _ _ w_dependent Hk Hsm
              ltac:(discriminate) ltac:(discriminate) ltac:(discriminate)
              Hvy eq_refl eq_refl eq_refl eq_refl eq_refl
              Hvx eq_refl eq_refl eq_refl eq_refl eq_refl)
    as (w' & Hrun & Hvars & _).
  exists w'. split; [exact Hrun|]. rewrite Hvars. split.
  - apply lookup_delete_eq.
  - rewrite lookup_delete_ne by discriminate. apply lookup_delete_eq.
Defined.

(** ** The report on the variables *)

Lemma jit_type_size_cases type w :
  jit_type_size type w = Fail ErrInvalidType ∨
  ∃ n, jit_type_size type w = Ok n w ∧ ∃ s, jit_type_name type w = Ok s w.
Proof.
  unfold jit_type_size, jit_type_name, ret, jit_fail.
  repeat (case_decide; [subst; right; eexists; split; [done|]; by eexists|]).
  by left.
Qed.

Lemma wrap64_add_l a b : wrap64 (wrap64 a + b) = wrap64 (a + b).
Proof. unfold wrap64. by rewrite N.Div0.add_mod_idemp_l. Qed.

Lemma rows_mem_app l row : rows_mem (l ++ [row]) = rows_mem l + row_mem_size row.
Proof.
  unfold rows_mem. induction l as [|r l IH]; simpl; [lia|]. rewrite IH. lia.
Qed.

Lemma jit_whos_row_outcome acc index v w :
  variables (st w) !! index = Some v →
  (is_ok (jit_type_size (v_type v) w) = false →
   jit_whos_row acc index w = Fail ErrInvalidType) ∧
  (is_ok (jit_type_size (v_type v) w) = true →
   ∃ r, jit_whos_row acc index w = Ok r w ∧
        map row_index (whos_rows r) = map row_index (whos_rows acc) ++ [index] ∧
        (wrap64 (whos_total acc) = wrap64 (rows_mem (whos_rows acc)) →
         wrap64 (whos_total r) = wrap64 (rows_mem (whos_rows r)))).
Proof.
  intros Hv. unfold jit_whos_row.
  rewrite (bind_run _ _ _ _ _ (jit_var_live _ _ _ Hv)).
  destruct (jit_type_size_cases (v_type v) w) as [Hf|(n & Hn & s & Hs)].
  - rewrite Hf. split; [|done]. intros _. unfold bind. by rewrite Hf.
  - rewrite Hn. split; [done|]. intros _.
    rewrite (bind_run _ _ _ _ _ Hn). cbv zeta.
    rewrite (bind_run _ _ _ _ _ Hs).
    assert (Hsum : ∀ a b c m t,
              wrap64 (a + b + c) = wrap64 t →
              wrap64 (a + b + c + m) = wrap64 (t + m)).
    { intros a b c m t H. rewrite <- (wrap64_add_l (a + b + c)), H.
      apply wrap64_add_l. }
    destruct (negb (v_data v =? 0)); [|destruct (v_ref_count_ext v =? 0)];
      (eexists; split; [reflexivity|]); simpl; rewrite map_app; (split; [done|]);
      unfold whos_total; simpl; rewrite rows_mem_app; simpl; intros Hacc.
    + rewrite <- (Hsum _ _ _ (wrap64 (v_size v * n)) _ Hacc).
      rewrite <- !N.add_assoc, wrap64_add_l. f_equal. lia.
    + rewrite <- (Hsum _ _ _ (wrap64 (v_size v * n)) _ Hacc).
      rewrite (N.add_comm _ (wrap64 (_ + _))), wrap64_add_l. f_equal. lia.
    + rewrite <- (Hsum _ _ _ (wrap64 (v_size v * n)) _ Hacc).
      rewrite (N.add_comm (mem_size_ready acc) (wrap64 _)), <- N.add_assoc,
        wrap64_add_l. f_equal. lia.
Qed.

Lemma jit_whos_loop_outcome indices : ∀ acc w,
  Forall (λ i, is_Some (variables (st w) !! i)) indices →
  (∀ i v, i ∈ indices → variables (st w) !! i = Some v →
          is_ok (jit_type_size (v_type v) w) = false →
          jit_whos_loop indices acc w = Fail ErrInvalidType) ∧
  ((∀ i v, i ∈ indices → variables (st w) !! i = Some v →
           is_ok (jit_type_size (v_type v) w) = true) →
   ∃ r, jit_whos_loop indices acc w = Ok r w ∧
        map row_index (whos_rows r) = map row_index (whos_rows acc) ++ indices ∧
        (wrap64 (whos_total acc) = wrap64 (rows_mem (whos_rows acc)) →
         wrap64 (whos_total r) = wrap64 (rows_mem (whos_rows r)))).
Proof.
  induction indices as [|i0 rest IH]; intros acc w Hlive.
  - split.
    + intros i v Hi. by apply elem_of_nil in Hi.
    + intros _. exists acc. simpl. by rewrite app_nil_r.
  - apply Forall_cons in Hlive as [[v0 Hv0] Hlive].
    destruct (jit_whos_row_outcome acc i0 v0 w Hv0) as [Hbad Hgood].
    simpl. split.
    + intros i v Hi Hv Hf.
      destruct (is_ok (jit_type_size (v_type v0) w)) eqn:E0.
      * destruct (Hgood eq_refl) as (r & Hr & _).
        rewrite (bind_run _ _ _ _ _ Hr).
        apply elem_of_cons in Hi as [->|Hi].
        { rewrite Hv0 in Hv. injection Hv as <-. by rewrite E0 in Hf. }
        by apply (proj1 (IH r w Hlive) i v).
      * unfold bind. by rewrite (Hbad eq_refl).
    + intros Hall.
      destruct (Hgood (Hall i0 v0 ltac:(left) Hv0)) as (r & Hr & Hrows & Hsum).
      rewrite (bind_run _ _ _ _ _ Hr).
      destruct (proj2 (IH r w Hlive)) as (r' & Hr' & Hrows' & Hsum').
      { intros i v Hi. apply Hall. by right. }
      exists r'. split; [done|]. split.
      * rewrite Hrows', Hrows, <- app_assoc. done.
      * intros Hacc. by apply Hsum', Hsum.
Qed.

(** X16. [jit_whos] goes through the live variables in the order of their
    ids and asks [jit_type_size] for the size of each type. When every
    live variable has a type with a size, the call leaves the world
    alone and reports one line per variable, in ascending order of the
    ids; every variable is counted in exactly one of the three totals, so
    that they add up, in [size_t] arithmetic, to the memory of the lines.
    When some live variable has a type without a size, [Float16] for
    one, the call terminates the process. *)
Theorem jit_whos_outcome w :
  ((∀ i v, variables (st w) !! i = Some v →
           is_ok (jit_type_size (v_type v) w) = true) →
   ∃ r, jit_whos w = Ok r w ∧
        map row_index (whos_rows r)
        = merge_sort N.le (elements (dom (variables (st w)))) ∧
        StronglySorted N.le (map row_index (whos_rows r)) ∧
        length (whos_rows r) = size (variables (st w)) ∧
        wrap64 (whos_total r) = wrap64 (rows_mem (whos_rows r))) ∧
  (∀ i v, variables (st w) !! i = Some v →
          is_ok (jit_type_size (v_type v) w) = false →
          jit_whos w = Fail ErrInvalidType) ∧
  is_ok (jit_type_size EnokiType.Float16 w) = false.
Proof.
  set (indices := merge_sort N.le (elements (dom (variables (st w))))).
  assert (Hin : ∀ i, i ∈ indices ↔ is_Some (variables (st w) !! i)).
  { intros i. unfold indices. rewrite merge_sort_Permutation.
    by rewrite elem_of_elements, elem_of_dom. }
  assert (Hlive : Forall (λ i, is_Some (variables (st w) !! i)) indices).
  { apply Forall_forall. intros i. apply Hin. }
  pose proof (jit_whos_loop_outcome indices (mkWhos [] 0 0 0) w Hlive)
    as [Hbad Hgood].
  split_and!; [| |done].
  - intros Hall. destruct Hgood as (r & Hr & Hrows & Hsum).
    { intros i v _. apply Hall. }
    exists r. simpl in Hrows. split_and!; [done|done| | |by apply Hsum].
    + rewrite Hrows. apply (StronglySorted_merge_sort _).
    + rewrite <- (length_map row_index), Hrows. unfold indices.
      rewrite merge_sort_Permutation. rewrite <- size_dom. done.
  - intros i v Hv Hf. apply (Hbad i v); [|done..]. apply Hin. by eexists.
Qed.

Lemma jit_whos_outcome_witness :
  (∃ r, jit_whos w_used_dropped = Ok r w_used_dropped ∧
        map row_index (whos_rows r) = [1; 2] ∧
        mem_size_ready r = 0 ∧ mem_size_scheduled r = 4 ∧ mem_size_arith r = 4 ∧
        rows_mem (whos_rows r) = 8) ∧
  (∃ r, jit_whos w_dirty_read = Ok r w_dirty_read ∧
        map row_index (whos_rows r) = [1; 2] ∧
        mem_size_ready r = 4 ∧ mem_size_scheduled r = 4 ∧ mem_size_arith r = 0) ∧
  jit_whos w_mixed = Fail ErrInvalidType.
Proof.
  assert (Hsized : ∀ w : World,
    bool_decide (map_Forall (λ _ v, is_ok (jit_type_size (v_type v) w) = true)
                   (variables (st w))) = true →
    ∀ i v, variables (st w) !! i = Some v →
           is_ok (jit_type_size (v_type v) w) = true).
  { intros w H. apply bool_decide_eq_true_1 in H. exact H. }
  assert (Hval : ∀ (w : World) r r0,
    jit_whos w = Ok r w → res_value (jit_whos w) = Some r0 → r = r0).
  { intros w r r0 Hr H. rewrite Hr in H. by injection H. }
  split_and!.
  - destruct (proj1 (jit_whos_outcome w_used_dropped)) as (r & Hr & Hrows & _).
    { apply Hsized. vm_compute. reflexivity. }
    exists r. split; [exact Hr|].
    rewrite (Hval _ _
               (mkWhos [mkWhosRow 1 "f32" 0 1 1 4 false ""; mkWhosRow 2 "f32" 1 0 1 4 false ""]
                  0 4 4) Hr);
      [|vm_compute; reflexivity].
    split_and!; reflexivity.
  - destruct (proj1 (jit_whos_outcome w_dirty_read)) as (r & Hr & Hrows & _).
    { apply Hsized. vm_compute. reflexivity. }
    exists r. split; [exact Hr|].
    rewrite (Hval _ _
               (mkWhos [mkWhosRow 1 "f32" 1 1 1 4 true ""; mkWhosRow 2 "f32" 1 0 1 4 false ""]
                  4 4 0) Hr);
      [|vm_compute; reflexivity].
    split_and!; reflexivity.
  - apply (proj1 (proj2 (jit_whos_outcome w_mixed)) 2
             (set_ref_count_ext 1 (set_type EnokiType.Float16 leaf_node))).
    + vm_compute. reflexivity.
    + reflexivity.
Defined.

(** ** Only owned buffers are released *)

Lemma releases_owned_refl w : releases_owned w w.
Proof.
  split; [by eauto|]. exists []. split; [done|].
  intros p Hp. by apply elem_of_nil in Hp.
Qed.

Lemma releases_owned_trans w1 w2 w3 :
  releases_owned w1 w2 → releases_owned w2 w3 → releases_owned w1 w3.
Proof.
  intros [Hv1 (n1 & He1 & Hf1)] [Hv2 (n2 & He2 & Hf2)]. split.
  - intros i v3 H3. destruct (Hv2 _ _ H3) as (v2 & H2 & Hd2 & Hfr2).
    destruct (Hv1 _ _ H2) as (v1 & H1 & Hd1 & Hfr1).
    exists v1. split_and!; [done|congruence..].
  - exists (n2 ++ n1). split; [by rewrite He2, He1, app_assoc|].
    intros p Hp. apply elem_of_app in Hp as [Hp|Hp].
    + destruct (Hf2 _ Hp) as (i & v2 & H2 & Hfr & Hd & Hnz & Hgone).
      destruct (Hv1 _ _ H2) as (v1 & H1 & Hd1 & Hfr1).
      exists i, v1. split_and!; [done|congruence..|done].
    + destruct (Hf1 _ Hp) as (i & v1 & H1 & Hfr & Hd & Hnz & Hgone).
      exists i, v1. split_and!; try done.
      destruct (variables (st w3) !! i) as [v3|] eqn:E3; [|done].
      destruct (Hv2 _ _ E3) as (v2 & H2 & _). by rewrite Hgone in H2.
Qed.

Lemma wp_releases_bind {A B} (m : M A) (k : A → M B) w :
  wp m (λ _ w', releases_owned w w') w →
  (∀ a w1, wp (k a) (λ _ w', releases_owned w1 w') w1) →
  wp (bind m k) (λ _ w', releases_owned w w') w.
Proof.
  intros Hm Hk. apply wp_bind. eapply wp_mono; [exact Hm|].
  intros a w1 H1. eapply wp_mono; [apply Hk|].
  intros b w2 H2. simpl in *. eapply releases_owned_trans; eassumption.
Qed.

Lemma wp_releases_from {A} (m : M A) w w1 :
  releases_owned w w1 →
  wp m (λ _ w', releases_owned w1 w') w1 →
  wp m (λ _ w', releases_owned w w') w1.
Proof.
  intros H Hm. eapply wp_mono; [exact Hm|].
  intros a w2 H2. simpl in *. eapply releases_owned_trans; eassumption.
Qed.

(** A count that changes, and lines of the log. *)
Lemma releases_owned_update w index v v' s l :
  variables (st w) !! index = Some v →
  v_data v' = v_data v → v_free_variable v' = v_free_variable v →
  variables s = <[index := v']> (variables (st w)) →
  releases_owned w (mkWorld s (EvLog l :: events w)).
Proof.
  intros Hv Hd Hf Hs. split.
  - intros i vi. simpl. rewrite Hs.
    destruct (decide (i = index)) as [->|Hne].
    + rewrite lookup_insert_eq. intros [= <-]. by exists v.
    + rewrite lookup_insert_ne by done. by eauto.
  - exists [EvLog l]. split; [done|]. intros p Hp.
    apply list_elem_of_singleton in Hp. done.
Qed.

Lemma free_releases_owned cuda (dec_int dec_ext : N → M unit) index w :
  (∀ i w, wp (dec_int i) (λ _ w', releases_owned w w') w) →
  (∀ i w, wp (dec_ext i) (λ _ w', releases_owned w w') w) →
  wp (jit_var_free_with cuda dec_int dec_ext index)
     (λ _ w', releases_owned w w') w.
Proof.
  intros Hint Hext. unfold jit_var_free_with. wp_pure.
  destruct (variables (st w) !! index) as [v|] eqn:Hv; [|wp_pure].
  wp_pure. wp_pure.
  assert (Hrest : ∀ l ptrs,
    (l = [EvLog (LogVarFree index (v_data v))] ∨
     (l = [EvJitFree (v_data v); EvLog (LogVarFree index (v_data v))] ∧
      v_free_variable v = true ∧ v_data v ≠ 0)) →
    wp (_ <- modify (upd_variables (delete index)) ;;
        _ <- dec_int (v_dep v).1.1 ;;
        _ <- dec_int (v_dep v).1.2 ;;
        _ <- dec_int (v_dep v).2 ;;
        dec_ext (v_extra_dep v))
      (λ _ w', releases_owned w w')
      (mkWorld
         (upd_variable_from_ptr (λ _, ptrs)
            (upd_variable_from_key (delete (mkVariableKey cuda v)) (st w)))
         (l ++ events w))).
  { intros l ptrs Hl. wp_pure. apply wp_releases_from.
    - split.
      + intros i vi. simpl. intros Hi.
        apply lookup_delete_Some in Hi as [_ Hi]. by eauto.
      + exists l. split; [done|]. intros p Hp.
        destruct Hl as [->|(-> & Hfr & Hnz)].
        * apply list_elem_of_singleton in Hp. done.
        * apply elem_of_cons in Hp as [[= ->]|Hp].
          -- exists index, v. split_and!; try done. simpl.
             apply lookup_delete_eq.
          -- apply list_elem_of_singleton in Hp. done.
    - apply wp_releases_bind; [apply Hint|]. intros _ w1.
      apply wp_releases_bind; [apply Hint|]. intros _ w2.
      apply wp_releases_bind; [apply Hint|]. intros _ w3.
      apply Hext. }
  apply wp_bind.
  destruct (v_free_variable v && negb (v_data v =? 0)) eqn:Hown; wp_pure.
  - assert (Hl : [EvJitFree (v_data v); EvLog (LogVarFree index (v_data v))]
                 = [EvLog (LogVarFree index (v_data v))] ∨
                 ([EvJitFree (v_data v); EvLog (LogVarFree index (v_data v))]
                  = [EvJitFree (v_data v); EvLog (LogVarFree index (v_data v))] ∧
                  v_free_variable v = true ∧ v_data v ≠ 0)).
    { right. split; [done|]. apply andb_true_iff in Hown as [Hfr Hnz].
      split; [done|]. by apply negb_true_iff, N.eqb_neq in Hnz. }
    apply wp_bind. destruct (v_direct_pointer v).
    + wp_pure. simpl.
      destruct (variable_from_ptr (st w) !! v_data v) eqn:Hp; wp_pure.
      apply (Hrest _ (delete (v_data v) (variable_from_ptr (st w))) Hl).
    + wp_pure. apply (Hrest _ (variable_from_ptr (st w)) Hl).
  - apply wp_bind. destruct (v_direct_pointer v).
    + wp_pure. simpl.
      destruct (variable_from_ptr (st w) !! v_data v) eqn:Hp; wp_pure.
      apply (Hrest [_] (delete (v_data v) (variable_from_ptr (st w)))). by left.
    + wp_pure. apply (Hrest [_] (variable_from_ptr (st w))). by left.
Qed.

Lemma dec_ref_fuel_releases cuda fuel :
  (∀ index w, wp (jit_dec_ref_ext_fuel cuda fuel index)
                (λ _ w', releases_owned w w') w) ∧
  (∀ index w, wp (jit_dec_ref_int_fuel cuda fuel index)
                (λ _ w', releases_owned w w') w).
Proof.
  induction fuel as [|fuel [IHe IHi]]; (split; intros index w); [exact I | exact I | |].
  - cbn [jit_dec_ref_ext_fuel]. wp_pure.
    destruct (decide (index = 0 ∨ variables (st w) = ∅));
      [wp_pure; apply releases_owned_refl|].
    apply wp_bind, wp_jit_var. intros v Hv.
    destruct (decide (v_ref_count_ext v = 0)) as [|Hpos]; [wp_pure|].
    wp_pure. wp_pure.
    set (v' := set_ref_count_ext (v_ref_count_ext v - 1) v).
    assert (Hmid : ∀ s, variables s = <[index := v']> (variables (st w)) →
              releases_owned w
                (mkWorld s (EvLog (LogDecRefExt index (v_ref_count_ext v - 1))
                            :: events w))).
    { intros s Hs. by apply (releases_owned_update w index v v'). }
    apply wp_bind.
    destruct (decide (v_ref_count_ext v' = 0)) as [Hz|Hnz].
    + apply wp_todo_erase. intros k sm Hk Hsm.
      destruct (decide (v_ref_count_ext v' = 0 ∧ v_ref_count_int v' = 0)).
      * apply wp_releases_from; [by apply Hmid|].
        apply free_releases_owned; [exact IHi | exact IHe].
      * wp_pure. by apply Hmid.
    + wp_pure.
      destruct (decide (v_ref_count_ext v' = 0 ∧ v_ref_count_int v' = 0))
        as [[? _]|]; [done|].
      wp_pure. by apply Hmid.
  - cbn [jit_dec_ref_int_fuel]. wp_pure.
    destruct (decide (index = 0 ∨ variables (st w) = ∅));
      [wp_pure; apply releases_owned_refl|].
    apply wp_bind, wp_jit_var. intros v Hv.
    destruct (decide (v_ref_count_int v = 0)) as [|Hpos]; [wp_pure|].
    wp_pure. wp_pure.
    set (v' := set_ref_count_int (v_ref_count_int v - 1) v).
    assert (Hmid : releases_owned w
              (mkWorld (upd_variables <[index := v']> (st w))
                 (EvLog (LogDecRefInt index (v_ref_count_int v - 1)) :: events w))).
    { by apply (releases_owned_update w index v v'). }
    destruct (decide (v_ref_count_ext v' = 0 ∧ v_ref_count_int v' = 0)).
    + apply wp_releases_from; [exact Hmid|].
      apply free_releases_owned; [exact IHi | exact IHe].
    + wp_pure. exact Hmid.
Qed.

(** X17. The drops of references release owned buffers only. Whatever
    [jit_dec_ref_ext] or [jit_dec_ref_int] frees on the way, every call
    of [jit_free] it makes is for the non-null buffer of a variable that
    was live with [free_variable] set and is gone afterwards; a variable
    that is still live has the buffer and the ownership flag it had. *)
Theorem only_owned_buffers_released cuda index w w' :
  jit_dec_ref_ext cuda index w = Ok tt w' ∨
  jit_dec_ref_int cuda index w = Ok tt w' →
  releases_owned w w'.
Proof.
  intros [Hrun|Hrun]; unfold jit_dec_ref_ext, jit_dec_ref_int in Hrun.
  - exact (wp_elim _ _ _ _ _
             (proj1 (dec_ref_fuel_releases cuda (dec_ref_fuel (st w))) index w) Hrun).
  - exact (wp_elim _ _ _ _ _
             (proj2 (dec_ref_fuel_releases cuda (dec_ref_fuel (st w))) index w) Hrun).
Qed.

Lemma only_owned_buffers_released_witness :
  releases_owned w_buf w_buf_dropped ∧ EvJitFree 4096 ∈ events w_buf_dropped.
Proof.
  split.
  - apply (only_owned_buffers_released false 1 w_buf w_buf_dropped).
    left. by_value.
  - assert (Hev : head (events w_buf_dropped) = Some (EvJitFree 4096))
      by (vm_compute; reflexivity).
    destruct (events w_buf_dropped) as [|e l]; [discriminate Hev|].
    injection Hev as ->. left.
Defined.

(** ** Edges of the reference counts *)

(** X18. Taking a reference. Id [0] is accepted and ignored; an id that
    is not live terminates the process, also when the table is empty
    (where the drops return silently); on a live variable the count goes
    up by one modulo [2^32], so that a count of [UINT32_MAX] becomes [0]
    without an error. *)
Theorem inc_ref_edges index w :
  jit_inc_ref_ext 0 w = Ok tt w ∧ jit_inc_ref_int 0 w = Ok tt w ∧
  (index ≠ 0 → variables (st w) !! index = None →
   jit_inc_ref_ext index w = Fail (ErrUnknownVariable index) ∧
   jit_inc_ref_int index w = Fail (ErrUnknownVariable index)) ∧
  (∀ v, index ≠ 0 → variables (st w) !! index = Some v →
     jit_inc_ref_ext index w = Ok tt (bump_ext index w) ∧
     jit_inc_ref_int index w = Ok tt (bump_int index w) ∧
     ext_of (st (bump_ext index w)) index = wrap32 (v_ref_count_ext v + 1) ∧
     (v_ref_count_ext v = UINT32_MAX → ext_of (st (bump_ext index w)) index = 0)).
Proof.
  split_and!; try done.
  - intros Hne Hv. unfold jit_inc_ref_ext, jit_inc_ref_int.
    destruct (decide (index ≠ 0)); [|done].
    unfold bind. by rewrite (jit_var_unknown _ _ Hv).
  - intros v Hne Hv. unfold jit_inc_ref_ext, jit_inc_ref_int.
    destruct (decide (index ≠ 0)); [|done].
    rewrite !(bind_run _ _ _ _ _ (jit_var_live _ _ _ Hv)).
    rewrite (inc_ref_ext_var_live _ _ _ Hv), (inc_ref_int_var_live _ _ _ Hv).
    assert (He : ext_of (st (bump_ext index w)) index
                 = wrap32 (v_ref_count_ext v + 1)).
    { unfold ext_of, bump_ext. rewrite Hv. simpl. by rewrite lookup_insert_eq. }
    split_and!; try done. intros Hmax. by rewrite He, Hmax.
Qed.

Lemma inc_ref_edges_witness :
  jit_inc_ref_ext 7 w_init = Fail (ErrUnknownVariable 7) ∧
  jit_inc_ref_ext 1 w_one = Ok tt (bump_ext 1 w_one) ∧
  ext_of (st (bump_ext 1 w_one)) 1 = 2.
Proof.
  assert (Hv : variables (st w_one) !! 1 = Some (set_ref_count_ext 1 leaf_node))
    by (vm_compute; reflexivity).
  destruct (proj2 (proj2 (proj2 (inc_ref_edges 1 w_one))) _
              ltac:(discriminate) Hv) as (He & _ & Hc & _).
  split_and!.
  - apply (proj1 (proj2 (proj2 (inc_ref_edges 7 w_init)))); [discriminate|].
    reflexivity.
  - exact He.
  - rewrite Hc. reflexivity.
Defined.

(** X19. The last external reference and the active stream. When the
    count of a live variable goes from one to zero, [jit_dec_ref_ext]
    erases the id from [active_stream->todo] without a test of the
    pointer: on a thread that has no active stream the call is undefined
    behaviour, whatever else the variable is. *)
Theorem last_drop_needs_stream cuda index v w :
  active_stream (st w) = None →
  index ≠ 0 → variables (st w) !! index = Some v → v_ref_count_ext v = 1 →
  jit_dec_ref_ext cuda index w = Undefined.
Proof.
  intros Hk Hne Hv He.
  unfold jit_dec_ref_ext, dec_ref_fuel.
  cbn [jit_dec_ref_ext_fuel]. unfold bind at 1, get.
  destruct (decide (index = 0 ∨ variables (st w) = ∅)) as [[?|Hem]|_]; [done| |].
  { rewrite Hem in Hv. by rewrite lookup_empty in Hv. }
  rewrite (bind_run _ _ _ _ _ (jit_var_live _ _ _ Hv)).
  destruct (decide (v_ref_count_ext v = 0)) as [Hz|_]; [rewrite Hz in He; done|].
  rewrite He. unfold bind at 1, jit_log, emit. unfold bind at 1, modify.
  cbv zeta. cbn [v_ref_count_ext set_ref_count_ext]. change (1 - 1) with 0.
  destruct (decide (0 = 0)) as [_|?]; [|done].
  unfold bind at 1, todo_erase. unfold bind at 1, get. cbn [st events].
  assert (active_stream (upd_variables <[index := set_ref_count_ext 0 v]> (st w))
          = None) as -> by exact Hk.
  done.
Qed.

Lemma last_drop_needs_stream_witness :
  jit_dec_ref_ext false 1 w_reg = Undefined.
Proof.
  assert (Hv : variables (st w_reg) !! 1
               = Some (set_ref_count_ext 1
                         (set_tsize 1
                            (set_free_variable true
                               (set_size 16
                                  (set_data 4096
                                     (set_type EnokiType.Float32 Var_new)))))))
    by (vm_compute; reflexivity).
  exact (last_drop_needs_stream false 1 _ w_reg eq_refl ltac:(discriminate)
           Hv eq_refl).
Defined.

(** ** The size of a broadcast *)

Lemma cse_sizes_checked_ok s : cse_sizes_checked s → cse_sizes_ok s.
Proof.
  intros H key i v Hk Hv. specialize (H key i Hk). simpl in H.
  rewrite Hv in H. simpl in H. by apply Is_true_true, N.eqb_eq in H.
Qed.

(** X20. The size of the node of a trace append. As long as every entry
    of the CSE table leads to a variable of the size in its key, the
    variable that a trace append returns has the largest of the sizes of
    the operands (size 1 without operands), and every operand is a
    scalar or has the size of the result. *)
Theorem broadcast_size cuda sn impl c w idx w' :
  run_append cuda sn impl c w = Ok idx w' →
  cse_sizes_ok (st (base_world impl c w)) →
  size_of (st w') idx = node_size c (st w) ∧
  Forall (λ a, size_of (st w) a = 1 ∨ size_of (st w) a = size_of (st w') idx)
    (operands c).
Proof.
  intros Hrun Hcse.
  destruct (trace_append_size cuda sn impl c w idx w' Hrun Hcse) as [Hok Hsize].
  split; [done|]. by rewrite Hsize.
Qed.

Lemma broadcast_size_witness :
  size_of (st w_pair) 1 = 4 ∧ size_of (st w_pair) 2 = 1 ∧
  size_of (st w_pair_sum) 3 = 4.
Proof.
  assert (Hrun : run_append false true (jit_eval_model false)
                   (Append2 EnokiType.Float32 add_stmt 1 2) w_pair
                 = Ok 3 w_pair_sum) by by_value.
  assert (Hcse : cse_sizes_ok
                   (st (base_world (jit_eval_model false)
                          (Append2 EnokiType.Float32 add_stmt 1 2) w_pair))).
  { apply cse_sizes_checked_ok. apply (bool_decide_eq_true_1 _).
    vm_compute. reflexivity. }
  destruct (broadcast_size false true (jit_eval_model false)
              (Append2 EnokiType.Float32 add_stmt 1 2) w_pair 3 w_pair_sum
              Hrun Hcse) as [Hsize _].
  split_and!; [vm_compute; reflexivity..|].
  rewrite Hsize. vm_compute. reflexivity.
Defined.
